(** * prepush.py: the Android pre-push normalizer, embedded and verified

    The script is a straight line of seven steps over the files of the
    current directory.  This development embeds it shallowly:

    - Python [str] is [string]; a character is one [ascii], read as the code
      point of the same number (0..255). A file holds the text that reading
      it gives, before the translation of line ends; encodings are not
      modelled.
    - The [dict] of step 4 is an association list updated in place, so that
      the iteration order of [props.items()] is the order of the list.
    - The project directory is a finite map from paths (lists of components,
      relative to [ROOT]) to nodes, each with its permission bits. Symbolic
      links and failures for lack of access rights are outside the model.
    - The script's effects (file system, standard output, network requests)
      are threaded through a small state-and-exit monad; [sys.exit(1)] and an
      uncaught exception both stop the run.
    - The clock, the umask and the answer of the distribution server form the
      environment [env] of a run; a server either answers in full or not at
      all. The decoder of the zip format is a parameter of the wrapper
      section.

    The modules [PyStr] to [Prepush] are the embedding, [Spec] is the
    vocabulary of the statements, [Sample] a concrete project, and the
    modules after it hold the facts; the theorems named C1 to C10 settle
    the corresponding claims of the specification. [ScriptFacts] adds
    properties of the run as a whole and of its steps under conditions the
    claims leave out (X1 to X20): what a run never touches, what it prints,
    how it stops, and what a second run does. *)

From Stdlib Require Import Ascii String ZArith Lia.
From stdpp Require Import base option list gmap strings.

Local Open Scope Z_scope.

(** ** Python string operations *)

Module PyStr.

Definition LF : ascii := "010"%char.
Definition CR : ascii := "013"%char.

Definition is_LF (c : ascii) : bool := Ascii.eqb c LF.
Definition is_CR (c : ascii) : bool := Ascii.eqb c CR.

(** [str.splitlines] boundaries among the code points below 256:
    LF, VT, FF, CR, FS, GS, RS and NEL. *)
Definition is_linebreak (c : ascii) : bool :=
  match N_of_ascii c with
  | 10 | 11 | 12 | 13 | 28 | 29 | 30 | 133 => true
  | _ => false
  end%N.

(** [str.isspace] among the code points below 256; this is the set that
    [str.strip()] removes. *)
Definition isspace (c : ascii) : bool :=
  match N_of_ascii c with
  | 9 | 10 | 11 | 12 | 13 | 28 | 29 | 30 | 31 | 32 | 133 | 160 => true
  | _ => false
  end%N.

Definition is_empty (s : string) : bool :=
  match s with EmptyString => true | _ => false end.

(** Text-mode reading ([newline=None]): CR LF and a lone CR become LF. *)
Fixpoint universal_newlines (s : string) : string :=
  match s with
  | EmptyString => EmptyString
  | String c s' =>
      if is_CR c then
        String LF (match s' with
                   | String c' s'' =>
                       if is_LF c' then universal_newlines s''
                       else universal_newlines s'
                   | EmptyString => universal_newlines s'
                   end)
      else String c (universal_newlines s')
  end.

(** [s.splitlines()]: [cur] is the line being read. CR LF counts as one
    boundary, and no empty last line is produced. *)
Fixpoint splitlines_from (cur s : string) : list string :=
  match s with
  | EmptyString => if is_empty cur then [] else [cur]
  | String c s' =>
      if is_linebreak c then
        cur :: (match s' with
                | String c' s'' =>
                    if is_CR c && is_LF c' then splitlines_from "" s''
                    else splitlines_from "" s'
                | EmptyString => splitlines_from "" s'
                end)
      else splitlines_from (cur +:+ String c "") s'
  end.

Definition splitlines (s : string) : list string := splitlines_from "" s.

(** [c in s] for a one-character [c]. *)
Fixpoint contains (c : ascii) (s : string) : bool :=
  match s with
  | EmptyString => false
  | String c' s' => Ascii.eqb c' c || contains c s'
  end.

(** [s.split(c, 1)]: one element when [c] does not occur, two otherwise. *)
Fixpoint split1 (c : ascii) (s : string) : list string :=
  match s with
  | EmptyString => [EmptyString]
  | String c' s' =>
      if Ascii.eqb c' c then [EmptyString; s']
      else match split1 c s' with
           | hd :: tl => String c' hd :: tl
           | [] => [String c' EmptyString]
           end
  end.

(** [s.split(c)]: every occurrence of [c] separates two fields. *)
Fixpoint split (c : ascii) (s : string) : list string :=
  match s with
  | EmptyString => [EmptyString]
  | String c' s' =>
      if Ascii.eqb c' c then EmptyString :: split c s'
      else match split c s' with
           | hd :: tl => String c' hd :: tl
           | [] => [String c' EmptyString]
           end
  end.

Fixpoint lstrip (s : string) : string :=
  match s with
  | EmptyString => EmptyString
  | String c s' => if isspace c then lstrip s' else s
  end.

Fixpoint rstrip (s : string) : string :=
  match s with
  | EmptyString => EmptyString
  | String c s' =>
      let r := rstrip s' in
      if is_empty r && isspace c then EmptyString else String c r
  end.

(** [s.strip()] *)
Definition strip (s : string) : string := lstrip (rstrip s).

(** [s.endswith(suffix)] *)
Fixpoint endswith (s suffix : string) : bool :=
  if String.eqb s suffix then true
  else match s with
       | EmptyString => false
       | String _ s' => endswith s' suffix
       end.

(** [sep.join(parts)] *)
Fixpoint join (sep : string) (parts : list string) : string :=
  match parts with
  | [] => EmptyString
  | [p] => p
  | p :: rest => p +:+ sep +:+ join sep rest
  end.

End PyStr.

(** ** Step 4: the properties table *)

Module Props.
Import PyStr.

(** A [dict] with string keys and values, in insertion order. *)
Abbreviation dict := (list (string * string)).

(** [d[k] = v]: an existing key keeps its place, a new key goes last. *)
Fixpoint dict_set (k v : string) (d : dict) : dict :=
  match d with
  | [] => [(k, v)]
  | (k', v') :: d' =>
      if String.eqb k' k then (k', v) :: d'
      else (k', v') :: dict_set k v d'
  end.

Fixpoint dict_get (k : string) (d : dict) : option string :=
  match d with
  | [] => None
  | (k', v') :: d' => if String.eqb k' k then Some v' else dict_get k d'
  end.

Definition keys (d : dict) : list string := map fst d.

(** The body of the [for line in ...] loop. The unpacking [k, v = ...]
    raises [ValueError] unless the split has two fields; [None] stands
    for that exception. *)
Definition parse_line (line : string) (props : dict) : option dict :=
  if contains "=" line then
    match split1 "=" line with
    | [k; v] => Some (dict_set (strip k) (strip v) props)
    | _ => None
    end
  else Some props.

Fixpoint parse_lines (lines : list string) (props : dict) : option dict :=
  match lines with
  | [] => Some props
  | line :: rest =>
      match parse_line line props with
      | Some props' => parse_lines rest props'
      | None => None
      end
  end.

Definition mandatory : list (string * string) :=
  [ ("android.useAndroidX", "true");
    ("android.enableJetifier", "true");
    ("org.gradle.jvmargs", "-Xmx2048m") ].

(** Lines 113-115. *)
Definition enforce (props : dict) : dict :=
  dict_set "org.gradle.jvmargs" "-Xmx2048m"
    (dict_set "android.enableJetifier" "true"
       (dict_set "android.useAndroidX" "true" props)).

Definition render_item (kv : string * string) : string :=
  fst kv +:+ "=" +:+ snd kv.

(** Line 117. *)
Definition serialize (props : dict) : string :=
  join (String LF "") (map render_item props) +:+ String LF "".

(** Lines 108-111 on the text read from the file. *)
Definition load (text : string) : option dict :=
  parse_lines (splitlines text) [].

End Props.

(** ** The project directory *)

Module FS.

(** A path below [ROOT], one component per element; [[]] is [ROOT]. *)
Abbreviation path := (list string).

Inductive node : Type :=
| File (data : string) (mode : Z)
| Dir (mode : Z).

Definition mode_of (n : node) : Z :=
  match n with File _ m => m | Dir m => m end.

Definition set_mode (m : Z) (n : node) : node :=
  match n with File d _ => File d m | Dir _ => Dir m end.

Definition is_dir (o : option node) : bool :=
  match o with Some (Dir _) => true | _ => false end.

Definition parent (p : path) : path := removelast p.

(** [ROOT] is the working directory of the process: it is a directory. *)
Definition dir_at (t : gmap path node) (p : path) : bool :=
  match p with
  | [] => true
  | _ => is_dir (t !! p)
  end.


Definition remove_tree (q : path) (t : gmap path node) : gmap path node :=
  filter (λ kv, ¬ q `prefix_of` kv.1) t.

(** [p] lies in [q]: strictly below it. *)
Definition inside (q p : path) : Prop := q `prefix_of` p ∧ p ≠ q.

#[global] Instance inside_dec (q p : path) : Decision (inside q p).
Proof. unfold inside. apply _. Defined.

(** [t] without what lies in [q]; the entry at [q] stays. *)
Definition remove_below (q : path) (t : gmap path node) : gmap path node :=
  filter (λ kv, ¬ inside q kv.1) t.

(** The entries of [t] in [q], each by its path from [q]. *)
Definition below (q : path) (t : gmap path node) : list (path * node) :=
  omap (λ kv, if bool_decide (inside q kv.1)
              then Some (drop (length q) kv.1, kv.2) else None)
    (map_to_list t).

(** The entries [sub], paths taken from [q], put into [t]. *)
Definition graft (q : path) (sub : list (path * node)) (t : gmap path node)
    : gmap path node :=
  foldr (λ rn acc, <[q ++ rn.1 := rn.2]> acc) t sub.

Definition is_empty_dir (q : path) (t : gmap path node) : bool :=
  match below q t with [] => true | _ => false end.

End FS.

(** ** Effects: state, output, exit *)

Module Run.
Import FS.

(** A line of standard output. The pictograph that [info], [ok] and [die]
    put before their text is stood for by the constructor. *)
Inductive message : Type :=
| Plain (s : string)      (* print(s) *)
| Info (s : string)       (* info(s) *)
| Ok (s : string)         (* ok(s) *)
| Fatal (s : string)      (* the line printed by die(s) *)
| Next (s : string).      (* the closing line, after its pictograph *)

Inductive exn : Type :=
| IsADirectoryError
| NotADirectoryError
| FileNotFoundError
| FileExistsError
| OSError
| URLError
| ContentTooShortError
| BadZipFile
| KeyError
| ValueError.

(** Why a run stops early. *)
Inductive stop : Type :=
| SysExit (code : Z)
| Raised (e : exn).

Record world : Type := World {
  files : gmap path node;
  stdout : list message;
  requests : list string   (* URLs asked of the network, oldest first *)
}.

Record datetime : Type := DateTime {
  year : Z; month : Z; day : Z; hour : Z; minute : Z; second : Z
}.

Record env : Type := Env {
  now : datetime;                    (* datetime.now() *)
  umask : Z;
  fetch : string → option string;    (* body served for a URL, if any *)
  (* for a URL with no body served: what had arrived when the transfer
     broke off and the exception this raises, if the transfer began *)
  broken : string → option (string * exn);
  cwd : path;                        (* absolute path of ROOT, from os.getcwd() *)
  (* the entries of the file system that are not in ROOT, by absolute path *)
  outside : gmap path node
}.

Definition M (A : Type) : Type := world → (A + stop) * world.

Definition ret {A} (a : A) : M A := λ w, (inl a, w).

Definition bind {A B} (m : M A) (k : A → M B) : M B :=
  λ w, match m w with
       | (inl a, w') => k a w'
       | (inr s, w') => (inr s, w')
       end.

Definition halt {A} (s : stop) : M A := λ w, (inr s, w).

Definition gets {A} (f : world → A) : M A := λ w, (inl (f w), w).

Definition set_files (t : gmap path node) : M unit :=
  λ w, (inl tt, World t (stdout w) (requests w)).

Definition print (m : message) : M unit :=
  λ w, (inl tt, World (files w) (stdout w ++ [m]) (requests w)).

Definition log_request (url : string) : M unit :=
  λ w, (inl tt, World (files w) (stdout w) (requests w ++ [url])).

End Run.

Declare Scope run_scope.
Delimit Scope run_scope with run.
Notation "x <- c ;; k" := (Run.bind c (λ x, k))
  (at level 100, c at next level, right associativity) : run_scope.
Notation "c ;; k" := (Run.bind c (λ _, k))
  (at level 100, right associativity) : run_scope.

Module Os.
Import FS Run.
Local Open Scope run_scope.

Definition raise {A} (e : exn) : M A := halt (Raised e).

(** [die(msg)] *)
Definition die {A} (msg : string) : M A :=
  print (Fatal msg) ;; halt (SysExit 1).

Definition info (msg : string) : M unit := print (Info msg).
Definition ok (msg : string) : M unit := print (Ok msg).

(** [Path.exists()] *)
Definition path_exists (p : path) : M bool :=
  gets (λ w, bool_decide (is_Some (files w !! p))).

Definition file_mode (e : env) : Z := Z.ldiff 438 (umask e).  (* 0o666 *)
Definition dir_mode (e : env) : Z := Z.ldiff 511 (umask e).   (* 0o777 *)

(** The error of creating an entry whose parent is not a directory. *)
Definition no_parent (t : gmap path node) (p : path) : exn :=
  match t !! parent p with
  | Some _ => NotADirectoryError
  | None => FileNotFoundError
  end.

(** [Path.mkdir()] *)
Definition mkdir (e : env) (p : path) : M unit :=
  t <- gets files ;;
  match t !! p with
  | Some _ => raise FileExistsError
  | None =>
      if dir_at t (parent p) then set_files (<[p := Dir (dir_mode e)]> t)
      else raise (no_parent t p)
  end.

(** Create the directories [base/c1], [base/c1/c2], ... that are missing;
    a regular file in the way is an error. The directories made before
    the error stay. *)
Fixpoint makedirs_from (e : env) (base : path) (comps : list string)
    (t : gmap path node) : option exn * gmap path node :=
  match comps with
  | [] => (None, t)
  | c :: rest =>
      let p := base ++ [c] in
      match t !! p with
      | Some (Dir _) => makedirs_from e p rest t
      | Some (File _ _) => (Some NotADirectoryError, t)
      | None => makedirs_from e p rest (<[p := Dir (dir_mode e)]> t)
      end
  end.

(** [Path.mkdir(parents=True, exist_ok=True)]: a regular file at [p]
    itself is reported as [FileExistsError], one on the way to [p] as
    [NotADirectoryError]. *)
Definition mkdir_p (e : env) (p : path) : M unit :=
  t <- gets files ;;
  match makedirs_from e [] p t with
  | (None, t') => set_files t'
  | (Some x, t') =>
      set_files t' ;;
      match t !! p with
      | Some (File _ _) => raise FileExistsError
      | _ => raise x
      end
  end.

(** Opening [p] for writing and storing [data]: an existing file keeps
    its mode, a new one gets the default mode. *)
Definition write_file (e : env) (p : path) (data : string) : M unit :=
  t <- gets files ;;
  match t !! p with
  | Some (Dir _) => raise IsADirectoryError
  | Some (File _ m) => set_files (<[p := File data m]> t)
  | None =>
      if dir_at t (parent p) then set_files (<[p := File data (file_mode e)]> t)
      else raise (no_parent t p)
  end.

(** [Path.write_text(s)]; the newline of the platform is LF. *)
Definition write_text (e : env) (p : path) (s : string) : M unit :=
  write_file e p s.

(** [Path.read_text()] *)
Definition read_text (p : path) : M string :=
  t <- gets files ;;
  match t !! p with
  | Some (File data _) => ret (PyStr.universal_newlines data)
  | Some (Dir _) => raise IsADirectoryError
  | None => raise FileNotFoundError
  end.

(** [shutil.copy(src, dst)]: the data, then the permission bits. A
    directory as [dst] receives the copy under the name of [src]. *)
Definition copy (e : env) (src dst : path) : M unit :=
  t <- gets files ;;
  match t !! src with
  | Some (File data m) =>
      let dst' := if is_dir (t !! dst) then dst ++ [List.last src ""%string] else dst in
      write_file e dst' data ;;
      t' <- gets files ;;
      set_files (alter (set_mode m) dst' t')
  | Some (Dir _) => raise IsADirectoryError
  | None => raise FileNotFoundError
  end.

(** [urllib.request.urlretrieve(url, p)]: the target is opened once the
    server has begun to answer; a transfer that breaks off leaves what
    had arrived. *)
Definition urlretrieve (e : env) (url : string) (p : path) : M unit :=
  log_request url ;;
  match fetch e url with
  | Some body => write_file e p body
  | None =>
      match broken e url with
      | Some (got, x) => write_file e p got ;; raise x
      | None => raise URLError
      end
  end.

(** *** Paths as the system walks them

    A path handed to the system is a directory to start from, given by
    its absolute path, and the components to follow from there; [".."]
    leads to the directory above. *)

(** Where an absolute path lies: at [ROOT] or above it, in [ROOT], or
    elsewhere. *)
Inductive place : Type :=
| Above
| Inside (p : path)
| Outside.

Definition locate (e : env) (a : path) : place :=
  if bool_decide (a `prefix_of` cwd e) then Above
  else if bool_decide (cwd e `prefix_of` a) then Inside (drop (length (cwd e)) a)
       else Outside.

(** The entry at an absolute path that is not [ROOT] or above it. *)
Definition entry_at (e : env) (t : gmap path node) (a : path) : option node :=
  match locate e a with
  | Above => None
  | Inside p => t !! p
  | Outside => outside e !! a
  end.

Definition is_dir_at (e : env) (t : gmap path node) (a : path) : bool :=
  match locate e a with
  | Above => true
  | _ => is_dir (entry_at e t a)
  end.

Definition step (cur : path) (c : string) : path :=
  if String.eqb c ".." then parent cur else cur ++ [c].

(** The walk from the directory [cur]: every component but the last must
    lead to a directory, the last one names the entry. *)
Fixpoint resolve (e : env) (t : gmap path node) (cur : path)
    (comps : list string) : path + exn :=
  match comps with
  | [] => inl cur
  | [c] => inl (step cur c)
  | c :: rest =>
      let next := step cur c in
      if is_dir_at e t next then resolve e t next rest
      else match entry_at e t next with
           | Some _ => inr NotADirectoryError
           | None => inr FileNotFoundError
           end
  end.

(** The move of the entry at [s] of the project to [dst]. The system
    refuses to move a directory into itself, or an entry onto a
    directory it lies in; an entry moved onto itself stays; a file does
    not replace a directory, nor a directory a file or a directory that
    is not empty. *)
Definition move (s dst : path) (t : gmap path node) : gmap path node + exn :=
  match t !! s with
  | None => inr FileNotFoundError
  | Some n =>
      if bool_decide (inside s dst) then inr OSError
      else if bool_decide (inside dst s) then inr OSError
      else if bool_decide (s = dst) then inl t
      else match n, t !! dst with
           | File _ _, Some (Dir _) => inr IsADirectoryError
           | File data m, _ => inl (<[dst := File data m]> (delete s t))
           | Dir _, Some (File _ _) => inr NotADirectoryError
           | Dir m, _ =>
               if is_empty_dir dst t
               then inl (<[dst := Dir m]> (graft dst (below s t) (remove_tree s t)))
               else inr OSError
           end
  end.

(** The move of the entry at the absolute path [a], which is not in
    [ROOT], to [dst]. What this does outside [ROOT] is not recorded. *)
Definition move_in (e : env) (a dst : path) (t : gmap path node)
    : gmap path node + exn :=
  match outside e !! a, t !! dst with
  | None, _ => inr FileNotFoundError
  | Some (File _ _), Some (Dir _) => inr IsADirectoryError
  | Some (File data m), _ => inl (<[dst := File data m]> t)
  | Some (Dir _), Some (File _ _) => inr NotADirectoryError
  | Some (Dir m), _ =>
      if is_empty_dir dst t
      then inl (<[dst := Dir m]> (graft dst (below a (outside e)) t))
      else inr OSError
  end.

(** [Path.rename(dst)], that is [os.rename(src, dst)], for a source given
    as the system walks it and a target [dst] in the project. *)
Definition rename (e : env) (start : path) (comps : list string) (dst : path)
    : M unit :=
  t <- gets files ;;
  match resolve e t start comps with
  | inr x => raise x
  | inl a =>
      if dir_at t (parent dst) then
        match
          match locate e a with
          | Above => inr OSError
          | Inside s => move s dst t
          | Outside => move_in e a dst t
          end
        with
        | inl t' => set_files t'
        | inr x => raise x
        end
      else raise (no_parent t dst)
  end.

(** [shutil.rmtree(p, ignore_errors=True)]: only a directory goes away,
    with all that lies in it. For a path [d/..] what lies in the
    directory above [d] goes away and that directory stays, since it can
    no longer be reached through [d]. *)
Definition rmtree_ignore_errors (p : path) : M unit :=
  t <- gets files ;;
  if bool_decide (last p = Some ".."%string) then
    let d := removelast p in
    if dir_at t d then set_files (remove_below (parent d) t) else ret tt
  else if is_dir (t !! p) then set_files (remove_tree p t) else ret tt.

(** [Path.unlink()] *)
Definition unlink (p : path) : M unit :=
  t <- gets files ;;
  match t !! p with
  | Some (File _ _) => set_files (delete p t)
  | Some (Dir _) => raise IsADirectoryError
  | None => raise FileNotFoundError
  end.

(** [Path.chmod(mode)] *)
Definition chmod (p : path) (m : Z) : M unit :=
  t <- gets files ;;
  match t !! p with
  | Some n => set_files (<[p := set_mode m n]> t)
  | None => raise FileNotFoundError
  end.

End Os.

(** ** The script *)

Module Prepush.
Import PyStr FS Run Os.
Local Open Scope run_scope.

Definition nl : string := String LF "".
Definition dq : string := String "034"%char "".

(** *** Module-level constants *)

Definition BACKUP_DIR : path := [".prepush_backup"].
Definition GRADLE_VERSION : string := "8.2.1".

Definition required : list string := ["app"; "settings.gradle"; "build.gradle"].

Definition backed_up : list string :=
  ["settings.gradle"; "build.gradle"; "gradle.properties"].

(** Line 33. *)
Definition banner : message :=
  Plain (nl +:+ "=== ANDROID PRE-PUSH SANITY & CI NORMALIZATION ===" +:+ nl).

(** *** 0. Basic sanity *)

Fixpoint check_required (rs : list string) : M unit :=
  match rs with
  | [] => ret tt
  | r :: rest =>
      present <- path_exists [r] ;;
      if present then check_required rest
      else die ("Missing required project item: " +:+ r)
  end.

Definition preflight : M unit :=
  check_required required ;;
  ok "Project structure detected".

(** *** 1. Backup originals (once) *)

Definition digit (n : Z) : ascii := ascii_of_N (48 + Z.to_N (n mod 10)).

(** The last [w] decimal digits of [n], most significant first. *)
Fixpoint digits (w : nat) (n : Z) : string :=
  match w with
  | O => EmptyString
  | S w' => digits w' (n / 10) +:+ String (digit n) ""
  end.

(** [strftime("%Y%m%d_%H%M%S")], for a year of four digits. *)
Definition strftime (d : datetime) : string :=
  digits 4 (year d) +:+ digits 2 (month d) +:+ digits 2 (day d) +:+ "_"
  +:+ digits 2 (hour d) +:+ digits 2 (minute d) +:+ digits 2 (second d).

Definition backup_name (f timestamp : string) : string :=
  f +:+ "." +:+ timestamp +:+ ".bak".

Fixpoint backup_each (e : env) (timestamp : string) (fs : list string) : M unit :=
  match fs with
  | [] => ret tt
  | f :: rest =>
      present <- path_exists [f] ;;
      (if present then copy e [f] (BACKUP_DIR ++ [backup_name f timestamp])
       else ret tt) ;;
      backup_each e timestamp rest
  end.

Definition backup (e : env) : M unit :=
  present <- path_exists BACKUP_DIR ;;
  if negb present then
    mkdir e BACKUP_DIR ;;
    backup_each e (strftime (now e)) backed_up ;;
    ok "Original files backed up"
  else
    info "Backup already exists - skipping".   (* a long dash in the source *)

(** *** 2. Normalize settings.gradle *)

Definition settings_template : string :=
  join nl
    [ "";
      "pluginManagement {";
      "    repositories {";
      "        google()";
      "        mavenCentral()";
      "        gradlePluginPortal()";
      "    }";
      "    plugins {";
      "        id " +:+ dq +:+ "com.android.application" +:+ dq
        +:+ " version " +:+ dq +:+ "8.1.2" +:+ dq +:+ " apply false";
      "    }";
      "}";
      "";
      "dependencyResolutionManagement {";
      "    repositoriesMode.set(RepositoriesMode.FAIL_ON_PROJECT_REPOS)";
      "    repositories {";
      "        google()";
      "        mavenCentral()";
      "    }";
      "}";
      "";
      "rootProject.name = " +:+ dq +:+ "Amaal" +:+ dq;
      "include(" +:+ dq +:+ ":app" +:+ dq +:+ ")";
      "" ].

Definition settings_text : string := strip settings_template +:+ nl.

Definition settings (e : env) : M unit :=
  write_text e ["settings.gradle"] settings_text ;;
  ok "settings.gradle normalized".

(** *** 3. Sanitize root build.gradle *)

Definition build_template : string :=
  join nl
    [ "";
      "tasks.register(" +:+ dq +:+ "clean" +:+ dq +:+ ", Delete) {";
      "    delete rootProject.buildDir";
      "}";
      "" ].

Definition build_text : string := strip build_template +:+ nl.

Definition build (e : env) : M unit :=
  write_text e ["build.gradle"] build_text ;;
  ok "build.gradle sanitized".

(** *** 4. Enforce gradle.properties *)

Definition gp : path := ["gradle.properties"].

Definition read_props : M Props.dict :=
  present <- path_exists gp ;;
  if present then
    text <- read_text gp ;;
    match Props.load text with
    | Some props => ret props
    | None => raise ValueError
    end
  else ret [].

Definition properties (e : env) : M unit :=
  props <- read_props ;;
  write_text e gp (Props.serialize (Props.enforce props)) ;;
  ok "gradle.properties enforced".

(** *** 5. Ensure Gradle Wrapper *)

Definition wrapper_dir : path := ["gradle"; "wrapper"].
Definition wrapper_jar : path := wrapper_dir ++ ["gradle-wrapper.jar"].
Definition wrapper_props : path := wrapper_dir ++ ["gradle-wrapper.properties"].
Definition gradlew : path := ["gradlew"].

Definition distribution_url : string :=
  "https://services.gradle.org/distributions/gradle-" +:+ GRADLE_VERSION +:+ "-bin.zip".

Definition zip_path : path := ["gradle-" +:+ GRADLE_VERSION +:+ ".zip"].

Definition wrapper_props_template : string :=
  join nl
    [ "";
      "distributionBase=GRADLE_USER_HOME";
      "distributionPath=wrapper/dists";
      "distributionUrl=https\://services.gradle.org/distributions/gradle-"
        +:+ GRADLE_VERSION +:+ "-bin.zip";
      "zipStoreBase=GRADLE_USER_HOME";
      "zipStorePath=wrapper/dists";
      "" ].

Definition wrapper_props_text : string := strip wrapper_props_template +:+ nl.

Definition ensure_wrapper_props (e : env) : M unit :=
  present <- path_exists wrapper_props ;;
  if negb present then write_text e wrapper_props wrapper_props_text
  else ret tt.

(** What [zipfile.ZipFile] shows of an archive: its entries in directory
    order, each a name and the data stored under it. *)
Record archive : Type := Archive {
  entries : list (string * string)
}.

(** [z.namelist()] *)
Definition namelist (z : archive) : list string := map fst (entries z).

(** The data [z.extract(name, ...)] takes for [name]: where several
    entries bear the name, that of the last one. *)
Definition member (z : archive) (name : string) : option string :=
  snd <$> List.find (λ kv, String.eqb kv.1 name) (rev (entries z)).

Definition special (c : string) : bool :=
  String.eqb c "" || String.eqb c "." || String.eqb c "..".

(** The components of a member name that [ZipFile.extract] writes to:
    empty ones, ["."] and [".."] are dropped. *)
Definition arcname (name : string) : list string :=
  List.filter (λ c, negb (special c)) (split "/" name).

(** The components pathlib keeps of [name] in [dir / name]: empty ones
    and ["."] are dropped, [".."] stays. *)
Definition parts (name : string) : list string :=
  List.filter (λ c, negb (String.eqb c "" || String.eqb c ".")) (split "/" name).

Definition is_absolute (name : string) : bool :=
  match name with
  | String c _ => Ascii.eqb c "/"
  | EmptyString => false
  end.


Definition jar_suffix : string := "gradle-wrapper.jar".

Section Wrapper.
(** The decoder of the zip format: the archive held by a file, if the
    file is one. *)
Variable unzip : string → option archive.

(** [zipfile.ZipFile(p, "r")] *)
Definition open_zip (p : path) : M archive :=
  t <- gets files ;;
  match t !! p with
  | Some (File data _) =>
      match unzip data with
      | Some a => ret a
      | None => raise BadZipFile
      end
  | Some (Dir _) => raise IsADirectoryError
  | None => raise FileNotFoundError
  end.

(** [z.extract(name, dir)] for the name of a file member: the missing
    directories on the way are made, then the file is written. *)
Definition extract (e : env) (z : archive) (name : string) (dir : path) : M unit :=
  match member z name with
  | None => raise KeyError
  | Some data =>
      let comps := arcname name in
      t <- gets files ;;
      match makedirs_from e dir (removelast comps) t with
      | (Some x, t') => set_files t' ;; raise x
      | (None, t') => set_files t' ;; write_file e (dir ++ comps) data
      end
  end.

(** Lines 148-157, the body of the [with] block. [wrapper_dir / jar_src]
    starts from [ROOT] unless [jar_src] is absolute. *)
Definition install_jar (e : env) (z : archive) : M unit :=
  let jar_paths := List.filter (λ n, endswith n jar_suffix) (namelist z) in
  match jar_paths with
  | [] => die "gradle-wrapper.jar not found in Gradle distribution"
  | jar_src :: _ =>
      extract e z jar_src wrapper_dir ;;
      (if is_absolute jar_src then rename e [] (parts jar_src) wrapper_jar
       else rename e (cwd e) (wrapper_dir ++ parts jar_src) wrapper_jar) ;;
      rmtree_ignore_errors (wrapper_dir ++ parts (hd ""%string (split "/" jar_src)))
  end.

Definition ensure_wrapper_jar (e : env) : M unit :=
  present <- path_exists wrapper_jar ;;
  if negb present then
    info ("Downloading Gradle " +:+ GRADLE_VERSION +:+ " wrapper") ;;
    urlretrieve e distribution_url zip_path ;;
    z <- open_zip zip_path ;;
    install_jar e z ;;
    unlink zip_path ;;
    ok "gradle-wrapper.jar installed"
  else
    ok "gradle-wrapper.jar already present".

Definition wrapper (e : env) : M unit :=
  mkdir_p e wrapper_dir ;;
  ensure_wrapper_props e ;;
  ensure_wrapper_jar e.

(** *** 6. Ensure gradlew executable *)

Definition launcher : M unit :=
  present <- path_exists gradlew ;;
  (if negb present then die "gradlew script missing" else ret tt) ;;
  chmod gradlew 493 ;;      (* 0o755 *)
  ok "gradlew executable".

(** *** 7. Final summary *)

Definition summary : M unit :=
  print (Plain (nl +:+ "=== RESULT ===")) ;;
  ok "Project is CI-safe" ;;
  ok "No local Gradle dependency" ;;
  ok "Ready for GitHub Actions build" ;;
  print (Next "NEXT: commit & push, then build ONLY via GitHub Actions").

(** *** The whole script *)

Definition main (e : env) : M unit :=
  print banner ;;
  preflight ;;
  backup e ;;
  settings e ;;
  build e ;;
  properties e ;;
  wrapper e ;;
  launcher ;;
  summary.

End Wrapper.

(** The exit status of the process. *)
Definition exit_status (r : unit + stop) : option Z :=
  match r with
  | inl _ => Some 0
  | inr (SysExit c) => Some c
  | inr (Raised _) => Some 1
  end.

End Prepush.

(** ** Vocabulary of the statements *)

Module Spec.
Import PyStr Props FS Run Os Prepush.

Fixpoint all_chars (P : ascii → bool) (s : string) : bool :=
  match s with
  | EmptyString => true
  | String c s' => P c && all_chars P s'
  end.

(** No component of [p] has a name that the installation may take for
    the wrapper binary. *)
Definition no_jar_name (p : path) : Prop :=
  Forall (λ c, endswith c jar_suffix = false) p.

(** The paths step 5 does not touch: all but the download, what lies in
    [gradle], and the entries named like the wrapper binary with what
    lies in them. *)
Definition outside_wrapper (p : path) : Prop :=
  ¬ ["gradle"%string] `prefix_of` p ∧ p ≠ zip_path ∧ no_jar_name p.

(** The entries [x] of the project directory that steps 5 to 7 leave
    alone. *)
Definition beside_wrapper (x : string) : Prop :=
  x ≠ "gradle"%string ∧ x ≠ "gradle-8.2.1.zip"%string ∧ x ≠ "gradlew"%string
  ∧ endswith x jar_suffix = false.

Definition jar_present_message : message := Ok "gradle-wrapper.jar already present".

(** The script up to the end of step 5. *)
Definition before_launcher (unzip : string → option archive) (e : env) : M unit :=
  (print banner ;; preflight ;; backup e ;; settings e ;; build e ;;
   properties e ;; wrapper unzip e)%run.

(** The script up to the download of step 5. *)
Definition before_download (e : env) : M unit :=
  (print banner ;; preflight ;; backup e ;; settings e ;; build e ;;
   properties e ;; mkdir_p e wrapper_dir ;; ensure_wrapper_props e)%run.

Definition launcher_message : message := Fatal "gradlew script missing".

Definition download_message : message :=
  Info ("Downloading Gradle " +:+ GRADLE_VERSION +:+ " wrapper").

(** The mode of the downloaded archive: that of the file it replaces, or
    the default of a new file. *)
Definition zip_mode (e : env) (t : gmap path node) : Z :=
  match t !! zip_path with
  | Some (File _ m) => m
  | _ => file_mode e
  end.

(** The permission bits of mode 0755, from the owner's read bit down. *)
Definition rwxr_xr_x : list bool :=
  [true; true; true; true; false; true; true; false; true].








(** The line [die] prints for a missing item. *)
Definition missing_message (r : string) : message :=
  Fatal ("Missing required project item: " +:+ r).

(** The first of the names [rs] with no entry in the project directory. *)
Definition first_missing (t : gmap path node) (rs : list string) : option string :=
  List.find (λ r, negb (bool_decide (is_Some (t !! [r])))) rs.

Definition blank (s : string) : bool := all_chars isspace s.

Definition starts_with_space (s : string) : bool :=
  match s with
  | String c _ => isspace c
  | EmptyString => false
  end.

Fixpoint ends_with_space (s : string) : bool :=
  match s with
  | EmptyString => false
  | String c EmptyString => isspace c
  | String _ s' => ends_with_space s'
  end.

(** Neither the first nor the last character is white space. *)
Definition trimmed (s : string) : bool :=
  negb (starts_with_space s) && negb (ends_with_space s).

Definition no_linebreak (s : string) : bool :=
  all_chars (λ c, negb (is_linebreak c)) s.

Definition no_sep (s : string) : bool := negb (contains "=" s).

(** Each line followed by LF. *)
Fixpoint unlines (ls : list string) : string :=
  match ls with
  | [] => EmptyString
  | l :: rest => l +:+ String LF (unlines rest)
  end.

(** The pair a line stands for, when it has a separator. *)
Definition line_pair (line : string) : option (string * string) :=
  if contains "=" line then
    match split1 "=" line with
    | [k; v] => Some (strip k, strip v)
    | _ => None
    end
  else None.

Definition pairs_of (lines : list string) : list (string * string) :=
  omap line_pair lines.



(** The assignments [props[k] = v] for a list of pairs, first to last. *)
Definition assign_all (pairs : list (string * string)) (d : dict) : dict :=
  fold_left (λ d kv, dict_set kv.1 kv.2 d) pairs d.

Definition add_key (ks : list string) (k : string) : list string :=
  if bool_decide (k ∈ ks) then ks else ks ++ [k].

(** The keys of a sequence in the order in which each is first seen. *)
Definition first_seen (ks : list string) : list string :=
  fold_left add_key ks [].

(** The value of the last pair with key [k]. *)
Fixpoint last_value (k : string) (pairs : list (string * string)) : option string :=
  match pairs with
  | [] => None
  | (k', v) :: rest =>
      match last_value k rest with
      | Some v' => Some v'
      | None => if String.eqb k' k then Some v else None
      end
  end.

(** The table step 4 writes for the text it read. *)
Definition table_of (text : string) : dict :=
  enforce (assign_all (pairs_of (splitlines text)) []).

Definition enforced_message : message := Ok "gradle.properties enforced".

(** An entry as the tool itself writes it: stripped key and value, no
    line boundary inside, no separator in the key. *)
Definition canonical_item (kv : string * string) : bool :=
  trimmed kv.1 && trimmed kv.2 && no_linebreak kv.1 && no_linebreak kv.2
  && no_sep kv.1.

Definition canonical (d : dict) : Prop :=
  NoDup (keys d) ∧ Forall (λ kv, canonical_item kv = true) d.

Definition has_mandatory (d : dict) : Prop :=
  ∀ k v, (k, v) ∈ mandatory → dict_get k d = Some v.

(** [l] with [x] put in at index [i]. *)
Definition insert_at {A} (i : nat) (x : A) (l : list A) : list A :=
  take i l ++ x :: drop i l.

(** A property of the state that a computation maintains, however it ends. *)
Definition preserves {A} (I : world → Prop) (m : M A) : Prop :=
  ∀ w r w', I w → m w = (r, w') → I w'.

(** The entries at the paths in [P] stay as they are. *)
Definition keeps {A} (P : path → Prop) (m : M A) : Prop :=
  ∀ w r w' p, P p → m w = (r, w') → files w' !! p = files w !! p.

(** The files stay as they are. *)
Definition reads {A} (m : M A) : Prop :=
  ∀ w r w', m w = (r, w') → files w' = files w.

(** Whenever the computation stops early, the reason is in [Q]. *)
Definition stops_only {A} (Q : stop → Prop) (m : M A) : Prop :=
  ∀ w s w', m w = (inr s, w') → Q s.

(** Stopping with status 0 is what no step does. *)
Definition failure (s : stop) : Prop := s ≠ SysExit 0.

(** Nothing is asked of the network. *)
Definition quiet {A} (m : M A) : Prop :=
  ∀ w r w', m w = (r, w') → requests w' = requests w.

(** *** Vocabulary of the properties of the whole run *)



(** What a computation that returns has printed. *)
Definition prints {A} (out : list message) (m : M A) : Prop :=
  ∀ w a w', m w = (inl a, w') → stdout w' = stdout w ++ out.

(** Everything the computation prints, however it ends, is in [Q]; what
    was printed before stays. *)
Definition emits {A} (Q : message → Prop) (m : M A) : Prop :=
  ∀ w r w', m w = (r, w') → ∃ out, stdout w' = stdout w ++ out ∧ Forall Q out.

(** Where the computation stops early, the reason and the state it stops
    in are in [Q]. *)
Definition stops_in {A} (Q : stop → world → Prop) (m : M A) : Prop :=
  ∀ w s w', m w = (inr s, w') → Q s w'.

(** The texts the script passes to [die]. *)
Definition diagnostic (msg : string) : Prop :=
  (∃ r, r ∈ required ∧ msg = "Missing required project item: " +:+ r)
  ∨ msg = "gradle-wrapper.jar not found in Gradle distribution"%string
  ∨ msg = "gradlew script missing"%string.

(** An exit through [sys.exit] has status 1 and follows the line of [die]. *)
Definition loud_exit (s : stop) (w : world) : Prop :=
  match s with
  | SysExit c => c = 1 ∧ ∃ msg, last (stdout w) = Some (Fatal msg) ∧ diagnostic msg
  | _ => True
  end.

(** The lines of a run that ends with status 0, given whether the backup
    directory and the wrapper binary were there at its start. *)
Definition success_transcript (had_backup had_jar : bool) : list message :=
  [ banner;
    Ok "Project structure detected";
    if had_backup then Info "Backup already exists - skipping"
    else Ok "Original files backed up";
    Ok "settings.gradle normalized";
    Ok "build.gradle sanitized";
    Ok "gradle.properties enforced" ]
  ++ (if had_jar then [Ok "gradle-wrapper.jar already present"]
      else [Info ("Downloading Gradle " +:+ GRADLE_VERSION +:+ " wrapper");
            Ok "gradle-wrapper.jar installed"])
  ++ [ Ok "gradlew executable";
       Plain (nl +:+ "=== RESULT ===");
       Ok "Project is CI-safe";
       Ok "No local Gradle dependency";
       Ok "Ready for GitHub Actions build";
       Next "NEXT: commit & push, then build ONLY via GitHub Actions" ].

Definition is_file (o : option node) : bool :=
  match o with Some (File _ _) => true | _ => false end.

(** [t] with a directory made at [p], unless [p] has an entry. *)
Definition ensure_dir (e : env) (p : path) (t : gmap path node) : gmap path node :=
  match t !! p with
  | Some _ => t
  | None => <[p := Dir (dir_mode e)]> t
  end.

End Spec.

(** ** Sample data *)

Module Sample.
Import PyStr Props FS Run Os Prepush Spec.

(** A clock, a umask of 022, a server that knows the distribution, and
    a project directory with nothing of interest around it. *)
Definition sample_env : env :=
  Env (DateTime 2026 11 3 9 5 7) 18
    (λ url, if String.eqb url distribution_url then Some "ZIP"%string else None)
    (λ _, None) ["home"; "dev"; "amaal"]%string ∅.

(** An archive with two members that match and one that does not. *)
Definition sample_archive : archive :=
  Archive
    [("gradle-8.2.1/README", "read me");
     ("gradle-8.2.1/lib/gradle-wrapper.jar", "JAR1");
     ("gradle-8.2.1/other/x-gradle-wrapper.jar", "JAR2")]%string.

Definition sample_unzip (data : string) : option archive :=
  if String.eqb data "ZIP" then Some sample_archive else None.

(** A decoder for a server whose archive has no wrapper binary. *)
Definition bare_unzip (data : string) : option archive :=
  if String.eqb data "ZIP"
  then Some (Archive [("gradle-8.2.1/README", "read me")]%string)
  else None.

(** A project before its first run. *)
Definition sample_project : gmap path node :=
  <[["app"%string] := Dir 493]>
    (<[["settings.gradle"%string] := File "include ':app'" 420]>
       (<[["build.gradle"%string] := File "buildscript {}" 420]>
          (<[["gradle.properties"%string] := File " foo = bar " 384]>
             (<[["gradlew"%string] := File "#!/bin/sh" 420]> ∅)))).

Definition sample_world : world := World sample_project [] [].

(** The same project at the download of step 5. *)
Definition sample_before_jar : world :=
  World (<[wrapper_dir := Dir 493]> (<[["gradle"%string] := Dir 493]> sample_project))
    [] [].

(** The same project with an empty file for a wrapper binary. *)
Definition sample_with_jar : world :=
  World (<[wrapper_jar := File "" 420]> (files sample_before_jar)) [] [].

End Sample.

(** ** Facts about the string operations *)

Module PyStrFacts.
Import PyStr Spec.

Lemma sapp_nil_l (s : string) : "" +:+ s = s.
Proof. reflexivity. Qed.

Lemma sapp_cons (c : ascii) (a b : string) :
  String c a +:+ b = String c (a +:+ b).
Proof. reflexivity. Qed.

Lemma sapp_nil_r (s : string) : s +:+ "" = s.
Proof. induction s as [|c s IH]; [done | rewrite sapp_cons; by f_equal]. Qed.

Lemma sapp_assoc (a b c : string) : (a +:+ b) +:+ c = a +:+ b +:+ c.
Proof. induction a as [|x a IH]; [done | rewrite !sapp_cons; by f_equal]. Qed.

Lemma sapp_snoc (a : string) (c : ascii) (b : string) :
  (a +:+ String c "") +:+ b = a +:+ String c b.
Proof. by rewrite sapp_assoc. Qed.

Lemma all_chars_app P (a b : string) :
  all_chars P (a +:+ b) = all_chars P a && all_chars P b.
Proof.
  induction a as [|x a IH]; [done |].
  rewrite sapp_cons. simpl. rewrite IH. by rewrite andb_assoc.
Qed.

Lemma all_chars_impl (P Q : ascii → bool) (s : string) :
  (∀ c, P c = true → Q c = true) → all_chars P s = true → all_chars Q s = true.
Proof.
  intros HPQ. induction s as [|c s IH]; simpl; [done |].
  intros [Hc Hs]%andb_prop. rewrite (HPQ _ Hc). simpl. auto.
Qed.

(** *** Line boundaries *)

Lemma CR_linebreak (c : ascii) : is_CR c = true → is_linebreak c = true.
Proof. unfold is_CR. intros ->%Ascii.eqb_eq. reflexivity. Qed.

Lemma no_linebreak_no_CR (s : string) :
  no_linebreak s = true → all_chars (λ c, negb (is_CR c)) s = true.
Proof.
  apply all_chars_impl. intros c Hc.
  destruct (is_CR c) eqn:E; [| done].
  apply CR_linebreak in E. by rewrite E in Hc.
Qed.

Lemma universal_newlines_id (s : string) :
  all_chars (λ c, negb (is_CR c)) s = true → universal_newlines s = s.
Proof.
  induction s as [|c s IH]; simpl; [done |].
  intros [Hc Hs]%andb_prop. apply negb_true_iff in Hc. rewrite Hc.
  by rewrite IH.
Qed.

Lemma splitlines_from_LF (cur rest : string) :
  splitlines_from cur (String LF rest) = cur :: splitlines_from "" rest.
Proof. simpl. by destruct rest. Qed.

Lemma splitlines_from_line (l cur rest : string) :
  no_linebreak l = true →
  splitlines_from cur (l +:+ String LF rest)
  = (cur +:+ l) :: splitlines_from "" rest.
Proof.
  revert cur. induction l as [|c l IH]; intros cur.
  - intros _. rewrite sapp_nil_r, sapp_nil_l. apply splitlines_from_LF.
  - intros [Hc Hl]%andb_prop. apply negb_true_iff in Hc.
    rewrite sapp_cons. cbn [splitlines_from].
    rewrite Hc, (IH _ Hl). by rewrite sapp_snoc.
Qed.

(** Splitting undoes [unlines] when no line holds a boundary. *)
Lemma splitlines_unlines (ls : list string) :
  Forall (λ l, no_linebreak l = true) ls → splitlines (unlines ls) = ls.
Proof.
  unfold splitlines. induction 1 as [|l ls Hl _ IH]; simpl; [done |].
  rewrite (splitlines_from_line _ _ _ Hl). by rewrite IH, sapp_nil_l.
Qed.

Lemma join_unlines (ls : list string) :
  ls ≠ [] → join (String LF "") ls +:+ String LF "" = unlines ls.
Proof.
  induction ls as [|l ls IH]; [done |]. intros _.
  destruct ls as [|l' ls].
  - done.
  - change (join (String LF "") (l :: l' :: ls))
      with (l +:+ String LF "" +:+ join (String LF "") (l' :: ls)).
    rewrite !sapp_assoc, sapp_cons, sapp_nil_l. by rewrite IH.
Qed.

(** The lines of any text hold no boundary. *)
Lemma splitlines_from_no_linebreak (s : string) :
  (∀ cur, no_linebreak cur = true →
     Forall (λ l, no_linebreak l = true) (splitlines_from cur s)) ∧
  (∀ c cur, no_linebreak cur = true →
     Forall (λ l, no_linebreak l = true) (splitlines_from cur (String c s))).
Proof.
  induction s as [|c0 s [IH1 IH2]].
  - split.
    + intros cur Hcur. simpl. destruct (is_empty cur); auto.
    + intros c cur Hcur. simpl. destruct (is_linebreak c) eqn:E.
      * auto.
      * destruct (is_empty _) eqn:E'; [auto |]. constructor; [| auto].
        unfold no_linebreak. rewrite all_chars_app. simpl.
        rewrite E. simpl. by rewrite andb_true_r.
  - split; [intros cur Hcur; by apply IH2 |].
    intros c cur Hcur. cbn [splitlines_from].
    destruct (is_linebreak c) eqn:E.
    + constructor; [done |].
      destruct (is_CR c && is_LF c0); [by apply IH1 | by apply IH2].
    + apply IH2. unfold no_linebreak. rewrite all_chars_app. simpl.
      rewrite E. simpl. by rewrite andb_true_r.
Qed.

Lemma splitlines_no_linebreak (s : string) :
  Forall (λ l, no_linebreak l = true) (splitlines s).
Proof. apply (splitlines_from_no_linebreak s). done. Qed.

(** *** Stripping *)

Lemma lstrip_split (s : string) :
  ∃ ws, s = ws +:+ lstrip s ∧ blank ws = true.
Proof.
  induction s as [|c s (ws & Hs & Hws)].
  - by exists ""%string.
  - simpl. destruct (isspace c) eqn:E.
    + exists (String c ws). rewrite sapp_cons, <- Hs. split; [done |].
      unfold blank in *. simpl. by rewrite E.
    + by exists ""%string.
Qed.

Lemma lstrip_start (s : string) : starts_with_space (lstrip s) = false.
Proof.
  induction s as [|c s IH]; [done |]. simpl.
  destruct (isspace c) eqn:E; [done | by simpl].
Qed.

Lemma lstrip_id (s : string) : starts_with_space s = false → lstrip s = s.
Proof. destruct s as [|c s]; [done |]. simpl. by intros ->. Qed.

Lemma ends_with_space_cons (c : ascii) (s : string) :
  ends_with_space (String c s)
  = if is_empty s then isspace c else ends_with_space s.
Proof. by destruct s. Qed.

Lemma lstrip_end (s : string) :
  ends_with_space s = false → ends_with_space (lstrip s) = false.
Proof.
  induction s as [|c s IH]; [done |].
  rewrite ends_with_space_cons. simpl lstrip.
  destruct (isspace c) eqn:E.
  - destruct s; [done |]. simpl is_empty. cbv iota. apply IH.
  - by rewrite ends_with_space_cons, E.
Qed.

Lemma rstrip_split (s : string) :
  ∃ ws, s = rstrip s +:+ ws ∧ blank ws = true.
Proof.
  induction s as [|c s (ws & Hs & Hws)].
  - by exists ""%string.
  - simpl. destruct (is_empty (rstrip s) && isspace c) eqn:E.
    + apply andb_prop in E as [E1 E2].
      destruct (rstrip s); [| done]. rewrite sapp_nil_l in Hs. subst ws.
      exists (String c s). split; [done |]. unfold blank in *. simpl.
      by rewrite E2.
    + exists ws. by rewrite sapp_cons, <- Hs.
Qed.

Lemma rstrip_end (s : string) : ends_with_space (rstrip s) = false.
Proof.
  induction s as [|c s IH]; [done |]. simpl.
  destruct (is_empty (rstrip s) && isspace c) eqn:E; [done |].
  rewrite ends_with_space_cons.
  destruct (is_empty (rstrip s)); [done | apply IH].
Qed.

Lemma rstrip_cons (c : ascii) (s : string) :
  rstrip (String c s)
  = if is_empty (rstrip s) && isspace c then ""%string else String c (rstrip s).
Proof. reflexivity. Qed.

Lemma rstrip_id (s : string) : ends_with_space s = false → rstrip s = s.
Proof.
  induction s as [|c s IH]; [done |].
  rewrite ends_with_space_cons, rstrip_cons.
  destruct s as [|c' s].
  - simpl. by intros ->.
  - intros H. change (ends_with_space (String c' s) = false) in H. by rewrite (IH H).
Qed.

Lemma strip_id (s : string) : trimmed s = true → strip s = s.
Proof.
  unfold trimmed, strip.
  intros [H1 H2]%andb_prop. apply negb_true_iff in H1, H2.
  by rewrite (rstrip_id _ H2), (lstrip_id _ H1).
Qed.

Lemma strip_trimmed (s : string) : trimmed (strip s) = true.
Proof.
  unfold trimmed, strip.
  by rewrite lstrip_start, (lstrip_end _ (rstrip_end s)).
Qed.

(** [strip] takes white space off both ends and nothing else. *)
Lemma strip_split (s : string) :
  ∃ a b, s = a +:+ strip s +:+ b ∧ blank a = true ∧ blank b = true.
Proof.
  destruct (rstrip_split s) as (b & Hb & Hbb).
  destruct (lstrip_split (rstrip s)) as (a & Ha & Hab).
  exists a, b. split; [| done]. unfold strip.
  by rewrite <- sapp_assoc, <- Ha.
Qed.

Lemma strip_all_chars P (s : string) :
  all_chars P s = true → all_chars P (strip s) = true.
Proof.
  destruct (strip_split s) as (a & b & Hs & _).
  intros H. rewrite Hs, !all_chars_app in H.
  by apply andb_prop in H as [_ [H _]%andb_prop].
Qed.








(** *** Separators *)

Lemma contains_all_chars (c : ascii) (s : string) :
  contains c s = negb (all_chars (λ x, negb (Ascii.eqb x c)) s).
Proof.
  induction s as [|x s IH]; [done |]. simpl. rewrite IH.
  by destruct (Ascii.eqb x c).
Qed.

Lemma split1_spec (c : ascii) (s : string) :
  contains c s = true →
  ∃ k v, split1 c s = [k; v] ∧ s = k +:+ String c v ∧ contains c k = false.
Proof.
  induction s as [|x s IH]; [done |]. simpl.
  destruct (Ascii.eqb x c) eqn:E.
  - intros _. apply Ascii.eqb_eq in E as ->. by exists ""%string, s.
  - simpl. intros (k & v & -> & -> & Hk)%IH.
    exists (String x k), v. simpl. by rewrite E.
Qed.

Lemma split1_app (c : ascii) (k v : string) :
  contains c k = false → split1 c (k +:+ String c v) = [k; v].
Proof.
  induction k as [|x k IH].
  - intros _. rewrite sapp_nil_l. simpl. by rewrite Ascii.eqb_refl.
  - rewrite sapp_cons. simpl. intros [E Hk]%orb_false_elim.
    by rewrite E, (IH Hk).
Qed.

Lemma contains_app_sep (c : ascii) (k v : string) :
  contains c (k +:+ String c v) = true.
Proof.
  induction k as [|x k IH].
  - rewrite sapp_nil_l. simpl. by rewrite Ascii.eqb_refl.
  - rewrite sapp_cons. simpl. rewrite IH. apply orb_true_r.
Qed.

(** *** Names and components *)

Lemma split_nonempty (c : ascii) (s : string) : split c s ≠ [].
Proof.
  destruct s as [|c' s]; [done |]. simpl.
  destruct (Ascii.eqb c' c); [done |]. by destruct (split c s).
Qed.

Lemma split_no_sep (c : ascii) (s : string) :
  contains c s = false → split c s = [s].
Proof.
  induction s as [|c' s IH]; [done |]. cbn [contains split].
  destruct (Ascii.eqb c' c); [done |]. cbn [orb]. by intros ->%IH.
Qed.

Lemma split_hd_no_sep (c : ascii) (s : string) :
  contains c (hd ""%string (split c s)) = false.
Proof.
  induction s as [|c' s IH]; [done |]. cbn [split].
  destruct (Ascii.eqb c' c) eqn:E; [done |].
  destruct (split c s) as [|h tl]; cbn [hd contains] in *; by rewrite E.
Qed.

Lemma endswith_refl (s : string) : endswith s s = true.
Proof. destruct s; simpl; by rewrite ?String.eqb_refl, ?Ascii.eqb_refl. Qed.

Lemma endswith_cons (a : ascii) (s suffix : string) :
  endswith s suffix = true → endswith (String a s) suffix = true.
Proof.
  intros H. cbn [endswith]. by destruct (String.eqb (String a s) suffix).
Qed.

(** A name that ends in [suffix] has a last component that does, when
    [suffix] has no separator. *)
Lemma last_split_endswith (c : ascii) (s suffix : string) :
  contains c suffix = false → endswith s suffix = true →
  ∃ x, last (split c s) = Some x ∧ endswith x suffix = true.
Proof.
  intros Hc. induction s as [|a s IH].
  - cbn [endswith]. destruct (String.eqb_spec "" suffix) as [<-|]; [| done].
    intros _. by exists ""%string.
  - cbn [endswith]. destruct (String.eqb_spec (String a s) suffix) as [<-|_].
    + intros _. rewrite (split_no_sep _ _ Hc). exists (String a s).
      split; [done | apply endswith_refl].
    + intros (x & Hl & Hx)%IH. cbn [split].
      pose proof (split_nonempty c s) as Hne.
      destruct (Ascii.eqb a c).
      * exists x. split; [| done]. destruct (split c s); [done |]. by rewrite last_cons, Hl.
      * destruct (split c s) as [|h [|h' tl]]; [done | |].
        -- simpl in Hl. simplify_eq. exists (String a x).
           split; [done | by apply endswith_cons].
        -- exists x. split; [exact Hl | done].
Qed.




Lemma last_filter {A} (f : A → bool) (l : list A) (x : A) :
  last l = Some x → f x = true → last (List.filter f l) = Some x.
Proof.
  intros Hl Hf. apply last_Some in Hl as [l' ->].
  rewrite List.filter_app. simpl. rewrite Hf. by rewrite last_snoc.
Qed.

End PyStrFacts.

(** ** Facts about the properties table *)

Module PropsFacts.
Import PyStr Props Spec PyStrFacts.

(** *** The dictionary *)

Lemma dict_get_set_eq (k v : string) (d : dict) :
  dict_get k (dict_set k v d) = Some v.
Proof.
  induction d as [|[k' v'] d IH]; simpl.
  - by rewrite String.eqb_refl.
  - destruct (String.eqb_spec k' k) as [->|Hne]; simpl.
    + by rewrite String.eqb_refl.
    + by destruct (String.eqb_spec k' k).
Qed.

Lemma dict_get_set_ne (k k' v : string) (d : dict) :
  k ≠ k' → dict_get k' (dict_set k v d) = dict_get k' d.
Proof.
  intros Hne. induction d as [|[k0 v0] d IH]; simpl.
  - by destruct (String.eqb_spec k k').
  - destruct (String.eqb_spec k0 k) as [->|Hk]; simpl.
    + by destruct (String.eqb_spec k k').
    + by rewrite IH.
Qed.

Lemma dict_get_None (k : string) (d : dict) :
  dict_get k d = None ↔ k ∉ keys d.
Proof.
  unfold keys. induction d as [|[k' v'] d IH]; simpl.
  - split; [intros _; apply not_elem_of_nil | done].
  - rewrite not_elem_of_cons.
    destruct (String.eqb_spec k' k) as [->|Hne]; [naive_solver |].
    rewrite IH. naive_solver.
Qed.

Lemma dict_get_Some_key (k v : string) (d : dict) :
  dict_get k d = Some v → k ∈ keys d.
Proof.
  intros H. destruct (decide (k ∈ keys d)) as [|Hn]; [done |].
  apply dict_get_None in Hn. congruence.
Qed.

Lemma dict_set_fresh (k v : string) (d : dict) :
  k ∉ keys d → dict_set k v d = d ++ [(k, v)].
Proof.
  unfold keys. induction d as [|[k' v'] d IH]; simpl; [done |].
  rewrite not_elem_of_cons. intros [Hne Hd].
  destruct (String.eqb_spec k' k); [congruence |]. by rewrite IH.
Qed.

Lemma dict_set_same (k v : string) (d : dict) :
  dict_get k d = Some v → dict_set k v d = d.
Proof.
  induction d as [|[k' v'] d IH]; simpl; [done |].
  destruct (String.eqb_spec k' k); [congruence |].
  intros H. by rewrite IH.
Qed.

Lemma keys_dict_set (k v : string) (d : dict) :
  keys (dict_set k v d) = add_key (keys d) k.
Proof.
  unfold add_key. case_bool_decide as Hin.
  - unfold keys in *. induction d as [|[k' v'] d IH]; simpl in *.
    + by apply elem_of_nil in Hin.
    + destruct (String.eqb_spec k' k) as [->|Hne]; [done |]. simpl.
      f_equal. apply IH. apply elem_of_cons in Hin as [->|]; done.
  - rewrite dict_set_fresh by done. unfold keys. by rewrite map_app.
Qed.

(** *** First-seen order *)

Lemma add_key_NoDup (ks : list string) (k : string) :
  NoDup ks → NoDup (add_key ks k).
Proof.
  intros H. unfold add_key. case_bool_decide; [done |].
  apply NoDup_app. split_and!; [done | | apply NoDup_singleton].
  intros x Hx ->%list_elem_of_singleton. done.
Qed.

Lemma elem_of_add_key (ks : list string) (k x : string) :
  x ∈ add_key ks k ↔ x ∈ ks ∨ x = k.
Proof.
  unfold add_key. case_bool_decide.
  - naive_solver.
  - rewrite elem_of_app, list_elem_of_singleton. done.
Qed.

Lemma fold_add_key_NoDup (l ks : list string) :
  NoDup ks → NoDup (fold_left add_key l ks).
Proof.
  revert ks. induction l as [|k l IH]; intros ks H; simpl; [done |].
  by apply IH, add_key_NoDup.
Qed.

Lemma elem_of_fold_add_key (l ks : list string) (x : string) :
  x ∈ fold_left add_key l ks ↔ x ∈ ks ∨ x ∈ l.
Proof.
  revert ks. induction l as [|k l IH]; intros ks; simpl.
  - rewrite elem_of_nil. naive_solver.
  - rewrite IH, elem_of_add_key, elem_of_cons. naive_solver.
Qed.

Lemma fold_add_key_prefix (l ks : list string) :
  ∃ rest, fold_left add_key l ks = ks ++ rest.
Proof.
  revert ks. induction l as [|k l IH]; intros ks; simpl.
  - exists []. by rewrite app_nil_r.
  - destruct (IH (add_key ks k)) as [rest ->]. unfold add_key.
    case_bool_decide; [by exists rest |].
    exists (k :: rest). by rewrite <- app_assoc.
Qed.

Lemma first_seen_NoDup (l : list string) : NoDup (first_seen l).
Proof. apply fold_add_key_NoDup, NoDup_nil_2. Qed.

Lemma elem_of_first_seen (l : list string) (x : string) :
  x ∈ first_seen l ↔ x ∈ l.
Proof.
  unfold first_seen. rewrite elem_of_fold_add_key, elem_of_nil. naive_solver.
Qed.

Lemma first_seen_app (l1 l2 : list string) :
  first_seen (l1 ++ l2) = fold_left add_key l2 (first_seen l1).
Proof. unfold first_seen. by rewrite fold_left_app. Qed.

(** A key stands where it was first seen: after the distinct keys seen
    before it, and nowhere else. *)
Lemma first_seen_position (pre post : list string) (k : string) :
  k ∉ pre →
  ∃ rest, first_seen (pre ++ k :: post) = first_seen pre ++ (k :: rest)
          ∧ (k ∉ first_seen pre) ∧ (k ∉ rest).
Proof.
  intros Hk. rewrite first_seen_app. simpl.
  assert (k ∉ first_seen pre) as Hk'.
  { by rewrite elem_of_first_seen. }
  assert (add_key (first_seen pre) k = first_seen pre ++ [k]) as E.
  { unfold add_key. by case_bool_decide. }
  rewrite E.
  destruct (fold_add_key_prefix post (first_seen pre ++ [k])) as [rest Hr].
  exists rest. rewrite Hr, <- app_assoc. split_and!; [done.. |].
  assert (NoDup (fold_left add_key post (first_seen pre ++ [k]))) as Hnd.
  { rewrite <- E. apply fold_add_key_NoDup, add_key_NoDup, first_seen_NoDup. }
  rewrite Hr, <- app_assoc in Hnd. simpl in Hnd.
  apply NoDup_app in Hnd as (_ & _ & Hnd).
  by apply NoDup_cons in Hnd as [? _].
Qed.

Lemma keys_assign_all (pairs : list (string * string)) (d : dict) :
  keys (assign_all pairs d) = fold_left add_key (map fst pairs) (keys d).
Proof.
  unfold assign_all. revert d.
  induction pairs as [|[k v] pairs IH]; intros d; simpl; [done |].
  by rewrite IH, keys_dict_set.
Qed.

Lemma dict_get_assign_all (k : string) (pairs : list (string * string)) (d : dict) :
  dict_get k (assign_all pairs d)
  = match last_value k pairs with
    | Some v => Some v
    | None => dict_get k d
    end.
Proof.
  unfold assign_all. revert d.
  induction pairs as [|[k' v'] pairs IH]; intros d; simpl; [done |].
  rewrite IH. destruct (last_value k pairs); [done |].
  destruct (String.eqb_spec k' k) as [->|Hne].
  - apply dict_get_set_eq.
  - by apply dict_get_set_ne.
Qed.

Lemma last_value_None (k : string) (pairs : list (string * string)) :
  last_value k pairs = None ↔ k ∉ map fst pairs.
Proof.
  induction pairs as [|[k' v'] pairs IH]; simpl.
  - split; [intros _; apply not_elem_of_nil | done].
  - rewrite not_elem_of_cons. destruct (last_value k pairs) eqn:E.
    + split; [done |]. intros [_ H]. by apply IH in H.
    + destruct (String.eqb_spec k' k) as [->|Hne]; [naive_solver |].
      split; [| done]. intros _. split; [done | by apply IH].
Qed.

Lemma assign_all_app (p1 p2 : list (string * string)) (d : dict) :
  assign_all (p1 ++ p2) d = assign_all p2 (assign_all p1 d).
Proof. unfold assign_all. apply fold_left_app. Qed.

Lemma assign_all_NoDup (pairs : list (string * string)) (d : dict) :
  NoDup (keys d ++ map fst pairs) → assign_all pairs d = d ++ pairs.
Proof.
  unfold assign_all. revert d.
  induction pairs as [|[k v] pairs IH]; intros d Hnd; simpl.
  - by rewrite app_nil_r.
  - simpl in Hnd. rewrite dict_set_fresh.
    + rewrite IH; [by rewrite <- app_assoc |].
      unfold keys. rewrite map_app, <- app_assoc. done.
    + apply NoDup_app in Hnd as (_ & Hnd & _). intros Hin.
      apply (Hnd _ Hin). apply elem_of_cons. by left.
Qed.

Lemma enforce_assign (d : dict) : enforce d = assign_all mandatory d.
Proof. reflexivity. Qed.

(** *** Parsing *)

Lemma line_pair_Some (line : string) :
  contains "=" line = true →
  ∃ k v, split1 "=" line = [k; v] ∧ line = k +:+ String "=" v
         ∧ contains "=" k = false ∧ line_pair line = Some (strip k, strip v).
Proof.
  intros H. destruct (split1_spec _ _ H) as (k & v & Hs & Hl & Hk).
  exists k, v. unfold line_pair. by rewrite H, Hs.
Qed.

Lemma line_pair_None (line : string) :
  contains "=" line = false → line_pair line = None.
Proof. unfold line_pair. by intros ->. Qed.

(** The unpacking never fails: the loop body is an assignment or nothing. *)
Lemma parse_line_spec (line : string) (d : dict) :
  parse_line line d
  = Some (match line_pair line with
          | Some kv => dict_set kv.1 kv.2 d
          | None => d
          end).
Proof.
  unfold parse_line. destruct (contains "=" line) eqn:E.
  - destruct (line_pair_Some _ E) as (k & v & -> & _ & _ & ->). done.
  - by rewrite line_pair_None.
Qed.

Lemma parse_lines_spec (lines : list string) (d : dict) :
  parse_lines lines d = Some (assign_all (pairs_of lines) d).
Proof.
  revert d. induction lines as [|l lines IH]; intros d; [done |].
  simpl. rewrite parse_line_spec, IH. unfold pairs_of. simpl.
  by destruct (line_pair l).
Qed.

Lemma load_spec (text : string) :
  load text = Some (assign_all (pairs_of (splitlines text)) []).
Proof. apply parse_lines_spec. Qed.

(** When every line has a separator, every line gives a pair. *)
Lemma pairs_of_all (lines : list string) :
  Forall (λ l, contains "=" l = true) lines →
  Forall2 (λ l kv, line_pair l = Some kv) lines (pairs_of lines).
Proof.
  unfold pairs_of. induction 1 as [|l lines Hl _ IH]; csimpl; [constructor |].
  destruct (line_pair_Some _ Hl) as (k & v & _ & _ & _ & E).
  rewrite E. by constructor.
Qed.

(** *** Entries in the form the tool writes *)

Lemma no_sep_all_chars (s : string) :
  no_sep s = all_chars (λ x, negb (Ascii.eqb x "=")) s.
Proof. unfold no_sep. by rewrite contains_all_chars, negb_involutive. Qed.

Lemma line_pair_canonical (line : string) (kv : string * string) :
  no_linebreak line = true → line_pair line = Some kv →
  canonical_item kv = true.
Proof.
  intros Hnl. unfold line_pair.
  destruct (contains "=" line) eqn:E; [| done].
  destruct (line_pair_Some _ E) as (k & v & -> & Hl & Hk & _).
  intros [= <-]. unfold canonical_item. simpl.
  rewrite Hl in Hnl. unfold no_linebreak in *.
  rewrite all_chars_app in Hnl. simpl in Hnl.
  apply andb_prop in Hnl as [Hnk Hnv].
  rewrite !strip_trimmed, !strip_all_chars by done. simpl.
  rewrite no_sep_all_chars. apply strip_all_chars.
  rewrite <- no_sep_all_chars. unfold no_sep. by rewrite Hk.
Qed.

Lemma pairs_of_canonical (lines : list string) :
  Forall (λ l, no_linebreak l = true) lines →
  Forall (λ kv, canonical_item kv = true) (pairs_of lines).
Proof.
  unfold pairs_of. induction 1 as [|l lines Hl _ IH]; csimpl; [constructor |].
  destruct (line_pair l) eqn:E; [| done].
  constructor; [by eapply line_pair_canonical | done].
Qed.

Lemma canonical_item_parts (kv : string * string) :
  canonical_item kv = true →
  trimmed kv.1 = true ∧ trimmed kv.2 = true ∧ no_linebreak kv.1 = true
  ∧ no_linebreak kv.2 = true ∧ no_sep kv.1 = true.
Proof.
  unfold canonical_item. rewrite !andb_true_iff. tauto.
Qed.

Lemma render_item_eq (k v : string) :
  render_item (k, v) = k +:+ String "=" v.
Proof. reflexivity. Qed.

Lemma line_pair_render (kv : string * string) :
  canonical_item kv = true → line_pair (render_item kv) = Some kv.
Proof.
  intros (Hk & Hv & _ & _ & Hs)%canonical_item_parts.
  destruct kv as [k v]. simpl in *. rewrite render_item_eq.
  unfold line_pair. apply negb_true_iff in Hs.
  rewrite contains_app_sep, (split1_app _ _ _ Hs).
  by rewrite !strip_id.
Qed.

Lemma render_no_linebreak (kv : string * string) :
  canonical_item kv = true → no_linebreak (render_item kv) = true.
Proof.
  intros (_ & _ & Hk & Hv & _)%canonical_item_parts.
  destruct kv as [k v]. simpl in *. rewrite render_item_eq.
  unfold no_linebreak in *. rewrite all_chars_app. simpl.
  by rewrite Hk, Hv.
Qed.

Lemma pairs_of_render (d : dict) :
  Forall (λ kv, canonical_item kv = true) d →
  pairs_of (map render_item d) = d.
Proof.
  unfold pairs_of. induction 1 as [|kv d Hkv _ IH]; csimpl; [done |].
  by rewrite (line_pair_render _ Hkv), IH.
Qed.

Lemma dict_set_Forall (P : string * string → Prop) (k v : string) (d : dict) :
  P (k, v) → Forall P d → Forall P (dict_set k v d).
Proof.
  intros Hkv. induction 1 as [|[k' v'] d H Hd IH]; simpl.
  - by constructor.
  - destruct (String.eqb_spec k' k) as [->|]; by constructor.
Qed.

Lemma dict_set_canonical (k v : string) (d : dict) :
  canonical_item (k, v) = true → canonical d → canonical (dict_set k v d).
Proof.
  intros Hkv [Hnd Hall]. split.
  - rewrite keys_dict_set. by apply add_key_NoDup.
  - by apply dict_set_Forall.
Qed.

Lemma assign_all_canonical (pairs : list (string * string)) (d : dict) :
  Forall (λ kv, canonical_item kv = true) pairs → canonical d →
  canonical (assign_all pairs d).
Proof.
  unfold assign_all. intros H. revert d.
  induction H as [|[k v] pairs Hkv _ IH]; intros d Hd; simpl; [done |].
  by apply IH, dict_set_canonical.
Qed.

Lemma canonical_nil : canonical [].
Proof. split; [apply NoDup_nil_2 | constructor]. Qed.

Lemma mandatory_canonical :
  Forall (λ kv, canonical_item kv = true) mandatory.
Proof. repeat constructor. Qed.

Lemma enforce_canonical (d : dict) : canonical d → canonical (enforce d).
Proof. rewrite enforce_assign. apply assign_all_canonical, mandatory_canonical. Qed.

Lemma enforce_has_mandatory (d : dict) : has_mandatory (enforce d).
Proof.
  intros k v Hin. rewrite enforce_assign, dict_get_assign_all.
  unfold mandatory in Hin.
  repeat (apply elem_of_cons in Hin as [[= -> ->]|Hin]; [done |]).
  by apply elem_of_nil in Hin.
Qed.

Lemma enforce_id (d : dict) : has_mandatory d → enforce d = d.
Proof.
  intros H. unfold enforce.
  rewrite (dict_set_same "android.useAndroidX" "true").
  2:{ apply H. unfold mandatory. set_solver. }
  rewrite (dict_set_same "android.enableJetifier" "true").
  2:{ apply H. unfold mandatory. set_solver. }
  apply dict_set_same, H. unfold mandatory. set_solver.
Qed.

Lemma enforce_nonempty (d : dict) : enforce d ≠ [].
Proof.
  intros E. pose proof (enforce_has_mandatory d "android.useAndroidX" "true") as H.
  rewrite E in H. simpl in H. discriminate H. unfold mandatory. set_solver.
Qed.

(** *** Writing and reading back *)

Lemma serialize_unlines (d : dict) :
  d ≠ [] → serialize d = unlines (map render_item d).
Proof.
  intros H. unfold serialize. apply join_unlines. by destruct d.
Qed.

Lemma all_chars_unlines P (ls : list string) :
  P LF = true → Forall (λ l, all_chars P l = true) ls →
  all_chars P (unlines ls) = true.
Proof.
  intros HLF. induction 1 as [|l ls Hl _ IH]; simpl; [done |].
  rewrite all_chars_app. simpl. by rewrite Hl, HLF, IH.
Qed.

Lemma render_lines_no_linebreak (d : dict) :
  Forall (λ kv, canonical_item kv = true) d →
  Forall (λ l, no_linebreak l = true) (map render_item d).
Proof.
  intros H. apply Forall_map. eapply Forall_impl; [exact H |].
  intros kv. apply render_no_linebreak.
Qed.

(** A table in the tool's own form is read back as it was written. *)
Lemma load_serialize (d : dict) :
  canonical d → d ≠ [] →
  load (universal_newlines (serialize d)) = Some d.
Proof.
  intros [Hnd Hall] Hne. rewrite serialize_unlines by done.
  pose proof (render_lines_no_linebreak _ Hall) as Hnl.
  rewrite universal_newlines_id.
  2:{ apply all_chars_unlines; [done |].
      eapply Forall_impl; [exact Hnl |]. apply no_linebreak_no_CR. }
  rewrite load_spec, splitlines_unlines by done.
  rewrite pairs_of_render by done.
  by rewrite assign_all_NoDup.
Qed.

(** What the enforcer computes from any text. *)
Lemma loaded_canonical (text : string) (d : dict) :
  load text = Some d → canonical d.
Proof.
  rewrite load_spec. intros [= <-].
  apply assign_all_canonical; [| apply canonical_nil].
  apply pairs_of_canonical, splitlines_no_linebreak.
Qed.

End PropsFacts.

(** ** Facts about sequencing and frames *)

Module RunFacts.
Import FS Run Os Spec.

Local Open Scope run_scope.

(** *** Sequencing *)

Lemma bind_ok {A B} (m : M A) (k : A → M B) (w w1 : world) (a : A) :
  m w = (inl a, w1) → bind m k w = k a w1.
Proof. unfold bind. by intros ->. Qed.

Lemma bind_stop {A B} (m : M A) (k : A → M B) (w w1 : world) (s : stop) :
  m w = (inr s, w1) → bind m k w = (inr s, w1).
Proof. unfold bind. by intros ->. Qed.

Lemma bind_inv {A B} (m : M A) (k : A → M B) (w w' : world) (r : B + stop) :
  bind m k w = (r, w') →
  (∃ a w1, m w = (inl a, w1) ∧ k a w1 = (r, w'))
  ∨ (∃ s, m w = (inr s, w') ∧ r = inr s).
Proof.
  unfold bind. destruct (m w) as [[a|s] w1]; [by eauto |].
  intros [= <- <-]. by eauto.
Qed.

Lemma bind_inl {A B} (m : M A) (k : A → M B) (w w' : world) (b : B) :
  bind m k w = (inl b, w') →
  ∃ a w1, m w = (inl a, w1) ∧ k a w1 = (inl b, w').
Proof.
  intros [H|(s & _ & [=])]%bind_inv. done.
Qed.

Lemma bind_assoc {A B C} (m : M A) (k : A → M B) (h : B → M C) (w : world) :
  bind (bind m k) h w = bind m (λ a, bind (k a) h) w.
Proof. unfold bind. by destruct (m w) as [[a|s] w1]. Qed.

(** A run that is known by its result. *)
Lemma run_result {A} (x : (A + stop) * world) (a : A + stop) :
  x.1 = a → x = (a, x.2).
Proof. destruct x as [r w]. cbn [fst snd]. by intros ->. Qed.

(** *** Properties of the state kept by a computation *)

Lemma preserves_bind {A B} I (m : M A) (k : A → M B) :
  preserves I m → (∀ a, preserves I (k a)) → preserves I (bind m k).
Proof.
  intros Hm Hk w r w' HI [(a & w1 & H1 & H2)|(s & H1 & _)]%bind_inv.
  - eapply Hk; [| exact H2]. by eapply Hm.
  - by eapply Hm.
Qed.

Lemma keeps_preserves {A} (P : path → Prop) (m : M A) (p : path) (o : option node) :
  keeps P m → P p → preserves (λ w, files w !! p = o) m.
Proof. intros Hk Hp w r w' HI Hrun. by rewrite (Hk _ _ _ _ Hp Hrun). Qed.

Lemma quiet_preserves {A} (m : M A) (rq : list string) :
  quiet m → preserves (λ w, requests w = rq) m.
Proof. intros Hq w r w' HI Hrun. by rewrite (Hq _ _ _ Hrun). Qed.

Lemma preserves_and {A} (I J : world → Prop) (m : M A) :
  preserves I m → preserves J m → preserves (λ w, I w ∧ J w) m.
Proof. intros HI HJ w r w' [??] Hrun. split; [by eapply HI | by eapply HJ]. Qed.

Lemma keeps_bind {A B} P (m : M A) (k : A → M B) :
  keeps P m → (∀ a, keeps P (k a)) → keeps P (bind m k).
Proof.
  intros Hm Hk w r w' p Hp [(a & w1 & H1 & H2)|(s & H1 & _)]%bind_inv.
  - rewrite (Hk _ _ _ _ _ Hp H2). by eapply Hm.
  - by eapply Hm.
Qed.

Lemma keeps_weaken {A} (P Q : path → Prop) (m : M A) :
  keeps Q m → (∀ p, P p → Q p) → keeps P m.
Proof. intros Hm HPQ w r w' p Hp. by apply Hm, HPQ. Qed.

Lemma quiet_bind {A B} (m : M A) (k : A → M B) :
  quiet m → (∀ a, quiet (k a)) → quiet (bind m k).
Proof.
  intros Hm Hk w r w' [(a & w1 & H1 & H2)|(s & H1 & _)]%bind_inv.
  - rewrite (Hk _ _ _ _ H2). by eapply Hm.
  - by eapply Hm.
Qed.

Lemma reads_keeps {A} P (m : M A) : reads m → keeps P m.
Proof. intros Hm w r w' p _ Hrun. by rewrite (Hm _ _ _ Hrun). Qed.

Lemma reads_bind {A B} (m : M A) (k : A → M B) :
  reads m → (∀ a, reads (k a)) → reads (bind m k).
Proof.
  intros Hm Hk w r w' [(a & w1 & H1 & H2)|(s & H1 & _)]%bind_inv.
  - rewrite (Hk _ _ _ _ H2). by eapply Hm.
  - by eapply Hm.
Qed.

Lemma reads_ret {A} (a : A) : reads (ret a).
Proof. by intros w r w' [= <- <-]. Qed.

Lemma reads_halt {A} (s : stop) : reads (@halt A s).
Proof. by intros w r w' [= <- <-]. Qed.

Lemma reads_gets {A} (f : world → A) : reads (gets f).
Proof. by intros w r w' [= <- <-]. Qed.

Lemma reads_print (m : message) : reads (print m).
Proof. by intros w r w' [= <- <-]. Qed.

Lemma reads_log_request (u : string) : reads (log_request u).
Proof. by intros w r w' [= <- <-]. Qed.

Lemma reads_die {A} (msg : string) : reads (@die A msg).
Proof. apply reads_bind; [apply reads_print | intros; apply reads_halt]. Qed.

Lemma reads_path_exists (p : path) : reads (path_exists p).
Proof. apply reads_gets. Qed.

Lemma quiet_ret {A} (a : A) : quiet (ret a).
Proof. by intros w r w' [= <- <-]. Qed.

Lemma quiet_halt {A} (s : stop) : quiet (@halt A s).
Proof. by intros w r w' [= <- <-]. Qed.

Lemma quiet_gets {A} (f : world → A) : quiet (gets f).
Proof. by intros w r w' [= <- <-]. Qed.

Lemma quiet_print (m : message) : quiet (print m).
Proof. by intros w r w' [= <- <-]. Qed.

Lemma quiet_set_files (t : gmap path node) : quiet (set_files t).
Proof. by intros w r w' [= <- <-]. Qed.

Lemma quiet_die {A} (msg : string) : quiet (@die A msg).
Proof. apply quiet_bind; [apply quiet_print | intros; apply quiet_halt]. Qed.

End RunFacts.

(** ** Facts about the file operations *)

Module OsFacts.
Import FS Run Os Spec RunFacts.
Local Open Scope run_scope.

(** Unfold one primitive applied to a world and split on what it looks up. *)
Ltac prim :=
  unfold mkdir, write_text, write_file, read_text, copy, urlretrieve, rename,
    rmtree_ignore_errors, unlink, chmod, mkdir_p, path_exists, die, info, ok,
    raise, bind, gets, set_files, print, log_request, ret, halt;
  simpl;
  repeat match goal with
         | |- context [match ?t !! ?p with _ => _ end] => destruct (t !! p) as [[]|] eqn:?; simpl
         | |- context [match fetch ?e ?u with _ => _ end] => destruct (fetch e u) eqn:?; simpl
         | |- context [match broken ?e ?u with _ => _ end] =>
             destruct (broken e u) as [[]|] eqn:?; simpl
         | |- context [match ?x with inl _ => _ | inr _ => _ end] => destruct x eqn:?; simpl
         | |- context [if ?b then _ else _] => destruct b eqn:?; simpl
         | |- context [let (_, _) := ?x in _] => destruct x as [[]] eqn:?; simpl
         end.

Ltac frame_solve :=
  intros; simplify_eq/=;
  first [ done
        | by rewrite lookup_insert_ne
        | by rewrite lookup_delete_ne
        | idtac ].

Lemma keeps_ret {A} P (a : A) : keeps P (ret a).
Proof. apply reads_keeps, reads_ret. Qed.

Lemma keeps_print P (m : message) : keeps P (print m).
Proof. apply reads_keeps, reads_print. Qed.

Lemma keeps_die {A} P (msg : string) : keeps P (@die A msg).
Proof. apply reads_keeps, reads_die. Qed.

Lemma keeps_path_exists P (p : path) : keeps P (path_exists p).
Proof. apply reads_keeps, reads_path_exists. Qed.

Lemma keeps_mkdir (e : env) (q : path) : keeps (λ p, p ≠ q) (mkdir e q).
Proof. intros w r w' p Hp. revert r w'. prim; frame_solve. Qed.

Lemma keeps_write_file (e : env) (q : path) (data : string) :
  keeps (λ p, p ≠ q) (write_file e q data).
Proof. intros w r w' p Hp. revert r w'. prim; frame_solve. Qed.

Lemma reads_read_text (q : path) : reads (read_text q).
Proof. intros w r w'. revert r w'. prim; frame_solve. Qed.

Lemma keeps_unlink (q : path) : keeps (λ p, p ≠ q) (unlink q).
Proof. intros w r w' p Hp. revert r w'. prim; frame_solve. Qed.

Lemma keeps_chmod (q : path) (m : Z) : keeps (λ p, p ≠ q) (chmod q m).
Proof. intros w r w' p Hp. revert r w'. prim; frame_solve. Qed.

Lemma lookup_remove_tree (q p : path) (t : gmap path node) :
  remove_tree q t !! p = if decide (q `prefix_of` p) then None else t !! p.
Proof.
  unfold remove_tree. case_decide as Hq.
  - apply map_lookup_filter_None. right. intros n _. simpl. tauto.
  - destruct (t !! p) as [n|] eqn:E.
    + by apply map_lookup_filter_Some.
    + apply map_lookup_filter_None. by left.
Qed.

Lemma lookup_remove_below (q p : path) (t : gmap path node) :
  remove_below q t !! p = if decide (inside q p) then None else t !! p.
Proof.
  unfold remove_below. case_decide as Hq.
  - apply map_lookup_filter_None. right. intros n _. simpl. tauto.
  - destruct (t !! p) as [n|] eqn:E.
    + by apply map_lookup_filter_Some.
    + apply map_lookup_filter_None. by left.
Qed.

Lemma lookup_graft_ne (q p : path) (sub : list (path * node)) (t : gmap path node) :
  ¬ q `prefix_of` p → graft q sub t !! p = t !! p.
Proof.
  intros Hp. induction sub as [|[r n] sub IH]; [done |]. simpl.
  rewrite lookup_insert_ne; [done |]. intros <-. apply Hp. by apply prefix_app_r.
Qed.

(** *** Moving an entry *)

(** A move changes nothing but the source, the target and what lies in
    them. *)
Lemma move_other (s dst p : path) (t t' : gmap path node) :
  move s dst t = inl t' → ¬ s `prefix_of` p → ¬ dst `prefix_of` p →
  t' !! p = t !! p.
Proof.
  intros H Hs Hd. unfold move in H.
  assert (p ≠ s) as Hps by (by intros ->).
  assert (p ≠ dst) as Hpd by (by intros ->).
  destruct (t !! s) as [n|]; [| done].
  repeat case_bool_decide; try done; [by simplify_eq |].
  destruct n as [data m|m], (t !! dst) as [[d' m'|m']|]; try done;
    try (simplify_eq; by rewrite lookup_insert_ne, lookup_delete_ne by done);
    destruct (is_empty_dir dst t); try done; simplify_eq;
    rewrite lookup_insert_ne, lookup_graft_ne, lookup_remove_tree by done;
    by case_decide.
Qed.

Lemma move_in_other (e : env) (a dst p : path) (t t' : gmap path node) :
  move_in e a dst t = inl t' → ¬ dst `prefix_of` p → t' !! p = t !! p.
Proof.
  intros H Hd. unfold move_in in H.
  assert (p ≠ dst) as Hpd by (by intros ->).
  destruct (outside e !! a) as [[data m|m]|], (t !! dst) as [[d' m'|m']|]; try done;
    try (simplify_eq; by rewrite lookup_insert_ne by done);
    destruct (is_empty_dir dst t); try done; simplify_eq;
    by rewrite lookup_insert_ne, lookup_graft_ne by done.
Qed.

(** The walk ends at an entry of the name it was asked for. *)
Lemma resolve_last (e : env) (t : gmap path node) (comps : list string)
    (cur a : path) (c : string) :
  resolve e t cur comps = inl a → last comps = Some c → c ≠ ".."%string →
  last a = Some c.
Proof.
  revert cur. induction comps as [|c1 comps IH]; intros cur H Hl Hc; [done |].
  destruct comps as [|c2 comps].
  - simpl in *. simplify_eq. unfold step.
    destruct (String.eqb_spec c ".."); [done |]. by rewrite last_snoc.
  - change (resolve e t cur (c1 :: c2 :: comps))
      with (if is_dir_at e t (step cur c1) then resolve e t (step cur c1) (c2 :: comps)
            else match entry_at e t (step cur c1) with
                 | Some _ => inr NotADirectoryError
                 | None => inr FileNotFoundError
                 end) in H.
    destruct (is_dir_at e t (step cur c1)).
    + by eapply IH.
    + by destruct (entry_at e t (step cur c1)).
Qed.

Lemma locate_Inside (e : env) (a s : path) :
  locate e a = Inside s → a = cwd e ++ s ∧ s ≠ [].
Proof.
  unfold locate. repeat case_bool_decide; try done. intros [= <-].
  destruct H0 as [r ->]. rewrite drop_app_length. split; [done |].
  intros ->. apply H. by rewrite app_nil_r.
Qed.







(** A rename changes nothing but the target, what lies in it, and the
    entries below a name that is the last one of the source. *)
Lemma keeps_rename (e : env) (start : path) (comps : list string) (dst : path)
    (c : string) :
  last comps = Some c → c ≠ ".."%string →
  keeps (λ p, ¬ dst `prefix_of` p ∧ c ∉ p) (rename e start comps dst).
Proof.
  intros Hl Hc w r w' p [Hd Hp]. unfold rename, bind, gets, raise, halt, set_files.
  simpl. destruct (resolve e (files w) start comps) as [a|x] eqn:Ha;
    [| by intros [= <- <-]].
  destruct (dir_at (files w) (parent dst)); [| by intros [= <- <-]].
  pose proof (resolve_last _ _ _ _ _ _ Ha Hl Hc) as Hla.
  destruct (locate e a) as [|s|] eqn:Hloc.
  - by intros [= <- <-].
  - destruct (move s dst (files w)) as [t'|x] eqn:Hm; intros [= <- <-]; [| done].
    simpl. eapply move_other; [done | | done].
    apply locate_Inside in Hloc as [-> Hs]. intros [q ->]. apply Hp.
    rewrite last_app in Hla. destruct (last s) as [c'|] eqn:Hls.
    + simplify_eq. apply last_Some in Hls as [s' ->]. set_solver.
    + by apply last_None in Hls.
  - destruct (move_in e a dst (files w)) as [t'|x] eqn:Hm; intros [= <- <-]; [| done].
    simpl. by eapply move_in_other.
Qed.







(** Removing a tree changes nothing outside it; with [..] for last
    component, nothing outside the directory two levels up. *)
Lemma keeps_rmtree (q : path) :
  keeps (λ p, ¬ q `prefix_of` p
              ∧ (last q = Some ".."%string → ¬ inside (parent (removelast q)) p))
    (rmtree_ignore_errors q).
Proof.
  intros w r w' p [Hp Hi]. unfold rmtree_ignore_errors, bind, gets, set_files, ret.
  simpl. case_bool_decide as Hq.
  - destruct (dir_at (files w) (removelast q)); intros [= <- <-]; [| done].
    simpl. rewrite lookup_remove_below. case_decide; [by destruct (Hi Hq) | done].
  - destruct (is_dir (files w !! q)); intros [= <- <-]; [| done].
    simpl. rewrite lookup_remove_tree. by case_decide.
Qed.

Lemma keeps_urlretrieve (e : env) (url : string) (q : path) :
  keeps (λ p, p ≠ q) (urlretrieve e url q).
Proof.
  unfold urlretrieve. apply keeps_bind.
  - apply reads_keeps, reads_log_request.
  - intros _. destruct (fetch e url).
    + apply keeps_write_file.
    + destruct (broken e url) as [[got x]|].
      * apply keeps_bind; [apply keeps_write_file |].
        intros _. apply reads_keeps, reads_halt.
      * apply reads_keeps, reads_halt.
Qed.

Lemma keeps_alter (f : node → node) (q : path) :
  keeps (λ p, p ≠ q) (t <- gets files ;; set_files (alter f q t)).
Proof.
  intros w r w' p Hp [= <- <-]. simpl. by rewrite lookup_alter_ne.
Qed.

Lemma keeps_copy (e : env) (src dst : path) :
  keeps (λ p, ¬ dst `prefix_of` p) (copy e src dst).
Proof.
  unfold copy. apply keeps_bind; [apply reads_keeps, reads_gets |].
  intros t. destruct (t !! src) as [[data m|m]|];
    [| apply reads_keeps, reads_halt..].
  set (dst' := if is_dir (t !! dst) then _ else _).
  assert (∀ p, ¬ dst `prefix_of` p → p ≠ dst') as Hne.
  { intros p Hp ->. apply Hp. unfold dst'.
    destruct (is_dir (t !! dst)); [by apply prefix_app_r | done]. }
  apply keeps_bind.
  - eapply keeps_weaken; [apply keeps_write_file | done].
  - intros _. eapply keeps_weaken; [apply keeps_alter | done].
Qed.

(** *** Making directories *)

Lemma makedirs_from_other (e : env) (comps : list string) (base p : path)
    (t : gmap path node) :
  (∀ q, q ≠ [] → q `prefix_of` comps → p ≠ base ++ q) →
  (makedirs_from e base comps t).2 !! p = t !! p.
Proof.
  revert base t. induction comps as [|c comps IH]; intros base t Hp; [done |].
  assert (p ≠ base ++ [c]) as Hc.
  { apply Hp; [done |]. by apply (prefix_cons c [] comps), prefix_nil. }
  assert (∀ q, q ≠ [] → q `prefix_of` comps → p ≠ (base ++ [c]) ++ q) as Hrest.
  { intros q _ Hq. rewrite <- app_assoc. apply Hp; [done |]. by apply prefix_cons. }
  simpl. destruct (t !! (base ++ [c])) as [[d m|m]|] eqn:E.
  - done.
  - by apply IH.
  - rewrite IH by done. by rewrite lookup_insert_ne.
Qed.


Lemma keeps_mkdir_p (e : env) (d : path) :
  keeps (λ p, ∀ q, q ≠ [] → q `prefix_of` d → p ≠ q) (mkdir_p e d).
Proof.
  intros w r w' p Hp. unfold mkdir_p, bind, gets, set_files, raise, halt. simpl.
  pose proof (makedirs_from_other e d [] p (files w) Hp) as H.
  destruct (makedirs_from e [] d (files w)) as [[x|] t']; simpl in *;
    [destruct (files w !! d) as [[]|]; simpl |];
    intros; by simplify_eq/=.
Qed.

(** *** The network *)

Lemma quiet_mkdir e q : quiet (mkdir e q).
Proof. intros w r w'. revert r w'. prim; frame_solve. Qed.

Lemma quiet_write_file e q data : quiet (write_file e q data).
Proof. intros w r w'. revert r w'. prim; frame_solve. Qed.

Lemma quiet_read_text q : quiet (read_text q).
Proof. intros w r w'. revert r w'. prim; frame_solve. Qed.

Lemma quiet_copy e src dst : quiet (copy e src dst).
Proof.
  unfold copy. apply quiet_bind; [apply quiet_gets |].
  intros t. destruct (t !! src) as [[data m|m]|]; [| apply quiet_halt..].
  apply quiet_bind; [apply quiet_write_file |]. intros _.
  apply quiet_bind; [apply quiet_gets | intros; apply quiet_set_files].
Qed.

Lemma quiet_chmod q m : quiet (chmod q m).
Proof. intros w r w'. revert r w'. prim; frame_solve. Qed.

Lemma quiet_path_exists q : quiet (path_exists q).
Proof. apply quiet_gets. Qed.

Lemma quiet_mkdir_p e d : quiet (mkdir_p e d).
Proof.
  intros w r w'. unfold mkdir_p, bind, gets, set_files, raise, halt. simpl.
  destruct (makedirs_from e [] d (files w)) as [[x|] t']; simpl;
    [destruct (files w !! d) as [[]|]; simpl |];
    intros; by simplify_eq/=.
Qed.

End OsFacts.

(** ** Facts about the steps of the script *)

Module PrepushFacts.
Import PyStr Props FS Run Os Prepush Spec PyStrFacts PropsFacts RunFacts OsFacts.
Local Open Scope run_scope.

(** *** Step 0 *)

Lemma check_required_spec (rs : list string) (w : world) :
  check_required rs w
  = match first_missing (files w) rs with
    | None => (inl tt, w)
    | Some r =>
        (inr (SysExit 1),
         World (files w) (stdout w ++ [missing_message r]) (requests w))
    end.
Proof.
  unfold first_missing. induction rs as [|r rs IH]; [done |].
  simpl. unfold bind at 1, path_exists, gets. simpl.
  destruct (bool_decide (is_Some (files w !! [r]))); simpl; [apply IH | done].
Qed.

Lemma first_missing_Some (t : gmap path node) (rs : list string) (r : string) :
  first_missing t rs = Some r →
  ∃ pre post, rs = pre ++ r :: post ∧ t !! [r] = None
              ∧ Forall (λ r', is_Some (t !! [r'])) pre.
Proof.
  unfold first_missing. induction rs as [|r0 rs IH]; [done |]. simpl.
  case_bool_decide as Hr0; simpl.
  - intros (pre & post & -> & Hr & Hpre)%IH.
    exists (r0 :: pre), post. split_and!; [done.. |]. by constructor.
  - intros [= <-]. exists [], rs. split_and!; [done | | constructor].
    by apply eq_None_not_Some.
Qed.

Lemma first_missing_None (t : gmap path node) (rs : list string) :
  first_missing t rs = None ↔ Forall (λ r, is_Some (t !! [r])) rs.
Proof.
  unfold first_missing. induction rs as [|r0 rs IH]; simpl.
  - split; [constructor | done].
  - case_bool_decide as Hr0; simpl.
    + rewrite IH. split; [by constructor |]. by inversion 1.
    + split; [done |]. by inversion 1.
Qed.

Lemma first_missing_exists (t : gmap path node) (rs : list string) :
  (∃ r, r ∈ rs ∧ t !! [r] = None) → is_Some (first_missing t rs).
Proof.
  intros (r & Hin & Hr).
  destruct (first_missing t rs) eqn:E; [by eexists |].
  apply first_missing_None in E. rewrite Forall_forall in E.
  apply E in Hin. rewrite Hr in Hin. by destruct Hin.
Qed.

Lemma preflight_spec (w : world) :
  preflight w
  = match first_missing (files w) required with
    | None =>
        (inl tt,
         World (files w) (stdout w ++ [Ok "Project structure detected"])
           (requests w))
    | Some r =>
        (inr (SysExit 1),
         World (files w) (stdout w ++ [missing_message r]) (requests w))
    end.
Proof.
  unfold preflight, bind. rewrite check_required_spec.
  by destruct (first_missing (files w) required).
Qed.

(** The run up to the end of step 0. *)
Lemma main_preflight (unzip : string → option archive) (e : env) (w : world) :
  main unzip e w
  = match first_missing (files w) required with
    | None =>
        (backup e ;; settings e ;; build e ;; properties e ;;
         wrapper unzip e ;; launcher ;; summary)
          (World (files w)
             ((stdout w ++ [banner]) ++ [Ok "Project structure detected"])
             (requests w))
    | Some r =>
        (inr (SysExit 1),
         World (files w) ((stdout w ++ [banner]) ++ [missing_message r])
           (requests w))
    end.
Proof.
  unfold main. erewrite bind_ok by reflexivity.
  destruct (first_missing (files w) required) as [r|] eqn:E.
  - erewrite bind_stop; [done |]. rewrite preflight_spec.
    cbn [files stdout requests]. by rewrite E.
  - erewrite bind_ok; [done |]. rewrite preflight_spec.
    cbn [files stdout requests]. by rewrite E.
Qed.

(** C3. When one of [app], [settings.gradle] and [build.gradle] is missing
    from the project directory, the run stops in step 0: the exit status is
    1, the line printed last names the first missing item [r] (the items
    before [r] in the list [required] all exist), and the files and the
    network log are as they were. *)
Theorem C3_preflight_stops (unzip : string → option archive) (e : env) (w : world) :
  (∃ r, r ∈ required ∧ files w !! [r] = None) →
  ∃ r pre post,
    required = pre ++ r :: post
    ∧ Forall (λ r', is_Some (files w !! [r'])) pre
    ∧ files w !! [r] = None
    ∧ main unzip e w
      = (inr (SysExit 1),
         World (files w)
           (stdout w ++ [banner; Fatal ("Missing required project item: " +:+ r)])
           (requests w))
    ∧ exit_status (main unzip e w).1 = Some 1
    ∧ files (main unzip e w).2 = files w.
Proof.
  intros [r Hr]%first_missing_exists.
  destruct (first_missing_Some _ _ _ Hr) as (pre & post & Hreq & Hmiss & Hpre).
  exists r, pre, post.
  rewrite main_preflight, Hr. simpl. rewrite <- app_assoc. done.
Qed.

Local Open Scope run_scope.

(** *** What each step leaves alone *)

Lemma keeps_ok P (msg : string) : keeps P (ok msg).
Proof. apply keeps_print. Qed.

Lemma keeps_info P (msg : string) : keeps P (info msg).
Proof. apply keeps_print. Qed.

Lemma keeps_halt {A} P (s : stop) : keeps P (@halt A s).
Proof. apply reads_keeps, reads_halt. Qed.

Lemma keeps_settings (e : env) : keeps (λ p, p ≠ ["settings.gradle"]) (settings e).
Proof.
  apply keeps_bind; [apply keeps_write_file | intros; apply keeps_ok].
Qed.

Lemma keeps_build (e : env) : keeps (λ p, p ≠ ["build.gradle"]) (build e).
Proof.
  apply keeps_bind; [apply keeps_write_file | intros; apply keeps_ok].
Qed.

Lemma reads_read_props : reads read_props.
Proof.
  apply reads_bind; [apply reads_path_exists |]. intros [|]; [| apply reads_ret].
  apply reads_bind; [apply reads_read_text |]. intros text.
  destruct (Props.load text); [apply reads_ret | apply reads_halt].
Qed.

Lemma keeps_properties (e : env) : keeps (λ p, p ≠ gp) (properties e).
Proof.
  apply keeps_bind; [apply reads_keeps, reads_read_props |]. intros props.
  apply keeps_bind; [apply keeps_write_file | intros; apply keeps_ok].
Qed.

Lemma keeps_launcher : keeps (λ p, p ≠ gradlew) launcher.
Proof.
  apply keeps_bind; [apply keeps_path_exists |]. intros present.
  apply keeps_bind.
  { destruct (negb present); [apply keeps_die | apply keeps_ret]. }
  intros _. apply keeps_bind; [apply keeps_chmod | intros; apply keeps_ok].
Qed.

Lemma reads_summary : reads summary.
Proof.
  repeat (apply reads_bind; [apply reads_print | intros _]). apply reads_print.
Qed.

Lemma outside_not_wrapper_dir (p : path) (q : list string) :
  outside_wrapper p → p ≠ wrapper_dir ++ q.
Proof.
  intros (Hp & _ & _) ->. apply Hp. by exists ("wrapper"%string :: q).
Qed.

Lemma keeps_ensure_wrapper_props (e : env) :
  keeps outside_wrapper (ensure_wrapper_props e).
Proof.
  apply keeps_bind; [apply keeps_path_exists |]. intros present.
  destruct (negb present); [| apply keeps_ret].
  eapply keeps_weaken; [apply keeps_write_file |].
  intros p Hp. by apply (outside_not_wrapper_dir p [_]).
Qed.

Lemma reads_open_zip (unzip : string → option archive) (q : path) :
  reads (open_zip unzip q).
Proof.
  apply reads_bind; [apply reads_gets |]. intros t.
  destruct (t !! q) as [[data m|m]|]; [| apply reads_halt..].
  destruct (unzip data); [apply reads_ret | apply reads_halt].
Qed.

Lemma outside_not_below (p : path) :
  outside_wrapper p → ¬ wrapper_dir `prefix_of` p.
Proof.
  intros (Hp & _ & _) Hpre. apply Hp. etrans; [| exact Hpre].
  by exists ["wrapper"%string].
Qed.

Lemma not_below_wrapper_dir (p : path) (q : list string) :
  ¬ wrapper_dir `prefix_of` p → p ≠ wrapper_dir ++ q.
Proof. intros Hp ->. apply Hp. by exists q. Qed.

(** Extraction stays below [gradle/wrapper]. *)
Lemma keeps_extract (e : env) (z : archive) (name : string) :
  keeps (λ p, ¬ wrapper_dir `prefix_of` p) (extract e z name wrapper_dir).
Proof.
  unfold extract. destruct (member z name) as [data|]; [| apply keeps_halt].
  intros w r w' p Hp. unfold bind at 1, gets. simpl.
  pose proof (makedirs_from_other e (removelast (arcname name)) wrapper_dir p
                (files w)) as Hmk.
  destruct (makedirs_from e wrapper_dir (removelast (arcname name)) (files w))
    as [[x|] t'] eqn:E; simpl in Hmk.
  - intros [= <- <-]. simpl. apply Hmk. intros q _ _.
    by apply not_below_wrapper_dir.
  - intros Hrun. apply bind_inv in Hrun as [(a & w1 & [= <- <-] & H2)|(s & [=] & _)].
    rewrite (keeps_write_file _ _ _ _ _ _ p (not_below_wrapper_dir _ _ Hp) H2).
    simpl. apply Hmk. intros q _ _. by apply not_below_wrapper_dir.
Qed.

(** The entry that the installation moves has a name that ends in
    [gradle-wrapper.jar]. *)
Lemma jar_src_last (n : string) :
  endswith n jar_suffix = true →
  ∃ c, last (parts n) = Some c ∧ endswith c jar_suffix = true ∧ c ≠ ".."%string.
Proof.
  intros (c & Hl & Hc)%(last_split_endswith "/"); [| done].
  exists c. split_and!; [| done | by intros ->].
  apply last_filter; [done |].
  destruct (String.eqb_spec c "") as [->|_]; [done |].
  by destruct (String.eqb_spec c ".") as [->|_].
Qed.

Lemma filter_hd_true {A} (f : A → bool) (l : list A) (x : A) (rest : list A) :
  List.filter f l = x :: rest → f x = true.
Proof.
  intros H. assert (In x (List.filter f l)) as Hin by (rewrite H; by left).
  by apply filter_In in Hin as [_ ?].
Qed.

(** The one component that [jar_src.split("/")[0]] adds to a path, if
    any. *)
Lemma parts_hd (n : string) :
  let c0 := hd ""%string (split "/" n) in
  parts c0 = [] ∨ parts c0 = [c0].
Proof.
  intros c0. unfold parts. rewrite (split_no_sep "/" c0) by apply split_hd_no_sep.
  simpl. destruct (negb _); auto.
Qed.

Lemma no_jar_name_elem (p : path) (c : string) :
  no_jar_name p → endswith c jar_suffix = true → c ∉ p.
Proof.
  intros Hp Hc Hin. unfold no_jar_name in Hp. rewrite Forall_forall in Hp.
  specialize (Hp c Hin). congruence.
Qed.

(** The installation stays in [gradle], but for the entry it moves. *)
Lemma keeps_install_jar (e : env) (z : archive) :
  keeps (λ p, ¬ inside ["gradle"%string] p ∧ no_jar_name p) (install_jar e z).
Proof.
  unfold install_jar.
  destruct (List.filter _ (namelist z)) as [|jar_src rest] eqn:E; [apply keeps_die |].
  apply filter_hd_true in E.
  destruct (jar_src_last _ E) as (c & Hl & Hc & Hdd).
  assert (∀ p, ¬ inside ["gradle"%string] p → ∀ q, ¬ (wrapper_dir ++ q) `prefix_of` p)
    as Hout.
  { intros p Hp q [r ->]. apply Hp. split; [by eexists | done]. }
  apply keeps_bind.
  { eapply keeps_weaken; [apply keeps_extract |]. intros p [Hp _].
    apply (Hout p Hp []). }
  intros _. apply keeps_bind.
  { destruct (is_absolute jar_src);
      (eapply keeps_weaken; [apply (keeps_rename _ _ _ _ c) |]);
      rewrite ?last_app, ?Hl; try done;
      intros p [Hp Hn]; (split; [apply (Hout p Hp [_]) | by eapply no_jar_name_elem]). }
  intros _. eapply keeps_weaken; [apply keeps_rmtree |]. intros p [Hp Hn].
  split; [apply (Hout p Hp) |].
  destruct (parts_hd jar_src) as [-> | ->]; [done |].
  rewrite last_snoc. intros [= ->]. exact Hp.
Qed.

Lemma keeps_ensure_wrapper_jar (unzip : string → option archive) (e : env) :
  keeps outside_wrapper (ensure_wrapper_jar unzip e).
Proof.
  apply keeps_bind; [apply keeps_path_exists |]. intros present.
  destruct (negb present); [| apply keeps_ok].
  apply keeps_bind; [apply keeps_info |]. intros _.
  apply keeps_bind.
  { eapply keeps_weaken; [apply keeps_urlretrieve |]. by intros p (_ & Hp & _). }
  intros _. apply keeps_bind; [apply reads_keeps, reads_open_zip |]. intros z.
  apply keeps_bind.
  { eapply keeps_weaken; [apply keeps_install_jar |]. intros p (Hp & _ & Hn).
    split; [| done]. intros [Hpre _]. by apply Hp. }
  intros _.
  apply keeps_bind; [| intros; apply keeps_ok].
  eapply keeps_weaken; [apply keeps_unlink |]. by intros p (_ & Hp & _).
Qed.

Lemma keeps_wrapper (unzip : string → option archive) (e : env) :
  keeps outside_wrapper (wrapper unzip e).
Proof.
  apply keeps_bind.
  { eapply keeps_weaken; [apply keeps_mkdir_p |].
    intros p (Hp & _ & _) q Hq Hpre ->. apply Hp.
    destruct q as [|c q]; [done |].
    apply prefix_cons_inv_1 in Hpre as ->. by exists q. }
  intros _. apply keeps_bind; [apply keeps_ensure_wrapper_props |].
  intros _. apply keeps_ensure_wrapper_jar.
Qed.



Local Open Scope run_scope.

(** *** Step 1 *)







Lemma backup_skip (e : env) (w : world) :
  is_Some (files w !! BACKUP_DIR) →
  backup e w
  = (inl tt,
     World (files w) (stdout w ++ [Info "Backup already exists - skipping"])
       (requests w)).
Proof.
  intros H. unfold backup, bind, path_exists, gets. simpl.
  by rewrite bool_decide_eq_true_2.
Qed.


Local Open Scope run_scope.

(** *** The time stamp *)







Example strftime_sample :
  strftime (DateTime 2026 11 3 9 5 7) = "20261103_090507"%string.
Proof. reflexivity. Qed.

(** *** Steps 2 to 7 and the backup directory *)


Lemma keeps_after_backup (unzip : string → option archive) (e : env) :
  keeps (λ p, BACKUP_DIR `prefix_of` p ∧ no_jar_name p)
    (settings e ;; build e ;; properties e ;; wrapper unzip e ;; launcher ;; summary).
Proof.
  assert (∀ p x, BACKUP_DIR `prefix_of` p → p ≠ [x] ∨ x = ".prepush_backup"%string) as Hx.
  { intros p x [q ->]. destruct q; [| by left].
    destruct (decide (x = ".prepush_backup"%string)) as [|Hne]; [by right |].
    left. intros [= Heq]. by apply Hne. }
  apply keeps_bind.
  { eapply keeps_weaken; [apply keeps_settings |]. intros p [Hp _].
    by destruct (Hx p "settings.gradle"%string Hp). }
  intros _. apply keeps_bind.
  { eapply keeps_weaken; [apply keeps_build |]. intros p [Hp _].
    by destruct (Hx p "build.gradle"%string Hp). }
  intros _. apply keeps_bind.
  { eapply keeps_weaken; [apply keeps_properties |]. intros p [Hp _].
    by destruct (Hx p "gradle.properties"%string Hp). }
  intros _. apply keeps_bind.
  { eapply keeps_weaken; [apply keeps_wrapper |]. intros p [Hp Hn]. split_and!.
    - intros Hg. destruct Hp as [q ->]. by apply prefix_cons_inv_1 in Hg.
    - by destruct (Hx p "gradle-8.2.1.zip"%string Hp).
    - done. }
  intros _. apply keeps_bind.
  { eapply keeps_weaken; [apply keeps_launcher |]. intros p [Hp _].
    by destruct (Hx p "gradlew"%string Hp). }
  intros _. apply reads_keeps, reads_summary.
Qed.



Local Open Scope run_scope.

(** *** Step 4 *)


Lemma keys_table_of (text : string) :
  keys (table_of text)
  = first_seen (map fst (pairs_of (splitlines text)) ++ map fst mandatory).
Proof.
  unfold table_of. rewrite enforce_assign, <- assign_all_app, keys_assign_all.
  by rewrite map_app.
Qed.

Lemma dict_get_table_of (text k : string) :
  dict_get k (table_of text)
  = match last_value k mandatory with
    | Some v => Some v
    | None => last_value k (pairs_of (splitlines text))
    end.
Proof.
  unfold table_of. rewrite enforce_assign, !dict_get_assign_all. simpl.
  by destruct (last_value k mandatory), (last_value k _).
Qed.

Lemma table_of_canonical (text : string) : canonical (table_of text).
Proof.
  apply enforce_canonical, (loaded_canonical text). apply load_spec.
Qed.


Lemma table_of_unlines (text : string) :
  serialize (table_of text) = unlines (map render_item (table_of text)).
Proof. apply serialize_unlines, enforce_nonempty. Qed.

Lemma properties_file (e : env) (w : world) (data : string) (m : Z) :
  files w !! gp = Some (File data m) →
  properties e w
  = (inl tt,
     World (<[gp := File (serialize (table_of (universal_newlines data))) m]> (files w))
       (stdout w ++ [enforced_message]) (requests w)).
Proof.
  intros Hgp. unfold properties.
  erewrite bind_ok.
  2:{ unfold read_props. erewrite bind_ok.
      2:{ unfold path_exists, gets. by rewrite Hgp, bool_decide_eq_true_2. }
      cbn iota. erewrite bind_ok.
      2:{ unfold read_text, bind, gets. simpl. by rewrite Hgp. }
      by rewrite load_spec. }
  erewrite bind_ok.
  2:{ unfold write_text, write_file, bind, gets, set_files. simpl. by rewrite Hgp. }
  done.
Qed.

Lemma properties_absent (e : env) (w : world) :
  files w !! gp = None →
  properties e w
  = (inl tt,
     World (<[gp := File (serialize (enforce [])) (file_mode e)]> (files w))
       (stdout w ++ [enforced_message]) (requests w)).
Proof.
  intros Hgp. unfold properties.
  erewrite bind_ok.
  2:{ unfold read_props. erewrite bind_ok.
      2:{ unfold path_exists, gets. rewrite Hgp, bool_decide_eq_false_2; [done |].
          by intros [? ?]. }
      done. }
  erewrite bind_ok.
  2:{ unfold write_text, write_file, bind, gets, set_files. simpl. by rewrite Hgp. }
  done.
Qed.

Local Open Scope run_scope.

Lemma last_value_last (k v : string) (l1 l2 : list (string * string)) :
  k ∉ map fst l2 → last_value k (l1 ++ (k, v) :: l2) = Some v.
Proof.
  intros Hk%last_value_None. induction l1 as [|[k' v'] l1 IH]; simpl.
  - by rewrite Hk, String.eqb_refl.
  - by rewrite IH.
Qed.

Lemma not_mandatory (k : string) :
  k ∉ map fst mandatory → last_value k mandatory = None.
Proof. apply last_value_None. Qed.






(** C8. On a line with a separator, the key is what stands before the first
    separator and the value what stands after it, each without the white
    space at its two ends: the line is [a1 k a2 = b1 v b2] with [a1], [a2],
    [b1], [b2] white space, [k] and [v] starting and ending with none, no
    separator before the one shown, and the loop body assigns [props[k] = v];
    the entry is written as [k=v]. The line [ foo = bar ] is stored as
    [foo], [bar] and written as [foo=bar], which differs from the line
    read. *)
Theorem C8_parser_strips (line : string) (props : dict) :
  contains "=" line = true →
  (∃ k v a1 a2 b1 b2,
      line = (a1 +:+ k +:+ a2) +:+ "=" +:+ (b1 +:+ v +:+ b2)
      ∧ contains "=" (a1 +:+ k +:+ a2) = false
      ∧ blank a1 = true ∧ blank a2 = true ∧ blank b1 = true ∧ blank b2 = true
      ∧ trimmed k = true ∧ trimmed v = true
      ∧ parse_line line props = Some (dict_set k v props)
      ∧ render_item (k, v) = k +:+ "=" +:+ v)
  ∧ parse_line " foo = bar " [] = Some [("foo", "bar")]%string
  ∧ serialize (table_of " foo = bar ")
    = unlines ["foo=bar"; "android.useAndroidX=true";
               "android.enableJetifier=true"; "org.gradle.jvmargs=-Xmx2048m"]%string
  ∧ render_item ("foo", "bar")%string ≠ " foo = bar "%string.
Proof.
  intros Hsep. split; [| by split_and!].
  destruct (line_pair_Some _ Hsep) as (k0 & v0 & _ & Hline & Hk0 & Hpair).
  destruct (strip_split k0) as (a1 & a2 & Hk & Ha1 & Ha2).
  destruct (strip_split v0) as (b1 & b2 & Hv & Hb1 & Hb2).
  exists (strip k0), (strip v0), a1, a2, b1, b2.
  rewrite <- Hk, <- Hv. split_and!; try done.
  - apply strip_trimmed.
  - apply strip_trimmed.
  - by rewrite parse_line_spec, Hpair.
Qed.

(** C9 as stated fails for a mandatory key: written twice, with "no" on its
    last line, it comes out bound to "true". *)
Lemma C9_counterexample :
  let data := unlines ["android.useAndroidX=false"; "android.useAndroidX=no"]%string in
  let pairs := pairs_of (splitlines (universal_newlines data)) in
  let w := World {[gp := File data 420]} [] [] in
  pairs = [("android.useAndroidX", "false"); ("android.useAndroidX", "no")]%string
  ∧ last_value "android.useAndroidX" pairs = Some "no"%string
  ∧ (∀ e, files (properties e w).2 !! gp
          = Some (File (unlines ["android.useAndroidX=true";
                                 "android.enableJetifier=true";
                                 "org.gradle.jvmargs=-Xmx2048m"]%string) 420))
  ∧ dict_get "android.useAndroidX" (table_of (universal_newlines data))
    ≠ last_value "android.useAndroidX" pairs.
Proof.
  split_and!; [reflexivity | reflexivity | | by vm_compute].
  intros e. erewrite properties_file by apply lookup_singleton_eq.
  cbn [snd files]. by rewrite lookup_insert_eq.
Qed.

(** C9, amended. Let [k] be a key of the old file, first seen after the
    keys [pre] and last given the value [v]. Step 4 writes a table in which
    [k] occurs once, straight after the distinct keys of [pre]; [k] is bound
    to [v] unless it is one of the three mandatory keys, which are bound to
    their fixed values. *)
Theorem C9_duplicate_keys (e : env) (w : world) (data : string) (m : Z)
    (k v : string) (pre post : list string) (before after : list (string * string)) :
  files w !! gp = Some (File data m) →
  pairs_of (splitlines (universal_newlines data)) = before ++ (k, v) :: after →
  k ∉ map fst after →
  map fst (pairs_of (splitlines (universal_newlines data))) = pre ++ k :: post →
  k ∉ pre →
  ∃ d rest,
    properties e w
    = (inl tt,
       World (<[gp := File (unlines (map render_item d)) m]> (files w))
         (stdout w ++ [enforced_message]) (requests w))
    ∧ keys d = first_seen pre ++ (k :: rest)
    ∧ (k ∉ first_seen pre) ∧ (k ∉ rest)
    ∧ (k ∉ map fst mandatory → dict_get k d = Some v)
    ∧ (∀ v', (k, v') ∈ mandatory → dict_get k d = Some v').
Proof.
  intros Hgp Hlast Hafter Hfirst Hpre.
  set (text := universal_newlines data) in *.
  destruct (first_seen_position pre (post ++ map fst mandatory) k Hpre)
    as (rest & Hkeys & Hk1 & Hk2).
  exists (table_of text), rest. split_and!; try done.
  - rewrite (properties_file _ _ _ _ Hgp). by rewrite table_of_unlines.
  - rewrite keys_table_of, Hfirst, <- Hkeys. by rewrite <- app_assoc.
  - intros Hk. rewrite dict_get_table_of, (not_mandatory _ Hk), Hlast.
    by apply last_value_last.
  - intros v' Hin. by apply enforce_has_mandatory.
Qed.

Local Open Scope run_scope.

(** *** Steps 2 and 3 *)

Lemma write_text_file (e : env) (p : path) (s data : string) (m : Z) (w : world) :
  files w !! p = Some (File data m) →
  write_text e p s w
  = (inl tt, World (<[p := File s m]> (files w)) (stdout w) (requests w)).
Proof.
  intros Hp. unfold write_text, write_file, bind, gets, set_files. simpl.
  by rewrite Hp.
Qed.

Lemma write_text_ok (e : env) (p : path) (s : string) (w w' : world) :
  write_text e p s w = (inl tt, w') →
  ∃ m, files w' !! p = Some (File s m).
Proof.
  unfold write_text, write_file, bind, gets, set_files, raise, halt. simpl.
  destruct (files w !! p) as [[data m|m]|]; [| done |].
  - intros [= <-]. exists m. simpl. apply lookup_insert_eq.
  - destruct (dir_at (files w) (parent p)); [| done].
    intros [= <-]. eexists. simpl. apply lookup_insert_eq.
Qed.

Lemma settings_file (e : env) (w : world) (data : string) (m : Z) :
  files w !! ["settings.gradle"] = Some (File data m) →
  settings e w
  = (inl tt,
     World (<[["settings.gradle"] := File settings_text m]> (files w))
       (stdout w ++ [Ok "settings.gradle normalized"]) (requests w)).
Proof.
  intros H. unfold settings. by erewrite bind_ok by by eapply write_text_file.
Qed.

Lemma build_file (e : env) (w : world) (data : string) (m : Z) :
  files w !! ["build.gradle"] = Some (File data m) →
  build e w
  = (inl tt,
     World (<[["build.gradle"] := File build_text m]> (files w))
       (stdout w ++ [Ok "build.gradle sanitized"]) (requests w)).
Proof.
  intros H. unfold build. by erewrite bind_ok by by eapply write_text_file.
Qed.

Lemma settings_ok (e : env) (w w' : world) :
  settings e w = (inl tt, w') →
  ∃ m, files w' !! ["settings.gradle"] = Some (File settings_text m).
Proof.
  intros ([] & w1 & (m & Hm)%write_text_ok & [= <-])%bind_inl. by exists m.
Qed.

Lemma build_ok (e : env) (w w' : world) :
  build e w = (inl tt, w') →
  ∃ m, files w' !! ["build.gradle"] = Some (File build_text m).
Proof.
  intros ([] & w1 & (m & Hm)%write_text_ok & [= <-])%bind_inl. by exists m.
Qed.

(** *** Step 4 again: what it writes is a fixed point *)

Lemma properties_dir (e : env) (w : world) (m : Z) :
  files w !! gp = Some (Dir m) →
  properties e w = (inr (Raised IsADirectoryError), w).
Proof.
  intros Hgp. unfold properties. erewrite bind_stop; [done |].
  unfold read_props. erewrite bind_ok.
  2:{ unfold path_exists, gets. by rewrite Hgp, bool_decide_eq_true_2. }
  cbn iota. erewrite bind_stop; [done |].
  unfold read_text, bind, gets, raise, halt. simpl. rewrite Hgp. by destruct w.
Qed.

Lemma table_of_serialize (d : dict) :
  canonical d → has_mandatory d →
  table_of (universal_newlines (serialize d)) = d.
Proof.
  intros Hc Hm. unfold table_of.
  assert (d ≠ []) as Hne.
  { intros ->.
    by specialize (Hm "android.useAndroidX" "true"
                     ltac:(unfold mandatory; set_solver))%string. }
  pose proof (load_serialize d Hc Hne) as Hl. rewrite load_spec in Hl.
  injection Hl as ->. by apply enforce_id.
Qed.

Lemma table_of_has_mandatory (text : string) : has_mandatory (table_of text).
Proof. apply enforce_has_mandatory. Qed.


Lemma properties_ok (e : env) (w w' : world) :
  properties e w = (inl tt, w') →
  ∃ d m, files w' !! gp = Some (File (serialize d) m)
         ∧ canonical d ∧ has_mandatory d.
Proof.
  destruct (files w !! gp) as [[data m|m]|] eqn:Hgp.
  - rewrite (properties_file _ _ _ _ Hgp). intros [= <-].
    exists (table_of (universal_newlines data)), m. simpl.
    rewrite lookup_insert_eq.
    split_and!; [done | apply table_of_canonical | apply table_of_has_mandatory].
  - by rewrite (properties_dir _ _ _ Hgp).
  - rewrite (properties_absent _ _ Hgp). intros [= <-].
    exists (enforce []), (file_mode e). simpl. rewrite lookup_insert_eq.
    split_and!; [done | apply enforce_canonical, canonical_nil
                | apply enforce_has_mandatory].
Qed.

Local Open Scope run_scope.

(** *** Entries of the project directory itself *)

Lemma keeps_backup_each (e : env) (ts : string) (fs : list string) :
  keeps (λ p, (length p ≤ 1)%nat) (backup_each e ts fs).
Proof.
  induction fs as [|f fs IH]; [apply keeps_ret |]. cbn [backup_each].
  apply keeps_bind; [apply keeps_path_exists |]. intros present.
  apply keeps_bind; [| intros _; apply IH].
  destruct present; [| apply keeps_ret].
  eapply keeps_weaken; [apply keeps_copy |].
  intros p Hp Hpre%prefix_length. simpl in Hpre. lia.
Qed.

Lemma keeps_backup (e : env) :
  keeps (λ p, (length p ≤ 1)%nat ∧ p ≠ BACKUP_DIR) (backup e).
Proof.
  apply keeps_bind; [apply keeps_path_exists |]. intros present.
  destruct (negb present); [| apply keeps_info].
  apply keeps_bind.
  { eapply keeps_weaken; [apply keeps_mkdir |]. by intros p [_ Hp]. }
  intros _. apply keeps_bind; [| intros; apply keeps_ok].
  eapply keeps_weaken; [apply keeps_backup_each |]. by intros p [Hp _].
Qed.

Lemma backup_ok (e : env) (w w' : world) :
  backup e w = (inl tt, w') → is_Some (files w' !! BACKUP_DIR).
Proof.
  destruct (files w !! BACKUP_DIR) as [n|] eqn:Hb.
  - rewrite backup_skip by by eexists. intros [= <-]. simpl. by eexists.
  - unfold backup. unfold bind at 1, path_exists, gets. cbn [fst snd].
    rewrite Hb, bool_decide_eq_false_2 by (by intros [? ?]). cbn [negb].
    intros ([] & w1 & Hmk & ([] & w2 & Hcp & [= <-])%bind_inl)%bind_inl.
    simpl. rewrite (keeps_backup_each _ _ _ _ _ _ BACKUP_DIR ltac:(simpl; lia) Hcp).
    revert Hmk. unfold mkdir, bind, gets, set_files, raise, halt. simpl.
    rewrite Hb. simpl. intros [= <-]. simpl. rewrite lookup_insert_eq. by eexists.
Qed.

Lemma keeps_tail (unzip : string → option archive) (e : env) :
  keeps (λ p, ∃ x, p = [x] ∧ beside_wrapper x)
    (wrapper unzip e ;; launcher ;; summary).
Proof.
  apply keeps_bind.
  { eapply keeps_weaken; [apply keeps_wrapper |].
    intros p (x & -> & Hg & Hz & _ & Hj). split_and!.
    - intros Hpre. by apply prefix_cons_inv_1 in Hpre.
    - intros [= ->]. done.
    - by repeat constructor. }
  intros _. apply keeps_bind; [| intros; apply reads_keeps, reads_summary].
  eapply keeps_weaken; [apply keeps_launcher |].
  intros p (x & -> & _ & _ & Hw & _) [= ->]. done.
Qed.

Lemma settings_other (e : env) (w w' : world) (r : unit + stop) (x : string) :
  settings e w = (r, w') → x ≠ "settings.gradle"%string →
  files w' !! [x] = files w !! [x].
Proof. intros Hrun Hx. eapply keeps_settings; [| exact Hrun]. by intros [= ->]. Qed.

Lemma build_other (e : env) (w w' : world) (r : unit + stop) (x : string) :
  build e w = (r, w') → x ≠ "build.gradle"%string →
  files w' !! [x] = files w !! [x].
Proof. intros Hrun Hx. eapply keeps_build; [| exact Hrun]. by intros [= ->]. Qed.

Lemma properties_other (e : env) (w w' : world) (r : unit + stop) (x : string) :
  properties e w = (r, w') → x ≠ "gradle.properties"%string →
  files w' !! [x] = files w !! [x].
Proof. intros Hrun Hx. eapply keeps_properties; [| exact Hrun]. by intros [= ->]. Qed.

Lemma backup_other (e : env) (w w' : world) (r : unit + stop) (x : string) :
  backup e w = (r, w') → x ≠ ".prepush_backup"%string →
  files w' !! [x] = files w !! [x].
Proof.
  intros Hrun Hx. eapply keeps_backup; [| exact Hrun].
  split; [simpl; lia | by intros [= ->]].
Qed.

(** A successful run leaves a normalized project. *)
Lemma main_ok_normalized (unzip : string → option archive) (e : env) (w w1 : world) :
  main unzip e w = (inl tt, w1) →
  is_Some (files w1 !! ["app"%string])
  ∧ is_Some (files w1 !! BACKUP_DIR)
  ∧ (∃ m, files w1 !! ["settings.gradle"%string] = Some (File settings_text m))
  ∧ (∃ m, files w1 !! ["build.gradle"%string] = Some (File build_text m))
  ∧ (∃ d m, files w1 !! gp = Some (File (serialize d) m)
            ∧ canonical d ∧ has_mandatory d).
Proof.
  rewrite main_preflight.
  destruct (first_missing (files w) required) eqn:Hpre; [done |].
  apply first_missing_None in Hpre.
  assert (is_Some (files w !! ["app"%string])) as Happ.
  { rewrite Forall_forall in Hpre. apply Hpre. unfold required. set_solver. }
  set (w0 := World _ _ _).
  intros ([] & wb & Hb & ([] & ws & Hs & ([] & wu & Hu &
          ([] & wp & Hp & Ht)%bind_inl)%bind_inl)%bind_inl)%bind_inl.
  assert (∀ x, beside_wrapper x → files w1 !! [x] = files wp !! [x]) as Htail.
  { intros x Hx. eapply keeps_tail; [| exact Ht]. by exists x. }
  split_and!.
  - rewrite Htail by done.
    rewrite (properties_other _ _ _ _ _ Hp) by done.
    rewrite (build_other _ _ _ _ _ Hu) by done.
    rewrite (settings_other _ _ _ _ _ Hs) by done.
    by rewrite (backup_other _ _ _ _ _ Hb) by done.
  - change BACKUP_DIR with [".prepush_backup"%string]. rewrite Htail by done.
    rewrite (properties_other _ _ _ _ _ Hp) by done.
    rewrite (build_other _ _ _ _ _ Hu) by done.
    rewrite (settings_other _ _ _ _ _ Hs) by done.
    by apply backup_ok in Hb.
  - apply settings_ok in Hs as [m Hm]. exists m.
    rewrite Htail by done.
    rewrite (properties_other _ _ _ _ _ Hp) by done.
    by rewrite (build_other _ _ _ _ _ Hu) by done.
  - apply build_ok in Hu as [m Hm]. exists m.
    rewrite Htail by done.
    by rewrite (properties_other _ _ _ _ _ Hp) by done.
  - apply properties_ok in Hp as (d & m & Hm & Hc & Hd). exists d, m.
    change gp with ["gradle.properties"%string]. by rewrite Htail.
Qed.

(** A run on a project that has its three configuration files and its
    backup directory. *)
Lemma rerun_spec (unzip : string → option archive) (e : env) (w : world)
    (ds db dg : string) (ms mb mg : Z) :
  is_Some (files w !! ["app"%string]) →
  is_Some (files w !! BACKUP_DIR) →
  files w !! ["settings.gradle"%string] = Some (File ds ms) →
  files w !! ["build.gradle"%string] = Some (File db mb) →
  files w !! gp = Some (File dg mg) →
  let w' := (main unzip e w).2 in
  files w' !! ["settings.gradle"%string] = Some (File settings_text ms)
  ∧ files w' !! ["build.gradle"%string] = Some (File build_text mb)
  ∧ files w' !! gp
    = Some (File (serialize (table_of (universal_newlines dg))) mg).
Proof.
  intros Happ Hbk Hs Hb Hg w'. subst w'. rewrite main_preflight.
  assert (first_missing (files w) required = None) as ->.
  { apply first_missing_None. unfold required.
    repeat (apply Forall_cons; split; [by eauto |]). constructor. }
  erewrite bind_ok by by apply backup_skip.
  erewrite bind_ok by by eapply settings_file.
  erewrite bind_ok.
  2:{ eapply build_file. simpl. by rewrite lookup_insert_ne. }
  erewrite bind_ok.
  2:{ eapply properties_file. simpl. by rewrite !lookup_insert_ne. }
  set (wp := World _ _ _).
  destruct ((wrapper unzip e ;; launcher ;; summary) wp) as [r w'] eqn:Ht.
  assert (∀ x, beside_wrapper x → files w' !! [x] = files wp !! [x]) as Htail.
  { intros x Hx. eapply keeps_tail; [| exact Ht]. by exists x. }
  cbn [snd]. change gp with ["gradle.properties"%string].
  rewrite !Htail by done. subst wp. cbn [files].
  split_and!.
  - rewrite !lookup_insert_ne by done. by rewrite lookup_insert_eq.
  - rewrite lookup_insert_ne by done. by rewrite lookup_insert_eq.
  - by rewrite lookup_insert_eq.
Qed.

Local Open Scope run_scope.

(** *** A line added by hand *)

Lemma map_insert_at {A B} (f : A → B) (i : nat) (x : A) (l : list A) :
  map f (insert_at i x l) = insert_at i (f x) (map f l).
Proof.
  unfold insert_at. rewrite map_app. simpl.
  by rewrite firstn_map, skipn_map.
Qed.

Lemma insert_at_Permutation {A} (i : nat) (x : A) (l : list A) :
  insert_at i x l ≡ₚ x :: l.
Proof.
  unfold insert_at. rewrite <- Permutation_middle. by rewrite take_drop.
Qed.

Lemma dict_get_app (k : string) (d1 d2 : dict) :
  dict_get k (d1 ++ d2)
  = match dict_get k d1 with
    | Some v => Some v
    | None => dict_get k d2
    end.
Proof.
  induction d1 as [|[k' v'] d1 IH]; simpl; [done |].
  by destruct (String.eqb k' k).
Qed.

Lemma dict_get_insert_at (k : string) (i : nat) (kv : string * string) (d : dict) :
  kv.1 ≠ k → dict_get k (insert_at i kv d) = dict_get k d.
Proof.
  intros Hne. unfold insert_at. rewrite dict_get_app. destruct kv as [k' v']. simpl.
  destruct (String.eqb_spec k' k); [done |].
  by rewrite <- dict_get_app, take_drop.
Qed.

Lemma insert_at_canonical (i : nat) (kv : string * string) (d : dict) :
  canonical_item kv = true → kv.1 ∉ keys d → canonical d →
  canonical (insert_at i kv d).
Proof.
  intros Hkv Hk [Hnd Hall]. split.
  - unfold keys in *. rewrite map_insert_at, insert_at_Permutation.
    by apply NoDup_cons.
  - rewrite insert_at_Permutation. by constructor.
Qed.

Lemma insert_at_has_mandatory (i : nat) (kv : string * string) (d : dict) :
  kv.1 ∉ keys d → has_mandatory d → has_mandatory (insert_at i kv d).
Proof.
  intros Hk Hm k v Hin. rewrite dict_get_insert_at; [by apply Hm |].
  intros <-. apply Hk. eapply dict_get_Some_key. by apply Hm.
Qed.

(** C2. After a run that ends with status 0, settings.gradle and
    build.gradle hold their templates and gradle.properties holds the lines
    of a table [d]; a second run, whatever its environment and however it
    ends, leaves the three files as they are. If gradle.properties is
    edited between the runs, the second run still leaves the other two as
    they are and rewrites gradle.properties from the edited text: every
    key of that text that is not mandatory keeps its last value, and when
    the edit is one more line [k=v] in the tool's own form with a new key,
    put in at any place, the file stays as edited. *)
Theorem C2_rerun_idempotent (unzip : string → option archive) (e1 e2 : env)
    (w w1 : world) :
  main unzip e1 w = (inl tt, w1) →
  let w2 := (main unzip e2 w1).2 in
  ∃ ms mb mg d,
    files w1 !! ["settings.gradle"%string] = Some (File settings_text ms)
    ∧ files w1 !! ["build.gradle"%string] = Some (File build_text mb)
    ∧ files w1 !! gp = Some (File (unlines (map render_item d)) mg)
    ∧ files w2 !! ["settings.gradle"%string] = files w1 !! ["settings.gradle"%string]
    ∧ files w2 !! ["build.gradle"%string] = files w1 !! ["build.gradle"%string]
    ∧ files w2 !! gp = files w1 !! gp
    ∧ ∀ data',
        let w1' := World (<[gp := File data' mg]> (files w1)) (stdout w1) (requests w1) in
        let w2' := (main unzip e2 w1').2 in
        let text' := universal_newlines data' in
        files w2' !! ["settings.gradle"%string] = files w1 !! ["settings.gradle"%string]
        ∧ files w2' !! ["build.gradle"%string] = files w1 !! ["build.gradle"%string]
        ∧ files w2' !! gp
          = Some (File (unlines (map render_item (table_of text'))) mg)
        ∧ (∀ k v, k ∉ map fst mandatory →
                  last_value k (pairs_of (splitlines text')) = Some v →
                  dict_get k (table_of text') = Some v)
        ∧ (∀ i kv, canonical_item kv = true → kv.1 ∉ keys d →
                   data' = unlines (insert_at i (render_item kv) (map render_item d)) →
                   files w2' !! gp = Some (File data' mg)).
Proof.
  intros Hrun w2.
  destruct (main_ok_normalized _ _ _ _ Hrun)
    as (Happ & Hbk & [ms Hs] & [mb Hb] & (d & mg & Hg & Hc & Hm)).
  assert (d ≠ []) as Hne.
  { intros ->.
    by specialize (Hm "android.useAndroidX" "true"
                     ltac:(unfold mandatory; set_solver))%string. }
  exists ms, mb, mg, d.
  destruct (rerun_spec unzip e2 w1 _ _ _ _ _ _ Happ Hbk Hs Hb Hg) as (Hs2 & Hb2 & Hg2).
  rewrite <- serialize_unlines by done.
  split_and!; [done | done | done | by rewrite Hs | by rewrite Hb | |].
  { subst w2. rewrite Hg2, Hg. by rewrite table_of_serialize. }
  intros data' w1' w2' text'.
  destruct (rerun_spec unzip e2 w1' settings_text build_text data' ms mb mg)
    as (Hs3 & Hb3 & Hg3).
  { subst w1'. simpl. by rewrite lookup_insert_ne. }
  { subst w1'. simpl. by rewrite lookup_insert_ne. }
  { subst w1'. simpl. by rewrite lookup_insert_ne. }
  { subst w1'. simpl. by rewrite lookup_insert_ne. }
  { subst w1'. simpl. by rewrite lookup_insert_eq. }
  split_and!.
  - by rewrite Hs.
  - by rewrite Hb.
  - subst w2' text'. by rewrite Hg3, table_of_unlines.
  - intros k v Hk Hv. by rewrite dict_get_table_of, (not_mandatory _ Hk).
  - intros i kv Hkv Hfresh ->. subst w2'. rewrite Hg3.
    rewrite <- map_insert_at, <- serialize_unlines.
    2:{ unfold insert_at. by destruct (take i d). }
    rewrite table_of_serialize; [done | |].
    + by apply insert_at_canonical.
    + by apply insert_at_has_mandatory.
Qed.

Local Open Scope run_scope.

(** *** Step 5: the guards *)

Lemma ensure_wrapper_props_skip (e : env) (w : world) :
  is_Some (files w !! wrapper_props) → ensure_wrapper_props e w = (inl tt, w).
Proof.
  intros H. unfold ensure_wrapper_props, bind, path_exists, gets. simpl.
  by rewrite bool_decide_eq_true_2.
Qed.

Lemma ensure_wrapper_jar_skip (unzip : string → option archive) (e : env) (w : world) :
  is_Some (files w !! wrapper_jar) →
  ensure_wrapper_jar unzip e w
  = (inl tt, World (files w) (stdout w ++ [jar_present_message]) (requests w)).
Proof.
  intros H. unfold ensure_wrapper_jar. unfold bind at 1, path_exists, gets. simpl.
  by rewrite bool_decide_eq_true_2.
Qed.

(** *** Steps that ask nothing of the network *)

Lemma quiet_ok (msg : string) : quiet (ok msg).
Proof. apply quiet_print. Qed.

Lemma quiet_preflight : quiet preflight.
Proof.
  apply quiet_bind; [| intros; apply quiet_ok].
  unfold required. repeat (apply quiet_bind; [apply quiet_path_exists |];
    intros [|]; [| apply quiet_die]). apply quiet_ret.
Qed.

Lemma quiet_backup_each (e : env) (ts : string) (fs : list string) :
  quiet (backup_each e ts fs).
Proof.
  induction fs as [|f fs IH]; [apply quiet_ret |]. cbn [backup_each].
  apply quiet_bind; [apply quiet_path_exists |]. intros present.
  apply quiet_bind; [| intros _; apply IH].
  destruct present; [apply quiet_copy | apply quiet_ret].
Qed.

Lemma quiet_backup (e : env) : quiet (backup e).
Proof.
  apply quiet_bind; [apply quiet_path_exists |]. intros present.
  destruct (negb present); [| apply quiet_print].
  apply quiet_bind; [apply quiet_mkdir |]. intros _.
  apply quiet_bind; [apply quiet_backup_each | intros; apply quiet_ok].
Qed.

Lemma quiet_settings (e : env) : quiet (settings e).
Proof. apply quiet_bind; [apply quiet_write_file | intros; apply quiet_ok]. Qed.

Lemma quiet_build (e : env) : quiet (build e).
Proof. apply quiet_bind; [apply quiet_write_file | intros; apply quiet_ok]. Qed.

Lemma quiet_properties (e : env) : quiet (properties e).
Proof.
  apply quiet_bind.
  { apply quiet_bind; [apply quiet_path_exists |]. intros [|]; [| apply quiet_ret].
    apply quiet_bind; [apply quiet_read_text |]. intros text.
    destruct (Props.load text); [apply quiet_ret | apply quiet_halt]. }
  intros props. apply quiet_bind; [apply quiet_write_file | intros; apply quiet_ok].
Qed.

Lemma quiet_ensure_wrapper_props (e : env) : quiet (ensure_wrapper_props e).
Proof.
  apply quiet_bind; [apply quiet_path_exists |]. intros present.
  destruct (negb present); [apply quiet_write_file | apply quiet_ret].
Qed.

Lemma quiet_launcher : quiet launcher.
Proof.
  apply quiet_bind; [apply quiet_path_exists |]. intros present.
  apply quiet_bind.
  { destruct (negb present); [apply quiet_die | apply quiet_ret]. }
  intros _. apply quiet_bind; [apply quiet_chmod | intros; apply quiet_ok].
Qed.

Lemma quiet_summary : quiet summary.
Proof.
  repeat (apply quiet_bind; [apply quiet_print | intros _]). apply quiet_print.
Qed.

Lemma keeps_backup_outside (e : env) :
  keeps (λ p, ¬ BACKUP_DIR `prefix_of` p) (backup e).
Proof.
  apply keeps_bind; [apply keeps_path_exists |]. intros present.
  destruct (negb present); [| apply keeps_info].
  apply keeps_bind.
  { eapply keeps_weaken; [apply keeps_mkdir |]. intros p Hp ->. by apply Hp. }
  intros _. apply keeps_bind; [| intros; apply keeps_ok].
  generalize backed_up. intros fs.
  induction fs as [|f fs IH]; [apply keeps_ret |]. cbn [backup_each].
  apply keeps_bind; [apply keeps_path_exists |]. intros present'.
  apply keeps_bind; [| intros _; apply IH].
  destruct present'; [| apply keeps_ret].
  eapply keeps_weaken; [apply keeps_copy |].
  intros p Hp Hpre. apply Hp. etrans; [| exact Hpre]. by eexists.
Qed.

(** *** The run, step by step *)

Lemma preserves_main (I : world → Prop) (unzip : string → option archive) (e : env) :
  preserves I (print banner) → preserves I preflight → preserves I (backup e) →
  preserves I (settings e) → preserves I (build e) → preserves I (properties e) →
  preserves I (mkdir_p e wrapper_dir) → preserves I (ensure_wrapper_props e) →
  preserves I (ensure_wrapper_jar unzip e) →
  preserves I launcher → preserves I summary →
  preserves I (main unzip e).
Proof.
  intros. unfold main, wrapper.
  repeat first [assumption | apply preserves_bind; [| intros _]].
Qed.

Lemma keeps_quiet_preserves {A} (P : path → Prop) (m : M A) (p : path)
    (o : option node) (rq : list string) :
  keeps P m → quiet m → P p →
  preserves (λ w, files w !! p = o ∧ requests w = rq) m.
Proof.
  intros Hk Hq Hp. apply preserves_and.
  - by eapply keeps_preserves.
  - by apply quiet_preserves.
Qed.

Lemma keeps_preserves2 {A} (P : path → Prop) (m : M A) (p q : path)
    (o o' : option node) :
  keeps P m → P p → P q →
  preserves (λ w, files w !! p = o ∧ files w !! q = o') m.
Proof. intros Hk Hp Hq. apply preserves_and; by eapply keeps_preserves. Qed.

Local Open Scope run_scope.

(** The two files of the wrapper lie outside what steps 0 to 4, the making
    of [gradle/wrapper] and step 6 touch. *)
Lemma in_wrapper_dir_not_backup (x : string) :
  ¬ BACKUP_DIR `prefix_of` wrapper_dir ++ [x].
Proof. by intros ?%prefix_cons_inv_1. Qed.

Lemma in_wrapper_dir_not_made (x : string) (q : list string) :
  q ≠ [] → q `prefix_of` wrapper_dir → wrapper_dir ++ [x] ≠ q.
Proof. intros _ Hq%prefix_length <-. simpl in Hq. lia. Qed.

Lemma reads_preflight : reads preflight.
Proof.
  apply reads_bind; [| intros; apply reads_print].
  unfold required. repeat (apply reads_bind; [apply reads_path_exists |];
    intros [|]; [| apply reads_die]). apply reads_ret.
Qed.

(** With the wrapper binary in place, a run asks nothing of the network
    and leaves the binary as it is. *)
Lemma main_keeps_jar (unzip : string → option archive) (e : env)
    (n : node) (rq : list string) :
  preserves (λ w, files w !! wrapper_jar = Some n ∧ requests w = rq)
    (main unzip e).
Proof.
  apply preserves_main.
  - eapply (keeps_quiet_preserves (λ _, True));
      [apply keeps_print | apply quiet_print | done].
  - eapply (keeps_quiet_preserves (λ _, True));
      [apply reads_keeps, reads_preflight | apply quiet_preflight | done].
  - eapply keeps_quiet_preserves;
      [apply keeps_backup_outside | apply quiet_backup |].
    apply in_wrapper_dir_not_backup.
  - eapply keeps_quiet_preserves; [apply keeps_settings | apply quiet_settings | done].
  - eapply keeps_quiet_preserves; [apply keeps_build | apply quiet_build | done].
  - eapply keeps_quiet_preserves;
      [apply keeps_properties | apply quiet_properties | done].
  - eapply keeps_quiet_preserves; [apply keeps_mkdir_p | apply quiet_mkdir_p |].
    intros q. apply in_wrapper_dir_not_made.
  - eapply keeps_quiet_preserves;
      [apply keeps_bind; [apply keeps_path_exists |]; intros present;
       destruct (negb present); [apply keeps_write_file | apply keeps_ret]
      | apply quiet_ensure_wrapper_props | done].
  - intros w r w' [Hjar Hrq]. rewrite ensure_wrapper_jar_skip by by eexists.
    by intros [= <- <-].
  - eapply keeps_quiet_preserves; [apply keeps_launcher | apply quiet_launcher | done].
  - eapply (keeps_quiet_preserves (λ _, True));
      [apply reads_keeps, reads_summary | apply quiet_summary | done].
Qed.

(** ... and the wrapper properties too, when they are there. *)
Lemma main_keeps_wrapper_files (unzip : string → option archive) (e : env)
    (n n' : node) :
  preserves (λ w, files w !! wrapper_jar = Some n ∧ files w !! wrapper_props = Some n')
    (main unzip e).
Proof.
  apply preserves_main.
  - eapply (keeps_preserves2 (λ _, True)); [apply keeps_print | done..].
  - eapply (keeps_preserves2 (λ _, True));
      [apply reads_keeps, reads_preflight | done..].
  - eapply keeps_preserves2;
      [apply keeps_backup_outside | apply in_wrapper_dir_not_backup..].
  - eapply keeps_preserves2; [apply keeps_settings | done..].
  - eapply keeps_preserves2; [apply keeps_build | done..].
  - eapply keeps_preserves2; [apply keeps_properties | done..].
  - eapply keeps_preserves2;
      [apply keeps_mkdir_p | intros q; apply in_wrapper_dir_not_made..].
  - intros w r w' [Hjar Hprops]. rewrite ensure_wrapper_props_skip by by eexists.
    by intros [= <- <-].
  - intros w r w' [Hjar Hprops]. rewrite ensure_wrapper_jar_skip by by eexists.
    by intros [= <- <-].
  - eapply keeps_preserves2; [apply keeps_launcher | done..].
  - eapply (keeps_preserves2 (λ _, True));
      [apply reads_keeps, reads_summary | done..].
Qed.

(** C5. Each of the two sub-steps of step 5 does nothing to a target that
    exists: with [gradle-wrapper.properties] in place [ensure_wrapper_props]
    returns the state it was given; with [gradle-wrapper.jar] in place,
    whatever it holds, [ensure_wrapper_jar] only prints a line. A whole run
    started with the binary in place asks nothing of the network and ends
    with the binary as it was, and with the wrapper properties as they were
    when these existed. *)
Theorem C5_wrapper_guards (unzip : string → option archive) (e : env) (w : world) :
  (is_Some (files w !! wrapper_props) → ensure_wrapper_props e w = (inl tt, w))
  ∧ (is_Some (files w !! wrapper_jar) →
     ensure_wrapper_jar unzip e w
     = (inl tt, World (files w) (stdout w ++ [jar_present_message]) (requests w)))
  ∧ (∀ n, files w !! wrapper_jar = Some n →
          let w' := (main unzip e w).2 in
          files w' !! wrapper_jar = Some n
          ∧ requests w' = requests w
          ∧ ∀ n', files w !! wrapper_props = Some n' →
                  files w' !! wrapper_props = Some n').
Proof.
  split_and!.
  - apply ensure_wrapper_props_skip.
  - apply ensure_wrapper_jar_skip.
  - intros n Hjar w'. subst w'.
    destruct (main unzip e w) as [r w'] eqn:Hrun. cbn [snd].
    destruct (main_keeps_jar unzip e n (requests w) w r w' (conj Hjar eq_refl) Hrun)
      as [Hjar' Hrq].
    split_and!; [done.. |]. intros n' Hprops.
    by destruct (main_keeps_wrapper_files unzip e n n' w r w' (conj Hjar Hprops) Hrun).
Qed.

Local Open Scope run_scope.

(** *** Step 6 *)

Lemma launcher_missing (w : world) :
  files w !! gradlew = None →
  launcher w
  = (inr (SysExit 1), World (files w) (stdout w ++ [launcher_message]) (requests w)).
Proof.
  intros H. unfold launcher, bind, path_exists, gets. simpl. rewrite H.
  by rewrite bool_decide_eq_false_2 by by intros [? ?].
Qed.

Lemma launcher_present (w : world) (n : node) :
  files w !! gradlew = Some n →
  launcher w
  = (inl tt,
     World (<[gradlew := set_mode 493 n]> (files w))
       (stdout w ++ [Ok "gradlew executable"]) (requests w)).
Proof.
  intros H. unfold launcher, chmod, bind, path_exists, gets, set_files. simpl.
  rewrite H, bool_decide_eq_true_2 by by eexists. simpl. by rewrite H.
Qed.

Lemma bind_congr {A B} (m : M A) (k k' : A → M B) (w : world) :
  (∀ a w', k a w' = k' a w') → bind m k w = bind m k' w.
Proof. intros H. unfold bind. destruct (m w) as [[a|s] w']; [apply H | done]. Qed.

Lemma main_split_launcher (unzip : string → option archive) (e : env) (w : world) :
  main unzip e w
  = match before_launcher unzip e w with
    | (inl _, w5) => (launcher ;; summary) w5
    | (inr s, w5) => (inr s, w5)
    end.
Proof.
  change (main unzip e w
          = bind (before_launcher unzip e) (λ _, launcher ;; summary) w).
  unfold main, before_launcher. symmetry. revert w.
  repeat (let w' := fresh "w" in
          intros w'; rewrite bind_assoc; apply bind_congr; intros _).
  done.
Qed.

Lemma main_split_download (unzip : string → option archive) (e : env) (w : world) :
  main unzip e w
  = match before_download e w with
    | (inl _, w1) => (ensure_wrapper_jar unzip e ;; launcher ;; summary) w1
    | (inr s, w1) => (inr s, w1)
    end.
Proof.
  change (main unzip e w
          = bind (before_download e)
              (λ _, ensure_wrapper_jar unzip e ;; launcher ;; summary) w).
  unfold main, before_download, wrapper. revert w.
  repeat (let w' := fresh "w" in
          intros w'; rewrite ?bind_assoc;
          first [reflexivity | apply bind_congr; intros _]).
Qed.

Lemma keeps_before_launcher (unzip : string → option archive) (e : env) :
  keeps (λ p, p = gradlew) (before_launcher unzip e).
Proof.
  unfold before_launcher.
  apply keeps_bind; [apply keeps_print | intros _].
  apply keeps_bind; [apply reads_keeps, reads_preflight | intros _].
  apply keeps_bind; [| intros _].
  { eapply keeps_weaken; [apply keeps_backup |]. intros p ->. split; [simpl; lia | done]. }
  apply keeps_bind; [| intros _].
  { eapply keeps_weaken; [apply keeps_settings |]. by intros p ->. }
  apply keeps_bind; [| intros _].
  { eapply keeps_weaken; [apply keeps_build |]. by intros p ->. }
  apply keeps_bind; [| intros _].
  { eapply keeps_weaken; [apply keeps_properties |]. by intros p ->. }
  eapply keeps_weaken; [apply keeps_wrapper |]. intros p ->.
  split_and!; [by intros ?%prefix_cons_inv_1 | done | by repeat constructor].
Qed.

(** *** Early stops are failures *)

Lemma stops_bind {A B} (Q : stop → Prop) (m : M A) (k : A → M B) :
  stops_only Q m → (∀ a, stops_only Q (k a)) → stops_only Q (bind m k).
Proof.
  intros Hm Hk w s w' [(a & w1 & H1 & H2)|(s' & H1 & [= <-])]%bind_inv.
  - by eapply Hk.
  - by eapply Hm.
Qed.

Lemma stops_ret {A} (Q : stop → Prop) (a : A) : stops_only Q (ret a).
Proof. by intros w s w'. Qed.

Lemma stops_gets {A} (Q : stop → Prop) (f : world → A) : stops_only Q (gets f).
Proof. by intros w s w'. Qed.

Lemma stops_print (Q : stop → Prop) (m : message) : stops_only Q (print m).
Proof. by intros w s w'. Qed.

Lemma stops_set_files (Q : stop → Prop) (t : gmap path node) : stops_only Q (set_files t).
Proof. by intros w s w'. Qed.

Lemma stops_log_request (Q : stop → Prop) (u : string) : stops_only Q (log_request u).
Proof. by intros w s w'. Qed.

Lemma stops_halt {A} (Q : stop → Prop) (s : stop) : Q s → stops_only Q (@halt A s).
Proof. intros H w s' w' [= <- <-]. done. Qed.

(** Take a computation apart down to [ret], [halt] and the state
    operations. *)
Ltac stops :=
  repeat first
    [ apply stops_ret | apply stops_gets | apply stops_print
    | apply stops_set_files | apply stops_log_request
    | apply stops_halt; done
    | apply stops_bind; [| intros ?]
    | match goal with
      | |- stops_only _ (match ?x with _ => _ end) => destruct x
      | |- stops_only _ (let (_, _) := ?x in _) => destruct x
      end
    | progress unfold before_launcher, preflight, required, backup, backed_up,
        settings, build, properties, read_props, wrapper, ensure_wrapper_props,
        ensure_wrapper_jar, open_zip, install_jar, extract, launcher, summary,
        mkdir, mkdir_p, write_text, write_file, read_text, copy, urlretrieve,
        rename, rmtree_ignore_errors, unlink, chmod, path_exists, die, raise,
        info, ok
    | progress cbn [check_required backup_each] ].

Lemma before_launcher_failure (unzip : string → option archive) (e : env) :
  stops_only (λ s, exit_status (inr s) = Some 1) (before_launcher unzip e).
Proof. stops. Qed.

Lemma summary_ok (w : world) : ∃ out, summary w = (inl tt, World (files w) out (requests w)).
Proof. eexists. reflexivity. Qed.

(** C7. Without [gradlew] in the project directory every run ends with
    status 1 and makes no [gradlew]: a run that reaches step 6 is stopped
    there, after the line "gradlew script missing" and with no file
    changed by the step; a run that an earlier step stops has status 1 as
    well. A run that ends with status 0 leaves [gradlew] with mode 0755
    (493), that is, the nine permission bits rwxr-xr-x. *)
Theorem C7_launcher (unzip : string → option archive) (e : env) (w : world) :
  (files w !! gradlew = None →
   exit_status (main unzip e w).1 = Some 1
   ∧ files (main unzip e w).2 !! gradlew = None
   ∧ launcher w
     = (inr (SysExit 1),
        World (files w) (stdout w ++ [Fatal "gradlew script missing"]) (requests w))
   ∧ ∀ w5, before_launcher unzip e w = (inl tt, w5) →
           main unzip e w
           = (inr (SysExit 1),
              World (files w5) (stdout w5 ++ [Fatal "gradlew script missing"])
                (requests w5)))
  ∧ (∀ w', main unzip e w = (inl tt, w') →
           ∃ n, files w' !! gradlew = Some n
                ∧ mode_of n = 493
                ∧ 493 = 7 * 64 + 5 * 8 + 5
                ∧ map (Z.testbit (mode_of n)) [8; 7; 6; 5; 4; 3; 2; 1; 0] = rwxr_xr_x
                ∧ mode_of n < 512).
Proof.
  split.
  - intros Habs.
    assert (∀ r w5, before_launcher unzip e w = (r, w5) → files w5 !! gradlew = None) as Hk.
    { intros r w5 Hrun. by rewrite (keeps_before_launcher unzip e _ _ _ gradlew eq_refl Hrun). }
    assert (∀ w5, before_launcher unzip e w = (inl tt, w5) →
                  main unzip e w
                  = (inr (SysExit 1),
                     World (files w5) (stdout w5 ++ [Fatal "gradlew script missing"])
                       (requests w5))) as Hdie.
    { intros w5 Hrun. rewrite main_split_launcher, Hrun.
      erewrite bind_stop; [done |]. apply launcher_missing. by eapply Hk. }
    split_and!; [| | by apply launcher_missing | done].
    + destruct (before_launcher unzip e w) as [[[]|s] w5] eqn:Hrun.
      * by rewrite (Hdie _ eq_refl).
      * rewrite main_split_launcher, Hrun.
        exact (before_launcher_failure unzip e _ _ _ Hrun).
    + destruct (before_launcher unzip e w) as [[[]|s] w5] eqn:Hrun.
      * rewrite (Hdie _ eq_refl). simpl. by eapply Hk.
      * rewrite main_split_launcher, Hrun. simpl. by eapply Hk.
  - intros w'. rewrite main_split_launcher.
    destruct (before_launcher unzip e w) as [[[]|s] w5]; [| done].
    intros ([] & w6 & Hl & Hs)%bind_inl.
    destruct (files w5 !! gradlew) as [n|] eqn:Hg.
    + rewrite (launcher_present _ _ Hg) in Hl. injection Hl as <-.
      destruct (summary_ok (World (<[gradlew:=set_mode 493 n]> (files w5))
                  (stdout w5 ++ [Ok "gradlew executable"]) (requests w5)))
        as [out Hout].
      rewrite Hout in Hs. injection Hs as <-.
      exists (set_mode 493 n). simpl. rewrite lookup_insert_eq.
      by destruct n.
    + by rewrite (launcher_missing _ Hg) in Hl.
Qed.

Local Open Scope run_scope.

(** *** Step 5: the download *)

Lemma fetch_archive (unzip : string → option archive) (e : env) (w : world)
    (body : string) (z : archive) :
  is_dir (files w !! zip_path) = false →
  fetch e distribution_url = Some body →
  unzip body = Some z →
  (urlretrieve e distribution_url zip_path ;; open_zip unzip zip_path) w
  = (inl z,
     World (<[zip_path := File body (zip_mode e (files w))]> (files w)) (stdout w)
       (requests w ++ [distribution_url])).
Proof.
  intros Hdir Hfetch Hzip.
  assert (urlretrieve e distribution_url zip_path w
          = (inl tt,
             World (<[zip_path := File body (zip_mode e (files w))]> (files w))
               (stdout w) (requests w ++ [distribution_url]))) as Hget.
  { unfold urlretrieve, zip_mode. erewrite bind_ok by reflexivity. rewrite Hfetch.
    unfold write_file, bind, gets, set_files. simpl.
    by destruct (files w !! zip_path) as [[data m|m]|]. }
  erewrite bind_ok by exact Hget.
  unfold open_zip, bind, gets. simpl. by rewrite lookup_insert_eq, Hzip.
Qed.

Lemma ensure_wrapper_jar_download (unzip : string → option archive) (e : env)
    (w : world) (body : string) (z : archive) :
  files w !! wrapper_jar = None →
  is_dir (files w !! zip_path) = false →
  fetch e distribution_url = Some body →
  unzip body = Some z →
  ensure_wrapper_jar unzip e w
  = (install_jar e z ;; unlink zip_path ;; ok "gradle-wrapper.jar installed")
      (World (<[zip_path := File body (zip_mode e (files w))]> (files w))
         (stdout w ++ [download_message]) (requests w ++ [distribution_url])).
Proof.
  intros Hjar Hdir Hfetch Hzip. unfold ensure_wrapper_jar.
  unfold bind at 1, path_exists, gets. cbn [fst snd].
  rewrite Hjar, bool_decide_eq_false_2 by (by intros [? ?]). cbn [negb].
  erewrite bind_ok by reflexivity.
  rewrite <- bind_assoc. erewrite bind_ok; [done |].
  by apply (fetch_archive unzip e
              (World (files w) (stdout w ++ [download_message]) (requests w))).
Qed.

(** C6. When step 5 has to download, the server answers and the answer is an
    archive with no member whose name ends in [gradle-wrapper.jar], the
    step stops the run with status 1 after the line "gradle-wrapper.jar not
    found in Gradle distribution". The downloaded archive stays in the
    project directory, nothing is removed, and no other file is changed. *)
Theorem C6_missing_entry (unzip : string → option archive) (e : env) (w : world)
    (body : string) (z : archive) :
  files w !! wrapper_jar = None →
  is_dir (files w !! zip_path) = false →
  fetch e distribution_url = Some body →
  unzip body = Some z →
  List.filter (λ n, endswith n jar_suffix) (namelist z) = [] →
  let w' :=
    World (<[zip_path := File body (zip_mode e (files w))]> (files w))
      (stdout w ++ [Info "Downloading Gradle 8.2.1 wrapper";
                    Fatal "gradle-wrapper.jar not found in Gradle distribution"])
      (requests w ++ [distribution_url]) in
  ensure_wrapper_jar unzip e w = (inr (SysExit 1), w')
  ∧ exit_status (ensure_wrapper_jar unzip e w).1 = Some 1
  ∧ files w' !! zip_path = Some (File body (zip_mode e (files w)))
  ∧ (∀ p, p ≠ zip_path → files w' !! p = files w !! p)
  ∧ (∀ w0, before_download e w0 = (inl tt, w) →
           main unzip e w0 = (inr (SysExit 1), w')).
Proof.
  intros Hjar Hdir Hfetch Hzip Hnone w'.
  assert (ensure_wrapper_jar unzip e w = (inr (SysExit 1), w')) as Hrun.
  { rewrite (ensure_wrapper_jar_download _ _ _ _ _ Hjar Hdir Hfetch Hzip).
    erewrite bind_stop; [done |]. unfold install_jar. rewrite Hnone.
    unfold die, bind, print, halt. simpl. subst w'. by rewrite <- app_assoc. }
  split_and!.
  - done.
  - by rewrite Hrun.
  - subst w'. simpl. by rewrite lookup_insert_eq.
  - intros p Hp. subst w'. simpl. by rewrite lookup_insert_ne.
  - intros w0 Hw0. rewrite main_split_download, Hw0.
    by erewrite bind_stop by exact Hrun.
Qed.

Local Open Scope run_scope.

(** *** Step 5: the installation *)


(** *** Plain names *)











(** *** Step 5: the installation on a free spot *)





End PrepushFacts.

(** ** Further facts about the run as a whole *)

Module ScriptFacts.
Import PyStr Props FS Run Os Prepush Spec PyStrFacts PropsFacts RunFacts OsFacts
  PrepushFacts.
Local Open Scope run_scope.

Lemma keeps_ensure_wrapper_props_only (e : env) :
  keeps (λ p, p ≠ wrapper_props) (ensure_wrapper_props e).
Proof.
  apply keeps_bind; [apply keeps_path_exists |]. intros present.
  destruct (negb present); [apply keeps_write_file | apply keeps_ret].
Qed.









(** *** What is printed *)

Lemma prints_bind {A B} (o1 o2 : list message) (m : M A) (k : A → M B) :
  prints o1 m → (∀ a, prints o2 (k a)) → prints (o1 ++ o2) (bind m k).
Proof.
  intros Hm Hk w b w' (a & w1 & H1 & H2)%bind_inl.
  rewrite (Hk _ _ _ _ H2), (Hm _ _ _ H1). by rewrite app_assoc.
Qed.

Lemma prints_bind_nil {A B} (m : M A) (k : A → M B) :
  prints [] m → (∀ a, prints [] (k a)) → prints [] (bind m k).
Proof. apply (prints_bind [] []). Qed.

Lemma prints_ret {A} (a : A) : prints [] (ret a).
Proof. intros w b w' [= <- <-]. by rewrite app_nil_r. Qed.

Lemma prints_gets {A} (f : world → A) : prints [] (gets f).
Proof. intros w b w' [= <- <-]. by rewrite app_nil_r. Qed.

Lemma prints_set_files (t : gmap path node) : prints [] (set_files t).
Proof. intros w b w' [= <- <-]. simpl. by rewrite app_nil_r. Qed.

Lemma prints_log_request (u : string) : prints [] (log_request u).
Proof. intros w b w' [= <- <-]. simpl. by rewrite app_nil_r. Qed.

Lemma prints_halt {A} (out : list message) (s : stop) : prints out (@halt A s).
Proof. by intros w b w'. Qed.

Lemma prints_print (m : message) : prints [m] (print m).
Proof. by intros w b w' [= <- <-]. Qed.

Lemma prints_die {A} (out : list message) (msg : string) : prints out (@die A msg).
Proof. by intros w b w'. Qed.

(** Take a computation that prints nothing when it returns apart, down
    to [ret], [halt] and the state operations. *)
Ltac silence :=
  repeat first
    [ apply prints_ret | apply prints_gets | apply prints_set_files
    | apply prints_log_request | apply prints_halt | apply prints_die
    | apply prints_bind_nil; [| intros ?]
    | match goal with
      | |- prints _ (match ?x with _ => _ end) => destruct x
      | |- prints _ (let (_, _) := ?x in _) => destruct x
      end
    | progress unfold read_props, ensure_wrapper_props, open_zip, install_jar,
        extract, mkdir, mkdir_p, write_text, write_file, read_text, copy,
        urlretrieve, rename, rmtree_ignore_errors, unlink, chmod, path_exists,
        raise ].

Lemma prints_backup_each (e : env) (ts : string) (fs : list string) :
  prints [] (backup_each e ts fs).
Proof.
  induction fs as [|f fs IH]; [apply prints_ret |]. cbn [backup_each].
  apply prints_bind_nil; [silence |]. intros present.
  apply prints_bind_nil; [| intros _; apply IH].
  destruct present; silence.
Qed.

Lemma prints_then_ok {A} (m : M A) (msg : string) :
  prints [] m → prints [Ok msg] (m ;; ok msg).
Proof. intros Hm. apply (prints_bind [] [Ok msg]); [done |]. intros _. apply prints_print. Qed.

Lemma prints_preflight : prints [Ok "Project structure detected"] preflight.
Proof.
  apply prints_then_ok. unfold required. cbn [check_required]. silence.
Qed.

Lemma prints_backup (e : env) (w w' : world) :
  backup e w = (inl tt, w') →
  stdout w'
  = stdout w ++ [if bool_decide (is_Some (files w !! BACKUP_DIR))
                 then Info "Backup already exists - skipping"
                 else Ok "Original files backed up"].
Proof.
  unfold backup. unfold bind at 1, path_exists, gets. cbn [fst snd].
  destruct (bool_decide (is_Some (files w !! BACKUP_DIR))); cbn [negb].
  - by intros [= <-].
  - apply (prints_bind [] [Ok "Original files backed up"]); [silence |].
    intros _. apply prints_then_ok, prints_backup_each.
Qed.

Lemma prints_settings (e : env) : prints [Ok "settings.gradle normalized"] (settings e).
Proof. apply prints_then_ok. silence. Qed.

Lemma prints_build (e : env) : prints [Ok "build.gradle sanitized"] (build e).
Proof. apply prints_then_ok. silence. Qed.

Lemma prints_properties (e : env) : prints [Ok "gradle.properties enforced"] (properties e).
Proof.
  unfold properties. apply (prints_bind [] [_]); [silence |]. intros props.
  apply prints_then_ok. silence.
Qed.

Lemma prints_ensure_wrapper_jar (unzip : string → option archive) (e : env)
    (w w' : world) :
  ensure_wrapper_jar unzip e w = (inl tt, w') →
  stdout w'
  = stdout w ++ (if bool_decide (is_Some (files w !! wrapper_jar))
                 then [Ok "gradle-wrapper.jar already present"]
                 else [Info ("Downloading Gradle " +:+ GRADLE_VERSION +:+ " wrapper");
                       Ok "gradle-wrapper.jar installed"]).
Proof.
  unfold ensure_wrapper_jar. unfold bind at 1, path_exists, gets. cbn [fst snd].
  destruct (bool_decide (is_Some (files w !! wrapper_jar))); cbn [negb].
  - by intros [= <-].
  - apply (prints_bind [Info _] [Ok _]); [apply prints_print |]. intros _.
    apply (prints_bind [] [Ok _]); [silence |]. intros _.
    apply (prints_bind [] [Ok _]); [silence |]. intros z.
    apply (prints_bind [] [Ok _]); [silence |]. intros _.
    apply prints_then_ok. silence.
Qed.

Lemma prints_launcher : prints [Ok "gradlew executable"] launcher.
Proof.
  unfold launcher. apply (prints_bind [] [_]); [silence |]. intros present.
  apply (prints_bind [] [_]); [destruct (negb present); silence |]. intros _.
  apply prints_then_ok. silence.
Qed.

Lemma prints_summary :
  prints [Plain (nl +:+ "=== RESULT ==="); Ok "Project is CI-safe";
          Ok "No local Gradle dependency"; Ok "Ready for GitHub Actions build";
          Next "NEXT: commit & push, then build ONLY via GitHub Actions"] summary.
Proof.
  intros w [] w'. unfold summary, ok, bind, print. cbn [fst snd files stdout requests].
  intros [= <-]. cbn [stdout]. by rewrite <- !app_assoc.
Qed.

(** Up to the download, the entries of [gradle/wrapper] other than the
    wrapper properties stay as they are. *)
Lemma keeps_before_download_jar (e : env) :
  keeps (λ p, p = wrapper_jar) (before_download e).
Proof.
  unfold before_download.
  apply keeps_bind; [apply keeps_print | intros _].
  apply keeps_bind; [apply reads_keeps, reads_preflight | intros _].
  apply keeps_bind; [| intros _].
  { eapply keeps_weaken; [apply keeps_backup_outside |]. intros p ->.
    apply in_wrapper_dir_not_backup. }
  apply keeps_bind; [| intros _].
  { eapply keeps_weaken; [apply keeps_settings |]. by intros p ->. }
  apply keeps_bind; [| intros _].
  { eapply keeps_weaken; [apply keeps_build |]. by intros p ->. }
  apply keeps_bind; [| intros _].
  { eapply keeps_weaken; [apply keeps_properties |]. by intros p ->. }
  apply keeps_bind; [| intros _].
  { eapply keeps_weaken; [apply keeps_mkdir_p |]. intros p -> q.
    apply in_wrapper_dir_not_made. }
  eapply keeps_weaken; [apply keeps_ensure_wrapper_props_only |]. by intros p ->.
Qed.

Lemma prints_before_download (e : env) (w w' : world) :
  before_download e w = (inl tt, w') →
  stdout w'
  = stdout w ++ [banner; Ok "Project structure detected";
                 if bool_decide (is_Some (files w !! BACKUP_DIR))
                 then Info "Backup already exists - skipping"
                 else Ok "Original files backed up";
                 Ok "settings.gradle normalized"; Ok "build.gradle sanitized";
                 Ok "gradle.properties enforced"].
Proof.
  unfold before_download. erewrite bind_ok by reflexivity.
  intros ([] & w1 & H1 & Hrun)%bind_inl.
  pose proof (prints_preflight _ _ _ H1) as E1.
  pose proof (reads_preflight _ _ _ H1) as F1. cbn [files stdout] in E1, F1.
  apply bind_inl in Hrun as ([] & w2 & H2 & Hrun).
  pose proof (prints_backup _ _ _ H2) as E2. rewrite F1 in E2.
  revert Hrun.
  intros Hrun. apply bind_inl in Hrun as ([] & w3 & H3 & Hrun).
  apply bind_inl in Hrun as ([] & w4 & H4 & Hrun).
  apply bind_inl in Hrun as ([] & w5 & H5 & Hrun).
  apply bind_inl in Hrun as ([] & w6 & H6 & H7).
  assert (prints [] (mkdir_p e wrapper_dir)) as P6 by silence.
  assert (prints [] (ensure_wrapper_props e)) as P7 by silence.
  rewrite (P7 _ _ _ H7), (P6 _ _ _ H6), (prints_properties _ _ _ _ H5),
    (prints_build _ _ _ _ H4), (prints_settings _ _ _ _ H3), E2, E1.
  rewrite !app_nil_r, <- !app_assoc. done.
Qed.

Lemma prints_main (unzip : string → option archive) (e : env) (w w' : world) :
  main unzip e w = (inl tt, w') →
  stdout w'
  = stdout w ++ success_transcript (bool_decide (is_Some (files w !! BACKUP_DIR)))
                  (bool_decide (is_Some (files w !! wrapper_jar))).
Proof.
  rewrite main_split_download.
  destruct (before_download e w) as [[[]|s] w1] eqn:H1; [| done].
  intros ([] & w2 & H2 & Hrun)%bind_inl.
  apply bind_inl in Hrun as ([] & w3 & H3 & H4).
  rewrite (prints_summary _ _ _ H4), (prints_launcher _ _ _ H3),
    (prints_ensure_wrapper_jar _ _ _ _ H2), (prints_before_download _ _ _ H1).
  rewrite (keeps_before_download_jar e _ _ _ wrapper_jar eq_refl H1).
  unfold success_transcript. rewrite <- !app_assoc. done.
Qed.

(** X2. A run that ends with status 0 has printed, after what was on
    standard output before, exactly the lines of [success_transcript]: the
    banner, the lines of the steps 0 to 6 and the five lines of the
    summary. Only two places vary: step 1 reports a backup or a skipped
    backup according to whether [.prepush_backup] existed at the start, and
    step 5 reports a download and an installation, or a binary already
    present, according to whether [gradle-wrapper.jar] existed at the
    start. *)
Theorem main_transcript (unzip : string → option archive) (e : env) (w w' : world) :
  main unzip e w = (inl tt, w') →
  stdout w'
  = stdout w ++ success_transcript (bool_decide (is_Some (files w !! BACKUP_DIR)))
                  (bool_decide (is_Some (files w !! wrapper_jar))).
Proof. apply prints_main. Qed.

(** *** How a run stops *)

Lemma stops_in_bind {A B} (Q : stop → world → Prop) (m : M A) (k : A → M B) :
  stops_in Q m → (∀ a, stops_in Q (k a)) → stops_in Q (bind m k).
Proof.
  intros Hm Hk w s w' [(a & w1 & H1 & H2)|(s' & H1 & [= <-])]%bind_inv.
  - by eapply Hk.
  - by eapply Hm.
Qed.

(** A computation that never leaves through [sys.exit]. *)
Lemma stops_in_raise {A} (m : M A) :
  stops_only (λ s, ∀ c, s ≠ SysExit c) m → stops_in loud_exit m.
Proof.
  intros Hm w s w' Hrun. pose proof (Hm _ _ _ Hrun) as Hs.
  destruct s as [c|x]; [by destruct (Hs c) | done].
Qed.

Lemma stops_in_die {A} (msg : string) :
  diagnostic msg → stops_in loud_exit (@die A msg).
Proof.
  intros Hmsg w s w'. unfold die, bind, print, halt. cbn [fst snd].
  intros [= <- <-]. split; [done |]. exists msg. cbn [stdout].
  by rewrite last_snoc.
Qed.

Lemma stops_in_ok (msg : string) : stops_in loud_exit (ok msg).
Proof. by intros w s w'. Qed.

Lemma stops_in_preflight : stops_in loud_exit preflight.
Proof.
  apply stops_in_bind; [| intros; apply stops_in_ok].
  assert (∀ rs, (∀ r, r ∈ rs → r ∈ required) → stops_in loud_exit (check_required rs))
    as H; [| by apply H].
  induction rs as [|r rs IH]; intros Hrs; cbn [check_required].
  - by intros w s w'.
  - apply stops_in_bind; [by intros w s w' |]. intros [|].
    + apply IH. intros r' Hr'. apply Hrs. by right.
    + apply stops_in_die. left. exists r. split; [apply Hrs; by left | done].
Qed.

Lemma stops_in_install_jar (e : env) (z : archive) :
  stops_in loud_exit (install_jar e z).
Proof.
  unfold install_jar. destruct (List.filter _ (namelist z)) as [|jar_src rest].
  - apply stops_in_die. right. by left.
  - apply stops_in_raise. stops.
Qed.

Lemma stops_in_main (unzip : string → option archive) (e : env) :
  stops_in loud_exit (main unzip e).
Proof.
  unfold main.
  apply stops_in_bind; [by intros w s w' | intros _].
  apply stops_in_bind; [apply stops_in_preflight | intros _].
  apply stops_in_bind; [apply stops_in_raise; stops | intros _].
  apply stops_in_bind; [apply stops_in_raise; stops | intros _].
  apply stops_in_bind; [apply stops_in_raise; stops | intros _].
  apply stops_in_bind; [apply stops_in_raise; stops | intros _].
  apply stops_in_bind; [| intros _].
  { unfold wrapper.
    apply stops_in_bind; [apply stops_in_raise; stops | intros _].
    apply stops_in_bind; [apply stops_in_raise; stops | intros _].
    unfold ensure_wrapper_jar.
    apply stops_in_bind; [apply stops_in_raise; stops | intros present].
    destruct (negb present); [| apply stops_in_ok].
    apply stops_in_bind; [apply stops_in_raise; stops | intros _].
    apply stops_in_bind; [apply stops_in_raise; stops | intros _].
    apply stops_in_bind; [apply stops_in_raise; stops | intros z].
    apply stops_in_bind; [apply stops_in_install_jar | intros _].
    apply stops_in_bind; [apply stops_in_raise; stops | intros _].
    apply stops_in_ok. }
  apply stops_in_bind; [| intros _; apply stops_in_raise; stops].
  unfold launcher.
  apply stops_in_bind; [apply stops_in_raise; stops | intros present].
  apply stops_in_bind; [| intros _; apply stops_in_raise; stops].
  destruct (negb present); [| by intros w s w'].
  apply stops_in_die. by do 2 right.
Qed.

(** X3. When a run leaves through [sys.exit], the status is 1 and the
    last line printed is the line of [die] for one of the script's three
    diagnostics: a missing required item (named, one of [required]), no
    wrapper binary in the downloaded distribution, or a missing [gradlew]. *)
Theorem main_sys_exit (unzip : string → option archive) (e : env) (w w' : world)
    (c : Z) :
  main unzip e w = (inr (SysExit c), w') →
  c = 1
  ∧ ∃ msg, last (stdout w') = Some (Fatal msg) ∧ diagnostic msg.
Proof. apply (stops_in_main unzip e w (SysExit c) w'). Qed.

(** *** What a run that fails has not printed *)

Lemma emits_bind {A B} (Q : message → Prop) (m : M A) (k : A → M B) :
  emits Q m → (∀ a, emits Q (k a)) → emits Q (bind m k).
Proof.
  intros Hm Hk w r w' [(a & w1 & H1 & H2)|(s & H1 & _)]%bind_inv.
  - destruct (Hm _ _ _ H1) as (o1 & E1 & Q1).
    destruct (Hk _ _ _ _ H2) as (o2 & E2 & Q2).
    exists (o1 ++ o2). rewrite E2, E1, app_assoc. split; [done |].
    by apply Forall_app.
  - by eapply Hm.
Qed.

Lemma emits_ret {A} (Q : message → Prop) (a : A) : emits Q (ret a).
Proof. intros w r w' [= <- <-]. exists []. by rewrite app_nil_r. Qed.

Lemma emits_gets {A} (Q : message → Prop) (f : world → A) : emits Q (gets f).
Proof. intros w r w' [= <- <-]. exists []. by rewrite app_nil_r. Qed.

Lemma emits_halt {A} (Q : message → Prop) (s : stop) : emits Q (@halt A s).
Proof. intros w r w' [= <- <-]. exists []. by rewrite app_nil_r. Qed.

Lemma emits_set_files (Q : message → Prop) (t : gmap path node) :
  emits Q (set_files t).
Proof. intros w r w' [= <- <-]. exists []. simpl. by rewrite app_nil_r. Qed.

Lemma emits_log_request (Q : message → Prop) (u : string) : emits Q (log_request u).
Proof. intros w r w' [= <- <-]. exists []. simpl. by rewrite app_nil_r. Qed.

Lemma emits_print (Q : message → Prop) (m : message) : Q m → emits Q (print m).
Proof. intros H w r w' [= <- <-]. exists [m]. split; [done | by constructor]. Qed.

Ltac emission :=
  repeat first
    [ apply emits_ret | apply emits_gets | apply emits_set_files
    | apply emits_log_request | apply emits_halt
    | apply emits_print; done
    | apply emits_bind; [| intros ?]
    | match goal with
      | |- emits _ (match ?x with _ => _ end) => destruct x
      | |- emits _ (let (_, _) := ?x in _) => destruct x
      end
    | progress unfold before_launcher, preflight, required, backup, backed_up,
        settings, build, properties, read_props, wrapper, ensure_wrapper_props,
        ensure_wrapper_jar, open_zip, install_jar, extract, launcher,
        mkdir, mkdir_p, write_text, write_file, read_text, copy, urlretrieve,
        rename, rmtree_ignore_errors, unlink, chmod, path_exists, die, raise,
        info, ok
    | progress cbn [check_required backup_each] ].

Lemma emits_before_summary (unzip : string → option archive) (e : env) :
  emits (λ m, m ≠ Ok "Project is CI-safe")
    (before_launcher unzip e ;; launcher).
Proof. emission. Qed.

(** X4. The line "Project is CI-safe" of the summary is among the lines a
    run prints if and only if the run ends with status 0: a run that stops
    early, by [sys.exit] or by an exception, never prints it. *)
Theorem summary_only_on_success (unzip : string → option archive) (e : env)
    (w w' : world) (r : unit + stop) :
  main unzip e w = (r, w') →
  ∃ out, stdout w' = stdout w ++ out
         ∧ (Ok "Project is CI-safe" ∈ out ↔ r = inl tt).
Proof.
  intros Hrun. destruct r as [[]|s].
  - eexists. split; [by apply (prints_main unzip e) |].
    split; [done |]. intros _. unfold success_transcript.
    rewrite !elem_of_app. do 2 right. set_solver.
  - assert ((before_launcher unzip e ;; launcher) w = (inr s, w')) as Hstop.
    { rewrite main_split_launcher in Hrun. unfold bind at 1.
      destruct (before_launcher unzip e w) as [[[]|s'] w5]; [| done].
      unfold bind in Hrun. destruct (launcher w5) as [[[]|s'] w6]; [| done].
      destruct (summary_ok w6) as [out Hout]. rewrite Hout in Hrun. done. }
    destruct (emits_before_summary unzip e _ _ _ Hstop) as (out & E & Hout).
    exists out. split; [done |]. split; [| done].
    intros Hin. rewrite Forall_forall in Hout. by destruct (Hout _ Hin).
Qed.

(** *** The network *)

Lemma quiet_unlink (q : path) : quiet (unlink q).
Proof. intros w r w'. revert r w'. prim; frame_solve. Qed.

Lemma quiet_rename (e : env) (start : path) (comps : list string) (dst : path) :
  quiet (rename e start comps dst).
Proof. intros w r w'. revert r w'. prim; frame_solve. Qed.

Lemma quiet_rmtree (q : path) : quiet (rmtree_ignore_errors q).
Proof. intros w r w'. revert r w'. prim; frame_solve. Qed.

Lemma quiet_open_zip (unzip : string → option archive) (q : path) :
  quiet (open_zip unzip q).
Proof.
  apply quiet_bind; [apply quiet_gets |]. intros t.
  destruct (t !! q) as [[data m|m]|]; [| apply quiet_halt..].
  destruct (unzip data); [apply quiet_ret | apply quiet_halt].
Qed.

Lemma quiet_extract (e : env) (z : archive) (name : string) (dir : path) :
  quiet (extract e z name dir).
Proof.
  unfold extract. destruct (member z name) as [data|]; [| apply quiet_halt].
  apply quiet_bind; [apply quiet_gets |]. intros t.
  destruct (makedirs_from e dir _ t) as [[x|] t'].
  - apply quiet_bind; [apply quiet_set_files | intros; apply quiet_halt].
  - apply quiet_bind; [apply quiet_set_files | intros; apply quiet_write_file].
Qed.

Lemma quiet_install_jar (e : env) (z : archive) : quiet (install_jar e z).
Proof.
  unfold install_jar.
  destruct (List.filter _ (namelist z)) as [|jar_src rest]; [apply quiet_die |].
  apply quiet_bind; [apply quiet_extract |]. intros _.
  apply quiet_bind; [| intros; apply quiet_rmtree].
  destruct (is_absolute jar_src); apply quiet_rename.
Qed.

Lemma quiet_before_download (e : env) : quiet (before_download e).
Proof.
  unfold before_download.
  apply quiet_bind; [apply quiet_print | intros _].
  apply quiet_bind; [apply quiet_preflight | intros _].
  apply quiet_bind; [apply quiet_backup | intros _].
  apply quiet_bind; [apply quiet_settings | intros _].
  apply quiet_bind; [apply quiet_build | intros _].
  apply quiet_bind; [apply quiet_properties | intros _].
  apply quiet_bind; [apply quiet_mkdir_p | intros _].
  apply quiet_ensure_wrapper_props.
Qed.

(** The download asks once; whatever follows asks nothing. *)
Lemma requests_ensure_wrapper_jar (unzip : string → option archive) (e : env)
    (w w' : world) (r : unit + stop) :
  ensure_wrapper_jar unzip e w = (r, w') →
  requests w'
  = requests w ++ (if bool_decide (is_Some (files w !! wrapper_jar)) then []
                   else [distribution_url]).
Proof.
  unfold ensure_wrapper_jar. unfold bind at 1, path_exists, gets. cbn [fst snd].
  destruct (bool_decide (is_Some (files w !! wrapper_jar))); cbn [negb].
  - intros [= <- <-]. by rewrite app_nil_r.
  - unfold urlretrieve. erewrite bind_ok by reflexivity.
    rewrite bind_assoc. erewrite bind_ok by reflexivity.
    intros Hrun.
    assert (quiet ((match fetch e distribution_url with
                    | Some body => write_file e zip_path body
                    | None =>
                        match broken e distribution_url with
                        | Some (got, x) => write_file e zip_path got ;; raise x
                        | None => raise URLError
                        end
                    end) ;;
                   z <- open_zip unzip zip_path ;;
                   install_jar e z ;; unlink zip_path ;;
                   ok "gradle-wrapper.jar installed")) as Hq.
    { apply quiet_bind.
      { destruct (fetch e distribution_url); [apply quiet_write_file |].
        destruct (broken e distribution_url) as [[got x]|]; [| apply quiet_halt].
        apply quiet_bind; [apply quiet_write_file | intros; apply quiet_halt]. }
      intros _. apply quiet_bind; [apply quiet_open_zip |]. intros z.
      apply quiet_bind; [apply quiet_install_jar |]. intros _.
      apply quiet_bind; [apply quiet_unlink | intros; apply quiet_ok]. }
    by rewrite (Hq _ _ _ Hrun).
Qed.

(** X5. A run asks the network at most once, and then for the
    distribution of [GRADLE_VERSION]: the list of requests grows by nothing
    or by [distribution_url] alone. It grows only when [gradle-wrapper.jar]
    was missing at the start. *)
Theorem main_requests (unzip : string → option archive) (e : env) (w : world) :
  let w' := (main unzip e w).2 in
  (requests w' = requests w ∨ requests w' = requests w ++ [distribution_url])
  ∧ (requests w' ≠ requests w → files w !! wrapper_jar = None).
Proof.
  intros w'. subst w'. rewrite main_split_download.
  destruct (before_download e w) as [[[]|s] w1] eqn:H1; cbn [snd].
  2:{ rewrite (quiet_before_download e _ _ _ H1). split; [by left | done]. }
  destruct ((ensure_wrapper_jar unzip e ;; launcher ;; summary) w1) as [r w'] eqn:H2.
  cbn [snd].
  assert (requests w'
          = requests w ++ (if bool_decide (is_Some (files w !! wrapper_jar)) then []
                           else [distribution_url])) as E.
  { rewrite <- (quiet_before_download e _ _ _ H1).
    rewrite <- (keeps_before_download_jar e _ _ _ wrapper_jar eq_refl H1).
    apply bind_inv in H2 as [(a & w2 & Hj & H3)|(s & Hj & _)].
    - rewrite <- (requests_ensure_wrapper_jar _ _ _ _ _ Hj).
      assert (quiet (launcher ;; summary)) as Hq.
      { apply quiet_bind; [apply quiet_launcher | intros; apply quiet_summary]. }
      apply (Hq _ _ _ H3).
    - apply (requests_ensure_wrapper_jar _ _ _ _ _ Hj). }
  rewrite E. case_bool_decide as Hjar.
  - rewrite app_nil_r. split; [by left | done].
  - split; [by right |]. intros _. by apply eq_None_not_Some.
Qed.

(** *** Step 6 in a whole run *)

Lemma gradlew_run (unzip : string → option archive) (e : env) (w : world) :
  files (main unzip e w).2 !! gradlew
  = match (main unzip e w).1 with
    | inl _ => set_mode 493 <$> files w !! gradlew
    | inr _ => files w !! gradlew
    end.
Proof.
  rewrite main_split_launcher.
  destruct (before_launcher unzip e w) as [[[]|s] w5] eqn:H5; cbn [fst snd].
  2:{ apply (keeps_before_launcher unzip e _ _ _ gradlew eq_refl H5). }
  rewrite <- (keeps_before_launcher unzip e _ _ _ gradlew eq_refl H5).
  destruct (files w5 !! gradlew) as [n|] eqn:Hg.
  - erewrite bind_ok by by apply launcher_present.
    match goal with |- context [summary ?x] => destruct (summary_ok x) as [out ->] end.
    cbn [fst snd files]. by rewrite lookup_insert_eq.
  - erewrite bind_stop by by apply launcher_missing. done.
Qed.

(** X6. What a run does to [gradlew]: a run that ends with status 0 has
    set its permission bits to 0755 and nothing else (the data of a file is
    kept); a run that stops early leaves [gradlew] exactly as it was. *)
Theorem gradlew_after_run (unzip : string → option archive) (e : env) (w : world) :
  files (main unzip e w).2 !! gradlew
  = match (main unzip e w).1 with
    | inl _ => set_mode 493 <$> files w !! gradlew
    | inr _ => files w !! gradlew
    end.
Proof. apply gradlew_run. Qed.

(** *** Step 1 in a whole run *)

Lemma keeps_backup_each_dir (e : env) (ts : string) (fs : list string) :
  keeps (λ p, p = BACKUP_DIR) (backup_each e ts fs).
Proof.
  eapply keeps_weaken; [apply keeps_backup_each |]. intros p ->. simpl. lia.
Qed.

Lemma backup_leaves_dir (e : env) (w w' : world) (r : unit + stop) :
  backup e w = (r, w') → is_Some (files w' !! BACKUP_DIR).
Proof.
  unfold backup. unfold bind at 1, path_exists, gets. cbn [fst snd].
  case_bool_decide as Hdir; cbn [negb].
  - by intros [= <- <-].
  - apply eq_None_not_Some in Hdir.
    assert (mkdir e BACKUP_DIR w
            = (inl tt, World (<[BACKUP_DIR := Dir (dir_mode e)]> (files w))
                         (stdout w) (requests w))) as Hmk.
    { unfold mkdir, bind, gets, set_files. cbn [fst snd]. by rewrite Hdir. }
    erewrite bind_ok by exact Hmk.
    intros [(a & w1 & H1 & H2)|(s & H1 & _)]%bind_inv.
    + assert (reads (ok "Original files backed up")) as Hok by apply reads_print.
      rewrite (Hok _ _ _ H2).
      rewrite (keeps_backup_each_dir _ _ _ _ _ _ BACKUP_DIR eq_refl H1).
      cbn [files]. rewrite lookup_insert_eq. by eexists.
    + rewrite (keeps_backup_each_dir _ _ _ _ _ _ BACKUP_DIR eq_refl H1).
      cbn [files]. rewrite lookup_insert_eq. by eexists.
Qed.

(** X7. Once step 0 has passed, [.prepush_backup] exists at the end of the
    run, however the run ends (also when copying into it has failed); step 1
    of any later run then only reports that the backup exists, and copies
    nothing. *)
Theorem backup_dir_stays (unzip : string → option archive) (e : env) (w : world) :
  first_missing (files w) required = None →
  let w' := (main unzip e w).2 in
  is_Some (files w' !! BACKUP_DIR)
  ∧ ∀ e2, backup e2 w'
          = (inl tt,
             World (files w') (stdout w' ++ [Info "Backup already exists - skipping"])
               (requests w')).
Proof.
  intros Hpre w'.
  assert (is_Some (files w' !! BACKUP_DIR)) as Hdir; [| split; [done |]].
  2:{ intros e2. by apply backup_skip. }
  subst w'. rewrite main_preflight, Hpre.
  match goal with |- context [bind _ _ ?x] => generalize x end. intros w0.
  destruct (backup e w0) as [[[]|s] w1] eqn:H1.
  - erewrite bind_ok by exact H1.
    destruct ((settings e ;; build e ;; properties e ;; wrapper unzip e ;;
               launcher ;; summary) w1) as [r w2] eqn:H2. cbn [snd].
    assert (BACKUP_DIR `prefix_of` BACKUP_DIR ∧ no_jar_name BACKUP_DIR) as Hb.
    { split; [done | by repeat constructor]. }
    rewrite (keeps_after_backup unzip e _ _ _ BACKUP_DIR Hb H2).
    by eapply backup_leaves_dir.
  - erewrite bind_stop by exact H1. cbn [snd]. by eapply backup_leaves_dir.
Qed.

(** *** Step 5: a download that fails *)


(** X9. When the wrapper binary is missing and what the server sends is not
    a zip archive, step 5 stops with an uncaught [BadZipFile]. What was
    downloaded stays in the project directory under the name of the archive,
    and the wrapper binary is still missing. *)
Theorem download_not_an_archive (unzip : string → option archive) (e : env)
    (w : world) (body : string) :
  files w !! wrapper_jar = None →
  is_dir (files w !! zip_path) = false →
  fetch e distribution_url = Some body →
  unzip body = None →
  let w' := World (<[zip_path := File body (zip_mode e (files w))]> (files w))
              (stdout w ++ [download_message]) (requests w ++ [distribution_url]) in
  ensure_wrapper_jar unzip e w = (inr (Raised BadZipFile), w')
  ∧ files w' !! zip_path = Some (File body (zip_mode e (files w)))
  ∧ files w' !! wrapper_jar = None
  ∧ (∀ w0, before_download e w0 = (inl tt, w) →
           main unzip e w0 = (inr (Raised BadZipFile), w')).
Proof.
  intros Hjar Hdir Hfetch Hzip w'.
  assert (ensure_wrapper_jar unzip e w = (inr (Raised BadZipFile), w')) as Hrun.
  { unfold ensure_wrapper_jar. unfold bind at 1, path_exists, gets. cbn [fst snd].
    rewrite Hjar, bool_decide_eq_false_2 by (by intros [? ?]). cbn [negb].
    erewrite bind_ok by reflexivity.
    assert (urlretrieve e distribution_url zip_path
              (World (files w) (stdout w ++ [download_message]) (requests w))
            = (inl tt, w')) as Hget.
    { unfold urlretrieve, zip_mode. erewrite bind_ok by reflexivity. rewrite Hfetch.
      unfold write_file, bind, gets, set_files. cbn [fst snd files stdout requests].
      subst w'. unfold zip_mode.
      by destruct (files w !! zip_path) as [[data m|m]|]. }
    erewrite bind_ok by exact Hget.
    erewrite bind_stop; [done |].
    unfold open_zip, bind, gets. cbn [fst snd]. subst w'. cbn [files].
    by rewrite lookup_insert_eq, Hzip. }
  split_and!; [done | | |].
  - subst w'. cbn [files]. by rewrite lookup_insert_eq.
  - subst w'. cbn [files]. by rewrite lookup_insert_ne.
  - intros w0 Hw0. rewrite main_split_download, Hw0.
    by erewrite bind_stop by exact Hrun.
Qed.

(** *** Step 4 on any input *)

Lemma pairs_of_filter (lines : list string) :
  pairs_of (List.filter (contains "=") lines) = pairs_of lines.
Proof.
  unfold pairs_of. induction lines as [|l lines IH]; [done |]. cbn [List.filter].
  destruct (contains "=" l) eqn:E; csimpl.
  - by rewrite IH.
  - by rewrite (line_pair_None _ E).
Qed.

(** X10. The loop that reads [gradle.properties] never fails (the unpacking
    [k, v = line.split("=", 1)] always gets two fields), and lines without
    ["="], such as comments and blank lines, have no effect on the table:
    reading the lines gives what reading only the lines with a separator
    gives. *)
Theorem parse_lines_separator_lines (lines : list string) (props : dict) :
  is_Some (parse_lines lines props)
  ∧ parse_lines lines props = parse_lines (List.filter (contains "=") lines) props.
Proof.
  rewrite !parse_lines_spec, pairs_of_filter. split; [by eexists | done].
Qed.



Lemma pairs_of_no_sep (lines : list string) :
  Forall (λ l, contains "=" l = false) lines → pairs_of lines = [].
Proof.
  unfold pairs_of. induction 1 as [|l lines Hl _ IH]; csimpl; [done |].
  by rewrite (line_pair_None _ Hl).
Qed.

(** X12. Without a file [gradle.properties], step 4 creates it with the
    default permission bits and the three mandatory lines, in the order of
    the assignments; a file in which no line has a separator (an empty file,
    or comments only) is replaced by the same three lines. *)
Theorem properties_from_nothing (e : env) (w : world) :
  let three := unlines ["android.useAndroidX=true"; "android.enableJetifier=true";
                        "org.gradle.jvmargs=-Xmx2048m"]%string in
  (files w !! gp = None →
   properties e w
   = (inl tt,
      World (<[gp := File three (file_mode e)]> (files w))
        (stdout w ++ [Ok "gradle.properties enforced"]) (requests w)))
  ∧ (∀ data m,
       files w !! gp = Some (File data m) →
       Forall (λ l, contains "=" l = false) (splitlines (universal_newlines data)) →
       properties e w
       = (inl tt,
          World (<[gp := File three m]> (files w))
            (stdout w ++ [Ok "gradle.properties enforced"]) (requests w))).
Proof.
  intros three. split.
  - intros Hgp. by rewrite (properties_absent _ _ Hgp).
  - intros data m Hgp Hplain. rewrite (properties_file _ _ _ _ Hgp).
    unfold table_of. by rewrite (pairs_of_no_sep _ Hplain).
Qed.

(** X13. Writing and reading back: a table in the form the tool writes
    (distinct keys, stripped keys and values, no line boundary inside, no
    separator in a key) is read back from the text written for it exactly
    as it was, order included. A value may hold separators. *)
Theorem load_serialize_round_trip (d : dict) :
  canonical d → load (universal_newlines (serialize d)) = Some d.
Proof.
  intros Hd. destruct d as [|kv d]; [reflexivity |]. by apply load_serialize.
Qed.


(** *** Step 5: the directory and the wrapper properties *)

Lemma world_eta (w : world) : World (files w) (stdout w) (requests w) = w.
Proof. by destruct w. Qed.

(** X15. Where neither [gradle] nor [gradle/wrapper] is a regular file and
    [gradle-wrapper.properties] is missing, the first two sub-steps of
    step 5 succeed: each of the two directories is created with the default
    permission bits unless it exists (an entry that exists is kept), and the
    wrapper properties are created with the five lines of the template,
    the distribution URL for [GRADLE_VERSION] with its escaped colon among
    them. Nothing is printed and nothing is asked of the network. *)
Theorem wrapper_files_created (e : env) (w : world) :
  is_file (files w !! ["gradle"%string]) = false →
  is_file (files w !! wrapper_dir) = false →
  files w !! wrapper_props = None →
  let t' := ensure_dir e wrapper_dir (ensure_dir e ["gradle"%string] (files w)) in
  (mkdir_p e wrapper_dir ;; ensure_wrapper_props e) w
  = (inl tt,
     World (<[wrapper_props := File wrapper_props_text (file_mode e)]> t')
       (stdout w) (requests w))
  ∧ is_dir (t' !! ["gradle"%string]) = true
  ∧ is_dir (t' !! wrapper_dir) = true
  ∧ wrapper_props_text
    = unlines ["distributionBase=GRADLE_USER_HOME";
               "distributionPath=wrapper/dists";
               "distributionUrl=https\://services.gradle.org/distributions/gradle-8.2.1-bin.zip";
               "zipStoreBase=GRADLE_USER_HOME";
               "zipStorePath=wrapper/dists"]%string.
Proof.
  intros Hg Hw Hp t'.
  assert (is_dir (t' !! ["gradle"%string]) = true ∧ is_dir (t' !! wrapper_dir) = true
          ∧ t' !! wrapper_props = None
          ∧ makedirs_from e [] wrapper_dir (files w) = (None, t')) as (Dg & Dw & Dp & Hmk).
  { subst t'. unfold ensure_dir, wrapper_props, wrapper_dir in *.
    cbn [makedirs_from app] in *.
    destruct (files w !! ["gradle"%string]) as [[d m|m]|] eqn:Eg; [done | |].
    - destruct (files w !! ["gradle"%string; "wrapper"%string]) as [[d' m'|m']|] eqn:Ew;
        [done | |];
        rewrite ?lookup_insert_eq, ?lookup_insert_ne, ?Eg, ?Ew by done;
        split_and!; rewrite ?lookup_insert_eq, ?lookup_insert_ne, ?Eg, ?Ew by done; done.
    - rewrite ?lookup_insert_ne by done.
      destruct (files w !! ["gradle"%string; "wrapper"%string]) as [[d' m'|m']|] eqn:Ew;
        [done | |];
        rewrite ?lookup_insert_eq, ?lookup_insert_ne, ?Eg, ?Ew by done;
        split_and!; rewrite ?lookup_insert_eq, ?lookup_insert_ne, ?Eg, ?Ew by done; done. }
  split_and!; [| done | done | reflexivity].
  assert (mkdir_p e wrapper_dir w = (inl tt, World t' (stdout w) (requests w))) as Hmkp.
  { unfold mkdir_p, bind, gets, set_files. cbn [fst snd]. by rewrite Hmk. }
  erewrite bind_ok by exact Hmkp.
  unfold ensure_wrapper_props, bind, path_exists, gets. cbn [fst snd files].
  rewrite Dp, bool_decide_eq_false_2 by (by intros [? ?]). cbn [negb].
  unfold write_text, write_file, bind, gets, set_files. cbn [fst snd files].
  rewrite Dp. unfold parent, wrapper_props, wrapper_dir. cbn [removelast app dir_at].
  unfold wrapper_dir in Dw. by rewrite Dw.
Qed.

(** X16. A regular file in the way of [gradle/wrapper] stops step 5 before
    anything is written: with a regular file named [gradle] the step ends in
    [NotADirectoryError], with a regular file at [gradle/wrapper] itself in
    [FileExistsError]; the state is as it was. *)
Theorem wrapper_blocked (unzip : string → option archive) (e : env) (w : world) :
  (is_file (files w !! ["gradle"%string]) = true →
   files w !! wrapper_dir = None →
   wrapper unzip e w = (inr (Raised NotADirectoryError), w))
  ∧ (is_dir (files w !! ["gradle"%string]) = true →
     is_file (files w !! wrapper_dir) = true →
     wrapper unzip e w = (inr (Raised FileExistsError), w)).
Proof.
  split.
  - intros Hg Hw. unfold wrapper. erewrite bind_stop; [done |].
    unfold mkdir_p, bind, gets, set_files, raise, halt. cbn [fst snd].
    unfold wrapper_dir in *. cbn [makedirs_from app].
    destruct (files w !! ["gradle"%string]) as [[d m|m]|]; [| done..].
    rewrite Hw. by rewrite world_eta.
  - intros Hg Hw. unfold wrapper. erewrite bind_stop; [done |].
    unfold mkdir_p, bind, gets, set_files, raise, halt. cbn [fst snd].
    unfold wrapper_dir in *. cbn [makedirs_from app].
    destruct (files w !! ["gradle"%string]) as [[d m|m]|]; [done | | done].
    destruct (files w !! ["gradle"%string; "wrapper"%string]) as [[d' m'|m']|];
      [| done..].
    by rewrite world_eta.
Qed.

(** *** Step 0 looks at names only *)

(** X17. Step 0 checks that the required names exist, not what they are: a
    project in which [settings.gradle] is a directory passes step 0, and the
    run then ends with an uncaught [IsADirectoryError] (status 1). The only
    change to the project directory is that [.prepush_backup] exists. *)
Theorem directory_passes_preflight (unzip : string → option archive) (e : env)
    (w : world) (m : Z) :
  first_missing (files w) required = None →
  files w !! ["settings.gradle"%string] = Some (Dir m) →
  ∃ w', main unzip e w = (inr (Raised IsADirectoryError), w')
        ∧ exit_status (main unzip e w).1 = Some 1
        ∧ is_Some (files w' !! BACKUP_DIR)
        ∧ ∀ p, p ≠ BACKUP_DIR → files w' !! p = files w !! p.
Proof.
  intros Hpre Hs. rewrite main_preflight, Hpre.
  match goal with |- context [bind _ _ ?x] => set (w0 := x) end.
  assert (files w0 = files w) as Hw0 by done. clearbody w0.
  destruct (files w !! BACKUP_DIR) as [n|] eqn:Hb.
  - erewrite bind_ok by (apply backup_skip; rewrite Hw0, Hb; by eexists).
    match goal with |- context [bind _ _ ?x] => set (w1 := x) end.
    assert ((settings e ;; build e ;; properties e ;; wrapper unzip e ;;
             launcher ;; summary) w1 = (inr (Raised IsADirectoryError), w1)) as Hrun.
    { erewrite bind_stop; [done |]. unfold settings. erewrite bind_stop; [done |].
      unfold write_text, write_file, bind, gets, raise, halt. unfold w1 at 1.
      cbn [fst snd files]. by rewrite Hw0, Hs. }
    rewrite Hrun. exists w1. split_and!; [done | done | |].
    + unfold w1. cbn [files]. rewrite Hw0, Hb. by eexists.
    + intros p _. unfold w1. cbn [files]. by rewrite Hw0.
  - assert (backup e w0
            = (inr (Raised IsADirectoryError),
               World (<[BACKUP_DIR := Dir (dir_mode e)]> (files w)) (stdout w0)
                 (requests w0))) as Hbk.
    { unfold backup. unfold bind at 1, path_exists, gets. cbn [fst snd].
      rewrite Hw0, Hb, bool_decide_eq_false_2 by (by intros [? ?]). cbn [negb].
      assert (mkdir e BACKUP_DIR w0
              = (inl tt, World (<[BACKUP_DIR := Dir (dir_mode e)]> (files w))
                           (stdout w0) (requests w0))) as Hmk.
      { unfold mkdir, bind, gets, set_files. cbn [fst snd]. by rewrite Hw0, Hb. }
      erewrite bind_ok by exact Hmk.
      erewrite bind_stop; [done |].
      unfold backed_up. cbn [backup_each].
      unfold bind at 1, path_exists, gets. cbn [fst snd files].
      rewrite lookup_insert_ne, Hs, bool_decide_eq_true_2 by (done || by eexists).
      erewrite bind_stop; [done |].
      unfold copy, bind, gets, raise, halt. cbn [fst snd files].
      by rewrite lookup_insert_ne, Hs by done. }
    erewrite bind_stop by exact Hbk.
    eexists. split_and!; [done | done | |].
    + cbn [files]. rewrite lookup_insert_eq. by eexists.
    + intros p Hp. cbn [files]. by rewrite lookup_insert_ne.
Qed.

(** *** Step 5: what an installation that succeeds has done *)






(** *** Step 5 in a run that succeeds *)








(** *** The wrapper directory after an installation *)





(** *** A run after a run that succeeded *)





End ScriptFacts.

(** ** The claims at concrete inputs *)

Module Witnesses.
Import PyStr Props FS Run Os Prepush Spec Sample RunFacts PrepushFacts.


Lemma C3_witness :
  (∃ r, r ∈ required ∧ files (World ∅ [] []) !! [r] = None)
  ∧ exit_status (main sample_unzip sample_env (World ∅ [] [])).1 = Some 1.
Proof.
  assert (∃ r, r ∈ required ∧ files (World ∅ [] []) !! [r] = None) as H.
  { exists "app"%string. split; [by left | reflexivity]. }
  split; [exact H |].
  destruct (C3_preflight_stops sample_unzip sample_env (World ∅ [] []) H)
    as (r & pre & post & _ & _ & _ & _ & Hexit & _).
  exact Hexit.
Defined.


Lemma C2_witness :
  let w1 := (main sample_unzip sample_env sample_world).2 in
  main sample_unzip sample_env sample_world = (inl tt, w1)
  ∧ files (main sample_unzip sample_env w1).2 !! gp = files w1 !! gp.
Proof.
  intros w1.
  assert (main sample_unzip sample_env sample_world = (inl tt, w1)) as Hrun.
  { vm_compute. reflexivity. }
  split; [exact Hrun |].
  destruct (C2_rerun_idempotent sample_unzip sample_env sample_env sample_world w1 Hrun)
    as (ms & mb & mg & d & _ & _ & _ & _ & _ & Hgp & _).
  exact Hgp.
Defined.


Lemma C6_witness :
  files sample_before_jar !! wrapper_jar = None
  ∧ is_dir (files sample_before_jar !! zip_path) = false
  ∧ fetch sample_env distribution_url = Some "ZIP"%string
  ∧ exit_status (ensure_wrapper_jar bare_unzip sample_env sample_before_jar).1 = Some 1
  ∧ is_Some (files (ensure_wrapper_jar bare_unzip sample_env sample_before_jar).2
               !! zip_path).
Proof.
  assert (files sample_before_jar !! wrapper_jar = None) as Hjar by reflexivity.
  assert (is_dir (files sample_before_jar !! zip_path) = false) as Hdir by reflexivity.
  assert (fetch sample_env distribution_url = Some "ZIP"%string) as Hfetch
    by reflexivity.
  split_and!; [exact Hjar | exact Hdir | exact Hfetch | |];
    destruct (C6_missing_entry bare_unzip sample_env sample_before_jar "ZIP"
                (Archive [("gradle-8.2.1/README", "read me")]%string)
                Hjar Hdir Hfetch eq_refl eq_refl)
      as (Hrun & Hexit & Hzip & _).
  - exact Hexit.
  - rewrite Hrun. cbn [snd]. rewrite Hzip. by eexists.
Defined.

Lemma C8_witness :
  contains "=" " foo = bar " = true
  ∧ parse_line " foo = bar " [] = Some [("foo", "bar")]%string.
Proof.
  assert (contains "=" " foo = bar " = true) as H by reflexivity.
  split; [exact H |].
  destruct (C8_parser_strips " foo = bar " [] H) as (_ & Hfoo & _).
  exact Hfoo.
Defined.

Lemma C9_witness :
  let data := unlines ["a=1"; "b=2"; "a=3"]%string in
  let w := World {[gp := File data 420]} [] [] in
  pairs_of (splitlines (universal_newlines data))
  = [("a", "1"); ("b", "2")]%string ++ ("a", "3")%string :: []
  ∧ ∃ d, files (properties sample_env w).2 !! gp
         = Some (File (unlines (map render_item d)) 420)
         ∧ dict_get "a" d = Some "3"%string
         ∧ ∃ rest, keys d = "a"%string :: rest ∧ "a"%string ∉ rest.
Proof.
  intros data w.
  assert (pairs_of (splitlines (universal_newlines data))
          = [("a", "1"); ("b", "2")]%string ++ ("a", "3")%string :: []) as Hlast
    by reflexivity.
  split; [exact Hlast |].
  destruct (C9_duplicate_keys sample_env w data 420 "a" "3" [] ["b"; "a"]%string
              [("a", "1"); ("b", "2")]%string [])
    as (d & rest & Hrun & Hkeys & _ & Hrest & Hval & _).
  - reflexivity.
  - exact Hlast.
  - apply not_elem_of_nil.
  - reflexivity.
  - apply not_elem_of_nil.
  - exists d. split_and!.
    + rewrite Hrun. cbn [snd files]. apply lookup_insert_eq.
    + apply Hval. vm_compute. intros Hin.
      repeat (apply elem_of_cons in Hin as [[=]|Hin]). by apply elem_of_nil in Hin.
    + exists rest. split; [exact Hkeys | exact Hrest].
Defined.


Lemma C5_witness :
  files sample_with_jar !! wrapper_jar = Some (File "" 420)
  ∧ requests (main sample_unzip sample_env sample_with_jar).2 = []
  ∧ files (main sample_unzip sample_env sample_with_jar).2 !! wrapper_jar
    = Some (File "" 420).
Proof.
  assert (files sample_with_jar !! wrapper_jar = Some (File "" 420)) as Hjar
    by reflexivity.
  split; [exact Hjar |].
  destruct (C5_wrapper_guards sample_unzip sample_env sample_with_jar)
    as (_ & _ & Hrun).
  destruct (Hrun _ Hjar) as (Hsame & Hquiet & _).
  split; [exact Hquiet | exact Hsame].
Defined.

Lemma C7_witness :
  let w := World (delete gradlew sample_project) [] [] in
  files w !! gradlew = None
  ∧ exit_status (main sample_unzip sample_env w).1 = Some 1
  ∧ last (stdout (main sample_unzip sample_env w).2) = Some (Fatal "gradlew script missing")
  ∧ main sample_unzip sample_env sample_world
    = (inl tt, (main sample_unzip sample_env sample_world).2)
  ∧ mode_of <$> files (main sample_unzip sample_env sample_world).2 !! gradlew
    = Some 493.
Proof.
  intros w.
  assert (files w !! gradlew = None) as Habs by reflexivity.
  assert (main sample_unzip sample_env sample_world
          = (inl tt, (main sample_unzip sample_env sample_world).2)) as Hrun.
  { apply (run_result (main sample_unzip sample_env sample_world) (inl tt)).
    vm_compute. reflexivity. }
  assert (before_launcher sample_unzip sample_env w
          = (inl tt, (before_launcher sample_unzip sample_env w).2)) as Hbefore.
  { apply (run_result (before_launcher sample_unzip sample_env w) (inl tt)).
    vm_compute. reflexivity. }
  destruct (C7_launcher sample_unzip sample_env w) as [Hmiss _].
  destruct (C7_launcher sample_unzip sample_env sample_world) as [_ Hok].
  destruct (Hmiss Habs) as (Hexit & _ & _ & Hdie).
  destruct (Hok _ Hrun) as (node & Hnode & Hmode & _).
  split_and!; [exact Habs | exact Hexit | | exact Hrun |].
  - rewrite (Hdie _ Hbefore). cbn [snd stdout]. apply last_snoc.
  - rewrite Hnode. simpl. by rewrite Hmode.
Defined.

End Witnesses.

(** ** The further facts at concrete inputs *)

Module ScriptWitnesses.
Import PyStr Props FS Run Os Prepush Spec Sample RunFacts PrepushFacts ScriptFacts.



Lemma main_transcript_witness :
  let w1 := (main sample_unzip sample_env sample_world).2 in
  main sample_unzip sample_env sample_world = (inl tt, w1)
  ∧ stdout w1 = success_transcript false false.
Proof.
  intros w1.
  assert (main sample_unzip sample_env sample_world = (inl tt, w1)) as Hrun.
  { apply (run_result (main sample_unzip sample_env sample_world) (inl tt)). vm_compute. reflexivity. }
  split; [exact Hrun |].
  rewrite (main_transcript sample_unzip sample_env sample_world w1 Hrun).
  vm_compute. reflexivity.
Defined.

Lemma main_sys_exit_witness :
  let w' := (main sample_unzip sample_env (World ∅ [] [])).2 in
  main sample_unzip sample_env (World ∅ [] []) = (inr (SysExit 1), w')
  ∧ ∃ msg, last (stdout w') = Some (Fatal msg) ∧ diagnostic msg.
Proof.
  intros w'.
  assert (main sample_unzip sample_env (World ∅ [] []) = (inr (SysExit 1), w')) as Hrun.
  { apply (run_result (main sample_unzip sample_env (World ∅ [] [])) (inr (SysExit 1))). vm_compute. reflexivity. }
  split; [exact Hrun |].
  destruct (main_sys_exit sample_unzip sample_env (World ∅ [] []) w' 1 Hrun) as [_ Hmsg].
  exact Hmsg.
Defined.

Lemma summary_only_on_success_witness :
  let w' := (main sample_unzip sample_env (World ∅ [] [])).2 in
  main sample_unzip sample_env (World ∅ [] []) = (inr (SysExit 1), w')
  ∧ ∃ out, stdout w' = [] ++ out ∧ Ok "Project is CI-safe" ∉ out.
Proof.
  intros w'.
  assert (main sample_unzip sample_env (World ∅ [] []) = (inr (SysExit 1), w')) as Hrun.
  { apply (run_result (main sample_unzip sample_env (World ∅ [] [])) (inr (SysExit 1))). vm_compute. reflexivity. }
  split; [exact Hrun |].
  destruct (summary_only_on_success sample_unzip sample_env (World ∅ [] []) w' _ Hrun)
    as (out & Hout & Hiff).
  exists out. split; [exact Hout |]. intros Hin. by apply Hiff in Hin.
Defined.

Lemma backup_dir_stays_witness :
  let w := World (<[["settings.gradle"%string] := Dir 493]> sample_project) [] [] in
  first_missing (files w) required = None
  ∧ is_Some (files (main sample_unzip sample_env w).2 !! BACKUP_DIR).
Proof.
  intros w.
  assert (first_missing (files w) required = None) as Hpre by reflexivity.
  split; [exact Hpre |].
  destruct (backup_dir_stays sample_unzip sample_env w Hpre) as [Hdir _].
  exact Hdir.
Defined.


Lemma download_not_an_archive_witness :
  files sample_before_jar !! wrapper_jar = None
  ∧ is_dir (files sample_before_jar !! zip_path) = false
  ∧ fetch sample_env distribution_url = Some "ZIP"%string
  ∧ (ensure_wrapper_jar (λ _, None) sample_env sample_before_jar).1
    = inr (Raised BadZipFile)
  ∧ is_Some (files (ensure_wrapper_jar (λ _, None) sample_env sample_before_jar).2
               !! zip_path).
Proof.
  assert (files sample_before_jar !! wrapper_jar = None) as Hjar by reflexivity.
  assert (is_dir (files sample_before_jar !! zip_path) = false) as Hdir by reflexivity.
  assert (fetch sample_env distribution_url = Some "ZIP"%string) as Hfetch
    by reflexivity.
  destruct (download_not_an_archive (λ _, None) sample_env sample_before_jar "ZIP"
              Hjar Hdir Hfetch eq_refl) as (Hrun & Hzip & _).
  split_and!; [exact Hjar | exact Hdir | exact Hfetch | |].
  - by rewrite Hrun.
  - rewrite Hrun. cbn [snd]. rewrite Hzip. by eexists.
Defined.


Lemma load_serialize_round_trip_witness :
  canonical [("foo", "bar"); ("k", "a=b")]%string
  ∧ load (universal_newlines (serialize [("foo", "bar"); ("k", "a=b")]%string))
    = Some [("foo", "bar"); ("k", "a=b")]%string.
Proof.
  assert (canonical [("foo", "bar"); ("k", "a=b")]%string) as Hd.
  { split.
    - apply (bool_decide_unpack _). vm_compute. exact I.
    - repeat constructor. }
  split; [exact Hd |]. exact (load_serialize_round_trip _ Hd).
Defined.


Lemma wrapper_files_created_witness :
  is_file (files sample_world !! ["gradle"%string]) = false
  ∧ is_file (files sample_world !! wrapper_dir) = false
  ∧ files sample_world !! wrapper_props = None
  ∧ files ((mkdir_p sample_env wrapper_dir ;; ensure_wrapper_props sample_env)%run
             sample_world).2 !! wrapper_props
    = Some (File wrapper_props_text 420).
Proof.
  assert (is_file (files sample_world !! ["gradle"%string]) = false) as Hg
    by reflexivity.
  assert (is_file (files sample_world !! wrapper_dir) = false) as Hw by reflexivity.
  assert (files sample_world !! wrapper_props = None) as Hp by reflexivity.
  split_and!; [exact Hg | exact Hw | exact Hp |].
  destruct (wrapper_files_created sample_env sample_world Hg Hw Hp) as (Hrun & _).
  rewrite Hrun. cbn [snd files]. rewrite lookup_insert_eq. reflexivity.
Defined.

Lemma directory_passes_preflight_witness :
  let w := World (<[["settings.gradle"%string] := Dir 493]> sample_project) [] [] in
  first_missing (files w) required = None
  ∧ files w !! ["settings.gradle"%string] = Some (Dir 493)
  ∧ exit_status (main sample_unzip sample_env w).1 = Some 1.
Proof.
  intros w.
  assert (first_missing (files w) required = None) as Hpre by reflexivity.
  assert (files w !! ["settings.gradle"%string] = Some (Dir 493)) as Hs by reflexivity.
  split_and!; [exact Hpre | exact Hs |].
  destruct (directory_passes_preflight sample_unzip sample_env w 493 Hpre Hs)
    as (w' & _ & Hexit & _).
  exact Hexit.
Defined.





Lemma properties_from_nothing_witness :
  files (World ∅ [] []) !! gp = None
  ∧ files (properties sample_env (World ∅ [] [])).2 !! gp
    = Some (File (unlines ["android.useAndroidX=true"; "android.enableJetifier=true";
                           "org.gradle.jvmargs=-Xmx2048m"]%string) 420).
Proof.
  assert (files (World ∅ [] []) !! gp = None) as Hgp by reflexivity.
  split; [exact Hgp |].
  destruct (properties_from_nothing sample_env (World ∅ [] [])) as [Habs _].
  rewrite (Habs Hgp). cbn [snd files]. rewrite lookup_insert_eq. reflexivity.
Defined.

Lemma wrapper_blocked_witness :
  let w := World {[ ["gradle"%string] := File "" 420 ]} [] [] in
  is_file (files w !! ["gradle"%string]) = true
  ∧ files w !! wrapper_dir = None
  ∧ wrapper sample_unzip sample_env w = (inr (Raised NotADirectoryError), w).
Proof.
  intros w.
  assert (is_file (files w !! ["gradle"%string]) = true) as Hg by reflexivity.
  assert (files w !! wrapper_dir = None) as Hw by reflexivity.
  split_and!; [exact Hg | exact Hw |].
  destruct (wrapper_blocked sample_unzip sample_env w) as [Hfile _].
  exact (Hfile Hg Hw).
Defined.

End ScriptWitnesses.
